(** * NumbFS-utils: the fsck statistics tool (src/fsck.c) and the on-disk
      format (src/disk.h), embedded in Rocq.

    Conventions of the embedding.
    - A C [int] is a [Z] kept in range by [wrap_int] (two's complement, as
      gcc converts); a [__u8] is a [Z] kept in range by [to_u8].
    - A [char buf[N]] is a [list Z] of raw bytes, each in [0, 256).
    - What [printf] / [fprintf(stderr, ...)] emit is recorded call by call:
      the format string exactly as written in the source (the two characters
      backslash-n stand for the newline escape) and the argument values.
      A [%s] argument is the byte string up to the first NUL.
    - Device contents, standard output and standard error are threaded
      through a small state monad whose computations can also stop early
      (process exit, failed assertion, undefined behaviour, loop budget). *)

From Stdlib Require Import ZArith List String Ascii Bool Lia.
Import ListNotations.
Open Scope Z_scope.

(* ================================================================== *)
(** ** Machine integers and byte buffers *)

Definition INT_MAX : Z := 2147483647.

(** Conversion of a mathematical integer to a 32-bit C [int]. *)
Definition wrap_int (z : Z) : Z := (z + 2147483648) mod 4294967296 - 2147483648.

(** Conversion to [long] (64 bits, LP64). *)
Definition wrap_long (z : Z) : Z :=
  (z + 9223372036854775808) mod 18446744073709551616 - 9223372036854775808.

(** Conversion to [__u8]. *)
Definition to_u8 (z : Z) : Z := z mod 256.

(** [for (i = lo; i < hi; i++) s = body i s;] for a loop whose bounds are
    not changed by its body: it runs [hi - lo] times (none if [hi <= lo]). *)
Fixpoint for_range {S : Type} (n : nat) (i : Z) (body : Z -> S -> S) (s : S) : S :=
  match n with
  | O => s
  | S n' => for_range n' (i + 1) body (body i s)
  end.

Definition for_lt {S : Type} (lo hi : Z) (body : Z -> S -> S) (s : S) : S :=
  for_range (Z.to_nat (hi - lo)) lo body s.

(** [buf[i]] for an index inside the array. *)
Definition byte_at (buf : list Z) (i : Z) : Z := nth (Z.to_nat i) buf 0.

(** [buf[i] = v] for an index inside the array. *)
Fixpoint store (buf : list Z) (i : nat) (v : Z) : list Z :=
  match buf, i with
  | [], _ => []
  | _ :: t, O => v :: t
  | h :: t, S i' => h :: store t i' v
  end.

(** [memset(buf, 0, n)] on an [n]-byte array. *)
Definition zeroed (n : nat) : list Z := repeat 0 n.

(** [memcpy(dst, src, n)] with [n] within both arrays. *)
Definition memcpy (dst src : list Z) (n : nat) : list Z :=
  firstn n src ++ skipn n dst.

(** The bytes [printf] prints for a [%s] argument pointing at the start of
    [mem]: everything before the first NUL.  [None] when [mem] ends before a
    NUL is met (the read would leave the array). *)
Fixpoint c_string (mem : list Z) : option (list Z) :=
  match mem with
  | [] => None
  | b :: rest =>
      if b =? 0 then Some []
      else match c_string rest with
           | Some s => Some (b :: s)
           | None => None
           end
  end.

(** Little-endian decoding ([le16_to_cpu], [le64_to_cpu] on the raw bytes). *)
Fixpoint le_decode (bytes : list Z) : Z :=
  match bytes with
  | [] => 0
  | b :: rest => b + 256 * le_decode rest
  end.

Definition le_at (buf : list Z) (off : Z) (width : nat) : Z :=
  le_decode (firstn width (skipn (Z.to_nat off) buf)).

(** Little-endian encoding on [width] bytes (what mkfs stores). *)
Fixpoint le_encode (width : nat) (z : Z) : list Z :=
  match width with
  | O => []
  | S w => z mod 256 :: le_encode w (z / 256)
  end.

(* ================================================================== *)
(** ** disk.h: constants and record layouts *)

Definition NUMBFS_MAX_PATH_LEN : Z := 60.
Definition NUMBFS_XATTR_MAXNAME : Z := 16.
Definition NUMBFS_XATTR_MAXVALUE : Z := 32.

(** The field types used by the on-disk records. *)
Inductive ctype : Type :=
  | U8 | CHAR | LE16 | LE32 | LE64
  | ARR (elt : ctype) (len : Z).

Fixpoint sizeof (t : ctype) : Z :=
  match t with
  | U8 | CHAR => 1
  | LE16 => 2
  | LE32 => 4
  | LE64 => 8
  | ARR elt len => len * sizeof elt
  end.

Fixpoint alignof (t : ctype) : Z :=
  match t with
  | U8 | CHAR => 1
  | LE16 => 2
  | LE32 => 4
  | LE64 => 8
  | ARR elt _ => alignof elt
  end.

(** Smallest multiple of [a] that is at least [off]. *)
Definition align_up (off a : Z) : Z := ((off + a - 1) / a) * a.

(** A struct is its list of (field name, type), in declaration order. *)
Definition struct_def : Type := list (string * ctype).

(** Offset just past the last field, every field placed at the next offset
    aligned for it (no packing attribute is used in disk.h). *)
Fixpoint fields_end (off : Z) (fs : struct_def) : Z :=
  match fs with
  | [] => off
  | (_, t) :: rest => fields_end (align_up off (alignof t) + sizeof t) rest
  end.

Definition struct_align (fs : struct_def) : Z :=
  fold_right (fun f a => Z.max (alignof (snd f)) a) 1 fs.

(** [sizeof(struct ...)]: the end of the fields rounded to the alignment. *)
Definition struct_sizeof (fs : struct_def) : Z :=
  align_up (fields_end 0 fs) (struct_align fs).

(** Offset of the field called [name]. *)
Fixpoint field_offset (off : Z) (fs : struct_def) (name : string) : option Z :=
  match fs with
  | [] => None
  | (n, t) :: rest =>
      let o := align_up off (alignof t) in
      if String.eqb n name then Some o else field_offset (o + sizeof t) rest name
  end.

Definition numbfs_super_block : struct_def :=
  [ ("s_magic", LE32); ("s_feature", LE32); ("s_ibitmap_start", LE32);
    ("s_inode_start", LE32); ("s_bbitmap_start", LE32); ("s_data_start", LE32);
    ("s_total_inodes", LE32); ("s_free_inodes", LE32); ("s_data_blocks", LE32);
    ("s_free_blocks", LE32); ("s_reserved", ARR U8 88) ]%string.

Definition numbfs_inode : struct_def :=
  [ ("i_ino", LE16); ("i_nlink", LE16); ("i_uid", LE16); ("i_gid", LE16);
    ("i_mode", LE32); ("i_size", LE32); ("i_xattr_start", LE32);
    ("i_xattr_count", U8); ("reserved2", ARR U8 3); ("i_data", ARR LE32 10) ]%string.

Definition numbfs_dirent : struct_def :=
  [ ("name_len", U8); ("type", U8); ("name", ARR CHAR NUMBFS_MAX_PATH_LEN);
    ("ino", LE16) ]%string.

Definition numbfs_timestamps : struct_def :=
  [ ("t_atime", LE64); ("t_mtime", LE64); ("t_ctime", LE64);
    ("reserved", ARR U8 8) ]%string.

Definition numbfs_xattr_entry : struct_def :=
  [ ("e_valid", U8); ("e_type", U8); ("e_nlen", U8); ("e_vlen", U8);
    ("e_name", ARR U8 NUMBFS_XATTR_MAXNAME);
    ("e_value", ARR U8 NUMBFS_XATTR_MAXVALUE) ]%string.

(** Outcome of building the program. *)
Inductive build_result : Type := BuildOk | BuildError.

(** Modelled from the spec: NUMBFS_BUILD_BUG_ON is declared in utils.h, which
    is not among the sources; section 4.1 makes a failed layout assertion a
    fatal build error.  A true condition stops the build, a false one lets
    the rest of the checks run. *)
Definition NUMBFS_BUILD_BUG_ON (cond : bool) (rest : build_result) : build_result :=
  if cond then BuildError else rest.

(** The body of [numbfs_check_ondisk], the four sizes supplied by the
    compiler. *)
Definition check_ondisk (super inode dirent timestamps : Z) : build_result :=
  NUMBFS_BUILD_BUG_ON (negb (super =? 128))
    (NUMBFS_BUILD_BUG_ON (negb (inode =? 64))
      (NUMBFS_BUILD_BUG_ON (negb (dirent =? 64))
        (NUMBFS_BUILD_BUG_ON (negb (timestamps =? 32)) BuildOk))).

Definition numbfs_check_ondisk : build_result :=
  check_ondisk (struct_sizeof numbfs_super_block) (struct_sizeof numbfs_inode)
               (struct_sizeof numbfs_dirent) (struct_sizeof numbfs_timestamps).

(** [NUMBFS_XATTR_ENTRY_START] and the size of one attribute slot. *)
Definition NUMBFS_XATTR_ENTRY_START : Z := struct_sizeof numbfs_timestamps.
Definition XATTR_ENTRY_SIZE : Z := struct_sizeof numbfs_xattr_entry.
Definition DIRENT_SIZE : Z := struct_sizeof numbfs_dirent.

(** <dirent.h> and <sys/stat.h> values used by the tool. *)
Definition DT_DIR : Z := 4.
Definition DT_REG : Z := 8.
Definition DT_LNK : Z := 10.
Definition S_IFMT : Z := 61440.
Definition S_IFDIR : Z := 16384.
Definition S_IFLNK : Z := 40960.
Definition S_ISDIR (mode : Z) : bool := Z.land mode S_IFMT =? S_IFDIR.
Definition S_ISLNK (mode : Z) : bool := Z.land mode S_IFMT =? S_IFLNK.

(** <errno.h> values used by the tool. *)
Definition ENOENT : Z := 2.
Definition EIO : Z := 5.
Definition ENOMEM : Z := 12.

(* ================================================================== *)
(** ** fsck.c: counting the set bits of a bitmap block *)

(** [count_bit]: eight rounds of [ret += (byte & 1); byte >>= 1;]. *)
Definition count_bit (byte : Z) : Z :=
  snd (for_lt 0 8
         (fun _ st => (to_u8 (Z.shiftr (fst st) 1),
                       wrap_int (snd st + Z.land (fst st) 1)))
         (byte, 0)).

(* ================================================================== *)
(** ** The process and its surroundings *)

(** One argument of a [printf] call. *)
Inductive parg : Type :=
  | PInt (z : Z)               (** an integer conversion *)
  | PLit (s : string)          (** [%s] of a string literal *)
  | PStr (bytes : list Z)      (** [%s] of a buffer: its bytes before the NUL *)
  | PQuot (num den : Z).       (** [%.2f] of the double [num / den] *)

Record printf_call : Type := Printf { pf_fmt : string; pf_args : list parg }.
Arguments PLit s%_string.
Arguments Printf pf_fmt%_string pf_args%_list.

(** What the process can reach: the block device (its bytes), which paths
    [open] accepts ([0]) or refuses (an errno), whether [strdup] and [malloc]
    succeed, and what has been written to stdout and stderr so far. *)
Record world : Type := mkWorld {
  w_dev : list Z;
  w_open : string -> Z;
  w_strdup_ok : bool;
  w_malloc_ok : bool;
  w_out : list printf_call;
  w_err : list printf_call
}.

Definition set_dev (d : list Z) (w : world) : world :=
  mkWorld d (w_open w) (w_strdup_ok w) (w_malloc_ok w) (w_out w) (w_err w).
Definition add_out (c : printf_call) (w : world) : world :=
  mkWorld (w_dev w) (w_open w) (w_strdup_ok w) (w_malloc_ok w) (w_out w ++ [c]) (w_err w).
Definition add_err (c : printf_call) (w : world) : world :=
  mkWorld (w_dev w) (w_open w) (w_strdup_ok w) (w_malloc_ok w) (w_out w) (w_err w ++ [c]).

(** Ways in which a computation ends without returning to its caller. *)
Inductive stop : Type :=
  | Exited (code : Z)   (** [exit(code)] *)
  | Aborted             (** a failed [BUG_ON] *)
  | Undefined           (** a read or write outside an array *)
  | OutOfFuel.          (** the loop budget of the model ran out *)

Inductive outcome (A : Type) : Type :=
  | Ret (a : A)
  | Stop (s : stop).
Arguments Ret {A} a.
Arguments Stop {A} s.

Definition M (A : Type) : Type := world -> outcome A * world.

Definition ret {A} (a : A) : M A := fun w => (Ret a, w).
Definition halt {A} (s : stop) : M A := fun w => (Stop s, w).
Definition bind {A B} (m : M A) (k : A -> M B) : M B :=
  fun w => match m w with
           | (Ret a, w') => k a w'
           | (Stop s, w') => (Stop s, w')
           end.

Notation "x <- m ;; k" := (bind m (fun x => k))
  (at level 61, m at next level, right associativity).
Notation "m ;; k" := (bind m (fun _ => k))
  (at level 61, right associativity).

Definition printf (fmt : string) (args : list parg) : M unit :=
  fun w => (Ret tt, add_out (Printf fmt args) w).
Definition eprintf (fmt : string) (args : list parg) : M unit :=
  fun w => (Ret tt, add_err (Printf fmt args) w).

Arguments printf fmt%_string args%_list.
Arguments eprintf fmt%_string args%_list.

(** A call that is handed the device and hands it back. *)
Definition on_dev {A} (f : list Z -> A * list Z) : M A :=
  fun w => (Ret (fst (f (w_dev w))), set_dev (snd (f (w_dev w))) w).

(** Modelled from the spec: BUG_ON is declared in utils.h, which is not
    among the sources; section 7 says the consistency check is a hard
    assertion that halts the process. *)
Definition BUG_ON (cond : bool) : M unit :=
  if cond then halt Aborted else ret tt.

(** [for (i = lo; i < hi; i++) body(i);] in the monad. *)
Fixpoint for_range_M (n : nat) (i : Z) (body : Z -> M unit) : M unit :=
  match n with
  | O => ret tt
  | S n' => body i ;; for_range_M n' (i + 1) body
  end.

(** <fcntl.h> flags (Linux). *)
Definition O_RDWR : Z := 2.
Definition O_TRUNC : Z := 512.

(** [open(path, flags, mode)] on an existing device: the descriptor (or -1)
    and [errno].  Only [O_TRUNC] makes [open] itself alter the contents.  The
    tool has one file open at a time; its descriptor is taken to be 3. *)
Definition sys_open (path : string) (flags : Z) : M (Z * Z) :=
  fun w =>
    if w_open w path =? 0
    then (Ret (3, 0), if Z.land flags O_TRUNC =? 0 then w else set_dev [] w)
    else (Ret (-1, w_open w path), w).

(** [pread(fd, buf, count, off)]: the return value and the bytes placed
    at the start of [buf]. *)
Definition pread_result (device : list Z) (count off : Z) : Z * list Z :=
  if off <? 0 then (-1, [])
  else let data := firstn (Z.to_nat count) (skipn (Z.to_nat off) device) in
       (Z.of_nat (List.length data), data).

Definition sys_pread (count off : Z) : M (Z * list Z) :=
  fun w => (Ret (pread_result (w_dev w) count off), w).

Definition sys_close : M unit := ret tt.

(** In-memory descriptors (internal.h is not among the sources; the fields
    are the ones fsck.c reads). *)
Record numbfs_superblock_info : Type := {
  ibitmap_start : Z;
  inode_start : Z;
  bbitmap_start : Z;
  data_start : Z;
  free_inodes : Z;
  total_inodes : Z;
  free_blocks : Z;
  data_blocks : Z
}.

Record numbfs_inode_info : Type := {
  ni_sbi : numbfs_superblock_info;
  ni_nid : Z;
  ni_mode : Z;
  ni_nlink : Z;
  ni_uid : Z;
  ni_gid : Z;
  ni_size : Z;
  ni_xattr_start : Z;
  ni_xattr_count : Z
}.

(** [struct tm] of time.h, the broken-down time that [localtime] returns. *)
Record tm : Type := mkTm {
  tm_sec : Z;
  tm_min : Z;
  tm_hour : Z;
  tm_mday : Z;
  tm_mon : Z;
  tm_year : Z;
  tm_wday : Z;
  tm_yday : Z;
  tm_isdst : Z
}.

(** What fsck.c takes from outside: a constant of utils.h, the helpers of
    the library (superblock bootstrap, inode resolution, block I/O) and
    three libc functions whose results depend on the text, the time zone or
    the locale.  [localtime] returns a pointer that is NULL ([None]) when
    the time cannot be broken down (its year does not fit an [int]);
    [strftime] is the text produced for the one format fsck.c uses,
    "%Y-%m-%d %H:%M:%S".  The helpers are handed the device and hand it back
    together with their status and the buffer or descriptor they filled. *)
Class Collaborators : Type := {
  BYTES_PER_BLOCK : Z;
  atoi : string -> Z;
  localtime : Z -> option tm;
  strftime : tm -> list Z;
  numbfs_get_superblock : Z -> list Z -> (Z * numbfs_superblock_info) * list Z;
  numbfs_get_inode :
    numbfs_superblock_info -> Z -> list Z -> (Z * numbfs_inode_info) * list Z;
  numbfs_data_blk : numbfs_superblock_info -> Z -> Z;
  numbfs_read_block :
    numbfs_superblock_info -> Z -> list Z -> (Z * list Z) * list Z;
  numbfs_pread_inode :
    numbfs_inode_info -> Z -> Z -> list Z -> (Z * list Z) * list Z
}.

(** The result of [getopt_long] for one option, and the command line as the
    option loop sees it: the options in order, then [argv[optind..]]. *)
Inductive getopt_result : Type :=
  | OptHelp
  | OptInodes
  | OptBlocks
  | OptNid (optarg : string)
  | OptOther (text : string).

Arguments OptNid optarg%_string.
Arguments OptOther text%_string.

Record cmdline : Type := { cl_opts : list getopt_result; cl_rest : list string }.

Record numbfs_fsck_cfg : Type := mkCfg {
  show_inodes : bool;
  show_blocks : bool;
  nid : Z;
  dev : string
}.

(* ================================================================== *)
(** ** fsck.c *)

Section Fsck.

Context {E : Collaborators}.

Definition numbfs_fsck_help : M unit :=
  printf "Usage: [OPTIONS] TARGET\nGet disk statistics.\n\nGerneral options:\n --help                display this help information and exit\n --inodes|-i           display inode usage\n --blocks|-b           display block usage\n --nid=X               display the inode information of inode@nid\n" [].

(** The [while ((opt = getopt_long(...)) != -1) switch (opt)] loop. *)
Fixpoint parse_opts (opts : list getopt_result) (cfg : numbfs_fsck_cfg)
  : M numbfs_fsck_cfg :=
  match opts with
  | [] => ret cfg
  | OptHelp :: _ => numbfs_fsck_help ;; halt (Exited 0)
  | OptInodes :: rest =>
      parse_opts rest (mkCfg true (show_blocks cfg) (nid cfg) (dev cfg))
  | OptBlocks :: rest =>
      parse_opts rest (mkCfg (show_inodes cfg) true (nid cfg) (dev cfg))
  | OptNid optarg :: rest =>
      parse_opts rest
        (mkCfg (show_inodes cfg) (show_blocks cfg) (wrap_int (atoi optarg)) (dev cfg))
  | OptOther text :: _ =>
      eprintf "Unknown option: %s\n\n" [PLit text] ;;
      numbfs_fsck_help ;;
      halt (Exited 1)
  end.

Definition numbfs_fsck_parse_args (cl : cmdline) (cfg : numbfs_fsck_cfg)
  : M numbfs_fsck_cfg :=
  cfg <- parse_opts (cl_opts cl) cfg ;;
  match cl_rest cl with
  | [] => eprintf "missing block device!\n" [] ;; halt (Exited 1)
  | target :: _ =>
      fun w =>
        if w_strdup_ok w
        then ret (mkCfg (show_inodes cfg) (show_blocks cfg) (nid cfg) target) w
        else (eprintf "failed to get block device path\n" [] ;; halt (Exited 1)) w
  end.

(** [numbfs_fsck_used]: the sum of [count_bit(buf[i])] over the block; the
    [char] read from [buf] is converted to the [__u8] parameter. *)
Definition numbfs_fsck_used (buf : list Z) : Z :=
  for_lt 0 BYTES_PER_BLOCK
    (fun i ret => wrap_int (ret + count_bit (to_u8 (byte_at buf i)))) 0.

Definition numbfs_dir_type (type : Z) : string :=
  if type =? DT_DIR then "DIR    "
  else if type =? DT_LNK then "SYMLINK"
  else "REGULAR".

(** The block-sized buffer after [memset] and [strftime] on the broken-down
    time [timeinfo]: the text of the date, then zero bytes. *)
Definition date_buffer (timeinfo : tm) : list Z :=
  firstn (Z.to_nat BYTES_PER_BLOCK)
         (strftime timeinfo ++ zeroed (Z.to_nat BYTES_PER_BLOCK)).

(** [numbfs_time_to_date]: the buffer it leaves.  The pointer returned by
    [localtime] is handed to [strftime] without a test, so a NULL result is
    dereferenced there. *)
Definition numbfs_time_to_date (time : Z) : M (list Z) :=
  match localtime time with
  | Some timeinfo => ret (date_buffer timeinfo)
  | None => halt Undefined
  end.

(** [printf(fmt, ..., buf, ...)] with one [%s] buffer argument among the
    arguments: reading past the array is undefined. *)
Definition printf_str (fmt : string) (before : list parg) (mem : list Z)
           (after : list parg) : M unit :=
  match c_string mem with
  | Some s => printf fmt (before ++ PStr s :: after)
  | None => halt Undefined
  end.
Arguments printf_str fmt%_string before%_list mem%_list after%_list.

(** *** Extended attributes *)

Definition NUMBFS_XATTR_MAX_ENTRY : Z :=
  (BYTES_PER_BLOCK - struct_sizeof numbfs_timestamps) / XATTR_ENTRY_SIZE.

(** The slot that starts at byte [off] of the attribute block. *)
Record xattr_entry : Type := mkXattr {
  e_valid : Z;
  e_type : Z;
  e_nlen : Z;
  e_vlen : Z;
  e_name : list Z;
  e_value : list Z
}.

Definition xattr_entry_at (buf : list Z) (off : Z) : xattr_entry :=
  mkXattr (byte_at buf off) (byte_at buf (off + 1))
          (byte_at buf (off + 2)) (byte_at buf (off + 3))
          (firstn (Z.to_nat NUMBFS_XATTR_MAXNAME) (skipn (Z.to_nat (off + 4)) buf))
          (firstn (Z.to_nat NUMBFS_XATTR_MAXVALUE) (skipn (Z.to_nat (off + 20)) buf)).

(** One of the two local arrays of [numbfs_dump_xattrs] as [printf] finds
    it: [memset] to zero, the padding loop
    [for (j = 0; j < front; j++) field[j + len] = ' ';] with
    [front = max - len - 1], then [memcpy(field, src, len)].  A [len] above
    the array size makes [memcpy] write outside the array. *)
Definition xattr_padded (max len : Z) (src : list Z) : option (list Z) :=
  let field := zeroed (Z.to_nat max) in
  let front := wrap_int (max - len - 1) in
  let field := for_lt 0 front (fun j f => store f (Z.to_nat (j + len)) 32) field in
  if len <=? max then Some (memcpy field src (Z.to_nat len)) else None.

(** The text [%s] prints for such an array. *)
Definition xattr_field (max len : Z) (src : list Z) : option (list Z) :=
  match xattr_padded max len src with
  | Some field => c_string field
  | None => None
  end.

(** The body of the slot loop of [numbfs_dump_xattrs]. *)
Definition dump_xattr_entry (xe : xattr_entry) : M unit :=
  if e_valid xe =? 0 then ret tt
  else
    match xattr_field NUMBFS_XATTR_MAXNAME (e_nlen xe) (e_name xe),
          xattr_field NUMBFS_XATTR_MAXVALUE (e_vlen xe) (e_value xe) with
    | Some name, Some value =>
        printf "        type: %02d, name: %s, value: %s\n"
               [PInt (e_type xe); PStr name; PStr value]
    | _, _ => halt Undefined
    end.

Definition numbfs_dump_xattrs (ni : numbfs_inode_info) : M unit :=
  if ni_xattr_count ni =? 0 then ret tt
  else
    r <- on_dev (numbfs_read_block (ni_sbi ni)
                   (numbfs_data_blk (ni_sbi ni) (ni_xattr_start ni))) ;;
    if negb (fst r =? 0) then eprintf "error: failed to read xattr block\n" []
    else
      printf "    -------\n" [] ;;
      printf "    xattrs (count: %d)\n" [PInt (ni_xattr_count ni)] ;;
      for_range_M (Z.to_nat (wrap_int NUMBFS_XATTR_MAX_ENTRY)) 0
        (fun i => dump_xattr_entry
                    (xattr_entry_at (snd r)
                       (NUMBFS_XATTR_ENTRY_START + XATTR_ENTRY_SIZE * i))) ;;
      printf "    -------\n" [].

(** *** Directory content *)

(** What [%s] prints for [dir->name] of the entry at byte [off] of [buf]:
    the bytes from the first byte of the name field (offset 2 of the entry)
    up to the first NUL met in [buf]. *)
Definition dirent_name (buf : list Z) (off : Z) : option (list Z) :=
  c_string (skipn (Z.to_nat (off + 2)) buf).

(** The line printed for the directory entry at byte [off] of [buf]. *)
Definition dirent_line (buf : list Z) (off : Z) : option printf_call :=
  match dirent_name buf off with
  | Some name =>
      Some (Printf "       INODE: %05d, TYPE: %s, NAMELEN: %02d NAME: %s\n"
              [PInt (le_at buf (off + 62) 2);
               PLit (numbfs_dir_type (byte_at buf (off + 1)));
               PInt (byte_at buf off);
               PStr name])
  | None => None
  end.

(** [for (i = 0; i < ni->size; i += sizeof(struct numbfs_dirent))] from the
    current [i] on; the result is the [err] that [numbfs_fsck_show_inode]
    returns.  [fuel] bounds the number of rounds. *)
Fixpoint dir_content_loop (fuel : nat) (ni : numbfs_inode_info) (nid : Z)
         (i : Z) (buf : list Z) : M Z :=
  match fuel with
  | O => halt OutOfFuel
  | S fuel' =>
      if negb (i <? ni_size ni) then ret 0
      else
        r <- (if Z.rem i BYTES_PER_BLOCK =? 0
              then on_dev (numbfs_pread_inode ni i BYTES_PER_BLOCK)
              else ret (0, buf)) ;;
        if negb (fst r =? 0) then
          eprintf "error: failed to read block@%d of inode@%d\n"
                  [PInt (Z.quot i BYTES_PER_BLOCK); PInt nid] ;;
          ret (fst r)
        else if Z.rem i BYTES_PER_BLOCK <? 0 then halt Undefined
        else
          match dirent_line (snd r) (Z.rem i BYTES_PER_BLOCK) with
          | None => halt Undefined
          | Some line =>
              (fun w => (Ret tt, add_out line w)) ;;
              dir_content_loop fuel' ni nid (wrap_int (i + DIRENT_SIZE)) (snd r)
          end
  end.

(** *** One inode *)

Definition numbfs_fsck_show_inode (fuel : nat) (sbi : numbfs_superblock_info)
           (nid : Z) : M Z :=
  fun w0 =>
  if negb (w_malloc_ok w0) then ret (wrap_int (- ENOMEM)) w0
  else
  (gi <- on_dev (numbfs_get_inode sbi nid) ;;
   if negb (fst gi =? 0) then
     eprintf "error: failed to get inode information\n" [] ;; ret (fst gi)
   else
   let ni := snd gi in
   rb <- on_dev (numbfs_read_block sbi (numbfs_data_blk sbi (ni_xattr_start ni))) ;;
   if negb (fst rb =? 0) then
     eprintf "error: failed to read xattr block\n" [] ;; ret (fst rb)
   else
   let buf := snd rb in
   let t_atime := le_at buf 0 8 in
   let t_mtime := le_at buf 8 8 in
   let t_ctime := le_at buf 16 8 in
   printf "================================\n" [] ;;
   printf "Inode Information\n" [] ;;
   printf "    inode number:               %d\n" [PInt nid] ;;
   (if S_ISDIR (ni_mode ni) then
      printf "    inode type:                 DIR\n" []
    else if S_ISLNK (ni_mode ni) then
      printf "    inode type:                 SYMLINK\n" []
    else
      printf "    inode type:                 REGULAR FILE\n" []) ;;
   printf "    link count:                 %d\n" [PInt (ni_nlink ni)] ;;
   printf "    inode uid:                  %d\n" [PInt (ni_uid ni)] ;;
   printf "    inode gid:                  %d\n" [PInt (ni_gid ni)] ;;
   date <- numbfs_time_to_date (wrap_long t_atime) ;;
   printf_str "    inode atime:                %s\n" [] date [] ;;
   date <- numbfs_time_to_date (wrap_long t_mtime) ;;
   printf_str "    inode mtime:                %s\n" [] date [] ;;
   date <- numbfs_time_to_date (wrap_long t_ctime) ;;
   printf_str "    inode ctime:                %s\n" [] date [] ;;
   printf "    inode size:                 %d\n" [PInt (ni_size ni)] ;;
   numbfs_dump_xattrs ni ;;
   printf "\n" [] ;;
   if S_ISDIR (ni_mode ni) then
     printf "    DIR CONTENT\n" [] ;;
     dir_content_loop fuel ni nid 0 date
   else ret 0) w0.

(** *** The bitmap zones and the driver *)

(** The body shared by the two bitmap loops of [numbfs_fsck]:
    [for (i = ...; i < hi; i++) { pread; cnt += numbfs_fsck_used(buf); }]
    with [n] rounds left.  [None] is the jump to [exit] with [-EIO].  The
    zone bounds come from the superblock descriptor, so [i] stays below a
    descriptor field and [i++] does not wrap; the offset [i * BYTES_PER_BLOCK]
    is the product as an integer (the type of the constant is not known). *)
Fixpoint bitmap_loop (n : nat) (i cnt : Z) : M (option Z) :=
  match n with
  | O => ret (Some cnt)
  | S n' =>
      r <- sys_pread BYTES_PER_BLOCK (i * BYTES_PER_BLOCK) ;;
      if negb (wrap_int (fst r) =? BYTES_PER_BLOCK) then
        eprintf "failed to read block@%d\n" [PInt i] ;; ret None
      else bitmap_loop n' (i + 1) (wrap_int (cnt + numbfs_fsck_used (snd r)))
  end.

Definition bitmap_scan (lo hi : Z) : M (option Z) :=
  bitmap_loop (Z.to_nat (hi - lo)) lo 0.

(** [if (cfg.show_inodes) { ... }]; the result is [err] at its end, nonzero
    for the jump to [exit]. *)
Definition fsck_inodes (sbi : numbfs_superblock_info) : M Z :=
  r <- bitmap_scan (ibitmap_start sbi) (inode_start sbi) ;;
  match r with
  | None => ret (wrap_int (- EIO))
  | Some cnt =>
      BUG_ON (negb (cnt =? wrap_int (total_inodes sbi - free_inodes sbi))) ;;
      printf "    inodes usage:               %.2f%%\n"
             [PQuot (100 * cnt) (total_inodes sbi)] ;;
      ret 0
  end.

(** [if (cfg.show_blocks) { ... }]. *)
Definition fsck_blocks (sbi : numbfs_superblock_info) : M Z :=
  r <- bitmap_scan (bbitmap_start sbi) (data_start sbi) ;;
  match r with
  | None => ret (wrap_int (- EIO))
  | Some cnt =>
      BUG_ON (negb (cnt =? wrap_int (data_blocks sbi - free_blocks sbi))) ;;
      printf "    blocks usage:               %.2f%%\n"
             [PQuot (100 * cnt) (data_blocks sbi)] ;;
      ret 0
  end.

(** [if (cfg.nid >= 0) { ... }]. *)
Definition fsck_nid (fuel : nat) (sbi : numbfs_superblock_info)
           (cfg : numbfs_fsck_cfg) : M Z :=
  if 0 <=? nid cfg then
    err <- numbfs_fsck_show_inode fuel sbi (nid cfg) ;;
    if negb (err =? 0) then
      eprintf "error: failed to show inode information\n" [] ;; ret err
    else ret 0
  else ret 0.

Definition print_superblock (sbi : numbfs_superblock_info) : M unit :=
  printf "Superblock Information\n" [] ;;
  printf "    inode bitmap start:         %d\n" [PInt (ibitmap_start sbi)] ;;
  printf "    inode zone start:           %d\n" [PInt (inode_start sbi)] ;;
  printf "    block bitmap start:         %d\n" [PInt (bbitmap_start sbi)] ;;
  printf "    data zone start:            %d\n" [PInt (data_start sbi)] ;;
  printf "    free inodes:                %d\n" [PInt (free_inodes sbi)] ;;
  printf "    total inodes:               %d\n" [PInt (total_inodes sbi)] ;;
  printf "    total free blocks:          %d\n" [PInt (free_blocks sbi)] ;;
  printf "    total data blocks:          %d\n" [PInt (data_blocks sbi)].

(** The label [exit]: [close(fd); free(cfg.dev); return err;]. *)
Definition fsck_exit (err : Z) : M Z := sys_close ;; ret err.

Definition init_cfg : numbfs_fsck_cfg := mkCfg false false (-1) "".

(** [numbfs_fsck] from the three optional sections on: each section that
    fails jumps to [exit] with its [err]; otherwise [err = 0] is returned. *)
Definition report_sections (fuel : nat) (sbi : numbfs_superblock_info)
           (cfg : numbfs_fsck_cfg) : M Z :=
  e1 <- (if show_inodes cfg then fsck_inodes sbi else ret 0) ;;
  if negb (e1 =? 0) then fsck_exit e1
  else
    e2 <- (if show_blocks cfg then fsck_blocks sbi else ret 0) ;;
    if negb (e2 =? 0) then fsck_exit e2
    else
      e3 <- fsck_nid fuel sbi cfg ;;
      if negb (e3 =? 0) then fsck_exit e3
      else fsck_exit 0.

(** [numbfs_fsck] once the arguments are parsed: open the device, load the
    superblock, print its summary, then the optional sections. *)
Definition fsck_run (fuel : nat) (cfg : numbfs_fsck_cfg) : M Z :=
  o <- sys_open (dev cfg) O_RDWR ;;
  if fst o <? 0 then ret (wrap_int (- snd o))
  else
    gs <- on_dev (numbfs_get_superblock (fst o)) ;;
    if negb (fst gs =? 0) then
      eprintf "failed to read superblock\n" [] ;; fsck_exit (fst gs)
    else
      print_superblock (snd gs) ;;
      report_sections fuel (snd gs) cfg.

Definition numbfs_fsck (fuel : nat) (cl : cmdline) : M Z :=
  cfg <- numbfs_fsck_parse_args cl init_cfg ;;
  fsck_run fuel cfg.

(** [main]: the value returned is the exit status of the process. *)
Definition main (fuel : nat) (cl : cmdline) : M Z :=
  err <- numbfs_fsck fuel cl ;;
  if negb (err =? 0) then
    eprintf "Error occured in fsck, err: %d\n" [PInt err] ;; halt (Exited 1)
  else ret 0.

End Fsck.

(* ================================================================== *)
(** ** Reference notions used in the statements *)

(** The bits of a byte, least significant first. *)
Definition bit_positions : list Z := [0; 1; 2; 3; 4; 5; 6; 7].
Definition byte_bits (b : Z) : list bool := map (Z.testbit b) bit_positions.

(** Number of bits that are set in a run of bytes. *)
Definition set_bits (bytes : list Z) : Z :=
  Z.of_nat (List.length (filter (fun x : bool => x) (flat_map byte_bits bytes))).

(** The world after some more lines on standard output. *)
Definition add_outs (lines : list printf_call) (w : world) : world :=
  fold_left (fun w' l => add_out l w') lines w.

(** The bytes of the device blocks [lo .. hi-1]. *)
Definition zone_bytes (bpb : Z) (device : list Z) (lo hi : Z) : list Z :=
  firstn (Z.to_nat ((hi - lo) * bpb)) (skipn (Z.to_nat (lo * bpb)) device).

(** Every value of a byte, for exhaustive checks. *)
Definition all_bytes : list Z := map Z.of_nat (seq 0 256).

(** The line of entry number [k], counted from the start of the directory,
    when block [b] of the inode's data is [blk b]. *)
Definition entry_line (bpb : Z) (blk : Z -> list Z) (k : Z) : option printf_call :=
  dirent_line (blk (64 * k / bpb)) ((64 * k) mod bpb).

(** *** Directory entries as stored *)

(** A directory entry as a record of its four fields. *)
Record dirent : Type := mkDirent {
  d_name_len : Z;
  d_type : Z;
  d_name : list Z;
  d_ino : Z
}.

(** Its 64 bytes on disk, in the order of [struct numbfs_dirent]. *)
Definition dirent_stored (e : dirent) : list Z :=
  [d_name_len e; d_type e] ++ d_name e ++ le_encode 2 (d_ino e).

(** Well-formed as the format has it: a 60-byte name buffer, a name length
    of at most 60, a 16-bit inode number. *)
Definition dirent_ok (e : dirent) : Prop :=
  List.length (d_name e) = 60%nat /\
  0 <= d_name_len e <= NUMBFS_MAX_PATH_LEN /\
  0 <= d_ino e < 65536.

(** The name proper: the first [name_len] bytes of the buffer. *)
Definition dirent_name_of (e : dirent) : list Z :=
  firstn (Z.to_nat (d_name_len e)) (d_name e).

(** The name holds no NUL and is followed by one inside the buffer. *)
Definition name_terminated (e : dirent) : Prop :=
  d_name_len e < NUMBFS_MAX_PATH_LEN /\
  nth (Z.to_nat (d_name_len e)) (d_name e) 0 = 0 /\
  Forall (fun b => b <> 0) (dirent_name_of e).

(** The line that carries the stored inode number, type and name length of
    [e] and prints [name] as its name. *)
Definition printed_line (e : dirent) (name : list Z) : printf_call :=
  Printf "       INODE: %05d, TYPE: %s, NAMELEN: %02d NAME: %s\n"
         [PInt (d_ino e); PLit (numbfs_dir_type (d_type e));
          PInt (d_name_len e); PStr name].

(** The line that reproduces the stored fields. *)
Definition stored_line (e : dirent) : printf_call :=
  Printf "       INODE: %05d, TYPE: %s, NAMELEN: %02d NAME: %s\n"
         [PInt (d_ino e); PLit (numbfs_dir_type (d_type e));
          PInt (d_name_len e); PStr (dirent_name_of e)].

(** The nine lines of the superblock summary. *)
Definition superblock_lines (sbi : numbfs_superblock_info) : list printf_call :=
  [ Printf "Superblock Information\n" [];
    Printf "    inode bitmap start:         %d\n" [PInt (ibitmap_start sbi)];
    Printf "    inode zone start:           %d\n" [PInt (inode_start sbi)];
    Printf "    block bitmap start:         %d\n" [PInt (bbitmap_start sbi)];
    Printf "    data zone start:            %d\n" [PInt (data_start sbi)];
    Printf "    free inodes:                %d\n" [PInt (free_inodes sbi)];
    Printf "    total inodes:               %d\n" [PInt (total_inodes sbi)];
    Printf "    total free blocks:          %d\n" [PInt (free_blocks sbi)];
    Printf "    total data blocks:          %d\n" [PInt (data_blocks sbi)] ].

Definition inodes_usage_line (sbi : numbfs_superblock_info) (cnt : Z) : printf_call :=
  Printf "    inodes usage:               %.2f%%\n"
         [PQuot (100 * cnt) (total_inodes sbi)].

Definition blocks_usage_line (sbi : numbfs_superblock_info) (cnt : Z) : printf_call :=
  Printf "    blocks usage:               %.2f%%\n"
         [PQuot (100 * cnt) (data_blocks sbi)].

Section Notions.

Context {E : Collaborators}.

(** On [device], the loop over blocks [lo .. hi-1] reads every block and
    ends with [cnt]. *)
Definition scan_gives (device : list Z) (lo hi cnt : Z) : Prop :=
  forall w : world, w_dev w = device -> bitmap_scan lo hi w = (Ret (Some cnt), w).

End Notions.

(** A computation that leaves the device as it found it, however it ends. *)
Definition keeps_dev {A : Type} (m : M A) : Prop :=
  forall w : world, w_dev (snd (m w)) = w_dev w.

(* ================================================================== *)
(** ** A concrete setting: 512-byte blocks and a small image *)

Module Demo.

Definition bytes_of_string (s : string) : list Z :=
  map (fun c => Z.of_nat (Ascii.nat_of_ascii c)) (list_ascii_of_string s).
Arguments bytes_of_string s%_string.

(** A byte run cut or zero-filled to exactly [n] bytes. *)
Definition fit (n : nat) (bytes : list Z) : list Z :=
  firstn n (bytes ++ repeat 0 n).

Definition block_size : Z := 512.
Definition NUMBFS_MAGIC : Z := 1314213186.
Definition EINVAL : Z := 22.

Fixpoint digits (s : string) (acc : Z) : Z :=
  match s with
  | EmptyString => acc
  | String c rest =>
      let d := Z.of_nat (Ascii.nat_of_ascii c) - 48 in
      if (0 <=? d) && (d <=? 9) then digits rest (10 * acc + d) else acc
  end.

(** [atoi] on a decimal text with an optional minus sign. *)
Definition atoi (s : string) : Z :=
  match s with
  | String "-"%char rest => - digits rest 0
  | _ => digits s 0
  end.

(** [localtime]: NULL beyond 2^56 seconds, where the year does not fit an
    [int]; below, one fixed broken-down time (the epoch, a Thursday) is
    enough here, the claims do not depend on the date. *)
Definition localtime (t : Z) : option tm :=
  if (- 2 ^ 56 <=? t) && (t <=? 2 ^ 56) then Some (mkTm 0 0 0 1 0 70 4 0 0)
  else None.

Definition dec2 (n : Z) : list Z := [48 + n / 10 mod 10; 48 + n mod 10].

(** [strftime] for "%Y-%m-%d %H:%M:%S" on a year of four digits. *)
Definition strftime (ti : tm) : list Z :=
  dec2 ((1900 + tm_year ti) / 100) ++ dec2 (1900 + tm_year ti) ++ [45]
  ++ dec2 (tm_mon ti + 1) ++ [45] ++ dec2 (tm_mday ti) ++ [32]
  ++ dec2 (tm_hour ti) ++ [58] ++ dec2 (tm_min ti) ++ [58] ++ dec2 (tm_sec ti).

Definition empty_sbi : numbfs_superblock_info :=
  Build_numbfs_superblock_info 0 0 0 0 0 0 0 0.

(** Modelled from the spec: the superblock bootstrap of section 4.2 (its
    code is not among the sources): read the block at offset one block,
    check the magic number, decode the little-endian fields. *)
Definition numbfs_get_superblock (fd : Z) (device : list Z)
  : (Z * numbfs_superblock_info) * list Z :=
  let r := pread_result device block_size block_size in
  if negb (fst r =? block_size) then ((- EIO, empty_sbi), device)
  else if negb (le_at (snd r) 0 4 =? NUMBFS_MAGIC) then ((- EINVAL, empty_sbi), device)
  else
    ((0, Build_numbfs_superblock_info
           (le_at (snd r) 8 4) (le_at (snd r) 12 4) (le_at (snd r) 16 4)
           (le_at (snd r) 20 4) (le_at (snd r) 28 4) (le_at (snd r) 24 4)
           (le_at (snd r) 36 4) (le_at (snd r) 32 4)),
     device).

Definition numbfs_data_blk (sbi : numbfs_superblock_info) (blk : Z) : Z :=
  data_start sbi + blk.

(** Modelled from the spec: the whole-block read of the block I/O layer. *)
Definition numbfs_read_block (sbi : numbfs_superblock_info) (blkaddr : Z)
           (device : list Z) : (Z * list Z) * list Z :=
  let r := pread_result device block_size (blkaddr * block_size) in
  if fst r =? block_size then ((0, snd r), device)
  else ((- EIO, fit 512 (snd r)), device).

(** The 64 bytes of inode [nid] in the inode table. *)
Definition inode_bytes (sbi : numbfs_superblock_info) (nid : Z) (device : list Z)
  : list Z :=
  snd (pread_result device 64 (inode_start sbi * block_size + nid * 64)).

(** Modelled from the spec: the inode resolution service of section 4.4. *)
Definition numbfs_get_inode (sbi : numbfs_superblock_info) (nid : Z)
           (device : list Z) : (Z * numbfs_inode_info) * list Z :=
  let raw := inode_bytes sbi nid device in
  ((if Z.of_nat (List.length raw) =? 64 then 0 else - EIO,
    Build_numbfs_inode_info sbi nid
      (le_at raw 8 4) (le_at raw 2 2) (le_at raw 4 2) (le_at raw 6 2)
      (wrap_int (le_at raw 12 4)) (le_at raw 16 4) (byte_at raw 20)),
   device).

(** Modelled from the spec: the positioned read on an inode's data, through
    its ten direct block addresses. *)
Definition numbfs_pread_inode (ni : numbfs_inode_info) (off len : Z)
           (device : list Z) : (Z * list Z) * list Z :=
  let raw := inode_bytes (ni_sbi ni) (ni_nid ni) device in
  let slot := off / block_size in
  if (off <? 0) || (10 <=? slot) then ((- EINVAL, fit 512 []), device)
  else
    numbfs_read_block (ni_sbi ni)
      (numbfs_data_blk (ni_sbi ni) (le_at raw (24 + 4 * slot) 4)) device.

Definition env : Collaborators :=
  Build_Collaborators block_size atoi localtime strftime numbfs_get_superblock
    numbfs_get_inode numbfs_data_blk numbfs_read_block numbfs_pread_inode.

(** *** An image: reserved block, superblock, inode bitmap, inode table,
    block bitmap, then four data blocks. *)

Definition le32 (z : Z) : list Z := le_encode 4 (z mod 4294967296).
Definition le16 (z : Z) : list Z := le_encode 2 z.

Definition super_bytes (free_ino free_blk : Z) : list Z :=
  le32 NUMBFS_MAGIC ++ le32 0 ++ le32 2 ++ le32 3 ++ le32 4 ++ le32 5
  ++ le32 8 ++ le32 free_ino ++ le32 4 ++ le32 free_blk.

(** The on-disk inode 0: a first data block and nine holes. *)
Definition inode_record (mode size xattr_start xattr_count data0 : Z) : list Z :=
  le16 0 ++ le16 2 ++ le16 0 ++ le16 0 ++ le32 mode ++ le32 size
  ++ le32 xattr_start ++ [xattr_count; 0; 0; 0] ++ le32 data0
  ++ flat_map (fun _ => le32 (-32)) (seq 0 9).

Definition image (free_ino free_blk : Z) (ibitmap bbitmap inode0 data0 data1 : list Z)
  : list Z :=
  fit 512 [] ++ fit 512 (super_bytes free_ino free_blk) ++ fit 512 ibitmap
  ++ fit 512 inode0 ++ fit 512 bbitmap ++ fit 512 data0 ++ fit 512 data1
  ++ fit 512 [] ++ fit 512 [].

Definition device_path : string := "numbfs.img".

Definition world_of (device : list Z) : world :=
  mkWorld device (fun p => if String.eqb p device_path then 0 else ENOENT)
          true true [] [].

(** A directory entry as stored: length, type, 60 name bytes, inode number. *)
Definition dirent_bytes (name_len type : Z) (name : list Z) (ino : Z) : list Z :=
  [name_len; type] ++ fit 60 name ++ le16 ino.

(** An attribute slot as stored. *)
Definition xattr_bytes (valid type : Z) (name value : list Z) : list Z :=
  [valid; type; Z.of_nat (List.length name); Z.of_nat (List.length value)]
  ++ fit 16 name ++ fit 32 value.

End Demo.

(** Directories and inodes on that image. *)
Module DemoDir.

Import Demo.

Definition sbi : numbfs_superblock_info :=
  Build_numbfs_superblock_info 2 3 4 5 7 8 2 4.

(** Three entries: ".", ".." and a regular file "hello". *)
Definition entries : list dirent :=
  [ mkDirent 1 DT_DIR (fit 60 (bytes_of_string ".")) 0;
    mkDirent 2 DT_DIR (fit 60 (bytes_of_string "..")) 0;
    mkDirent 5 DT_REG (fit 60 (bytes_of_string "hello")) 1 ].

Definition attr_block : list Z :=
  fit 32 [] ++ xattr_bytes 1 1 (bytes_of_string "user.x") (bytes_of_string "1").

(** A consistent image whose root directory holds [entries]. *)
Definition img : list Z :=
  image 7 2 [1] [3] (inode_record 16877 192 0 1 1) attr_block
        (flat_map dirent_stored entries).

Definition root : numbfs_inode_info :=
  Build_numbfs_inode_info sbi 0 16877 2 0 0 192 0 1.

Definition blocks (b : Z) : list Z :=
  if b =? 0 then fit 512 (flat_map dirent_stored entries) else [].

(** The same directory declared 200 bytes long: three entries and a tail
    of 8 bytes. *)
Definition img_200 : list Z :=
  image 7 2 [1] [3] (inode_record 16877 200 0 1 1) attr_block
        (flat_map dirent_stored entries).

Definition root_200 : numbfs_inode_info :=
  Build_numbfs_inode_info sbi 0 16877 2 0 0 200 0 1.

(** One entry whose name fills the 60-byte buffer. *)
Definition long_entry : dirent := mkDirent 60 DT_REG (repeat 97 60) 1.

Definition img_long : list Z :=
  image 7 2 [1] [3] (inode_record 16877 64 0 1 1) attr_block
        (dirent_stored long_entry).

Definition root_long : numbfs_inode_info :=
  Build_numbfs_inode_info sbi 0 16877 2 0 0 64 0 1.

End DemoDir.

(** Command lines and further images. *)
Module DemoRun.

Import Demo.

(** All three report options, the inode being the root directory. *)
Definition cl_all : cmdline :=
  {| cl_opts := [OptInodes; OptBlocks; OptNid "0"]; cl_rest := [device_path] |}.

Definition cfg_all : numbfs_fsck_cfg := mkCfg true true 0 device_path.

(** Both usage options and a negative inode number. *)
Definition cl_neg : cmdline :=
  {| cl_opts := [OptInodes; OptBlocks; OptNid "-5"]; cl_rest := [device_path] |}.

Definition cfg_neg : numbfs_fsck_cfg := mkCfg true true (-5) device_path.

(** The image of [DemoDir] with a superblock that claims every inode free
    although one bit of the inode bitmap is set. *)
Definition img_bad : list Z :=
  image 8 2 [1] [3] (inode_record 16877 192 0 1 1) DemoDir.attr_block
        (flat_map dirent_stored DemoDir.entries).

Definition sbi_bad : numbfs_superblock_info :=
  Build_numbfs_superblock_info 2 3 4 5 8 8 2 4.

(** An image whose root inode points its attribute block outside the
    device; the inode has no attribute. *)
Definition img_noattr : list Z :=
  image 7 2 [1] [3] (inode_record 33188 0 100 0 1) [] [].

Definition inode_noattr : numbfs_inode_info :=
  Build_numbfs_inode_info DemoDir.sbi 0 33188 2 0 0 0 100 0.

End DemoRun.

(** The slot of section 8 of the specification: name "user.x", value "1". *)
Definition user_x_slot : xattr_entry :=
  xattr_entry_at
    (Demo.fit 32 [] ++ Demo.xattr_bytes 1 1 (Demo.bytes_of_string "user.x")
                                        (Demo.bytes_of_string "1"))
    NUMBFS_XATTR_ENTRY_START.

(** An entry named "ab" whose [name_len] says 1. *)
Definition short_len_entry : dirent :=
  mkDirent 1 DT_REG (Demo.fit 60 (Demo.bytes_of_string "ab")) 7.

(** Directories that hold such entries. *)
Module DemoNames.

Import Demo.

(** The entry above alone. *)
Definition img_short : list Z :=
  image 7 2 [1] [3] (inode_record 16877 64 0 1 1) DemoDir.attr_block
        (dirent_stored short_len_entry).

(** ".", the entry above and an entry whose name fills the buffer. *)
Definition entries : list dirent :=
  [ mkDirent 1 DT_DIR (fit 60 (bytes_of_string ".")) 0;
    short_len_entry;
    DemoDir.long_entry ].

Definition img : list Z :=
  image 7 2 [1] [3] (inode_record 16877 192 0 1 1) DemoDir.attr_block
        (flat_map dirent_stored entries).

Definition blocks (b : Z) : list Z :=
  if b =? 0 then fit 512 (flat_map dirent_stored entries) else [].

End DemoNames.

(* ================================================================== *)
(** ** Further notions: the command line and the report *)

(** The call made by [numbfs_fsck_help]. *)
Definition usage : printf_call :=
  Printf "Usage: [OPTIONS] TARGET\nGet disk statistics.\n\nGerneral options:\n --help                display this help information and exit\n --inodes|-i           display inode usage\n --blocks|-b           display block usage\n --nid=X               display the inode information of inode@nid\n" [].

(** Options that let the option loop go on: [-i], [-b] and [--nid]. *)
Definition opt_plain (o : getopt_result) : bool :=
  match o with
  | OptInodes | OptBlocks | OptNid _ => true
  | OptHelp | OptOther _ => false
  end.

Definition wants_inodes (opts : list getopt_result) : bool :=
  existsb (fun o => match o with OptInodes => true | _ => false end) opts.

Definition wants_blocks (opts : list getopt_result) : bool :=
  existsb (fun o => match o with OptBlocks => true | _ => false end) opts.

Section OptionNotions.

Context {E : Collaborators}.

(** The inode number after [opts], starting from [start]: the value of the
    last [--nid]. *)
Fixpoint last_nid (opts : list getopt_result) (start : Z) : Z :=
  match opts with
  | [] => start
  | OptNid optarg :: rest => last_nid rest (wrap_int (atoi optarg))
  | _ :: rest => last_nid rest start
  end.

(** The configuration after the plain options [opts]. *)
Definition cfg_after (opts : list getopt_result) (cfg : numbfs_fsck_cfg)
  : numbfs_fsck_cfg :=
  mkCfg (show_inodes cfg || wants_inodes opts)
        (show_blocks cfg || wants_blocks opts)
        (last_nid opts (nid cfg)) (dev cfg).

End OptionNotions.

(** *** The attribute dump and the inode report *)

(** A slot whose name and value can be printed as the formatter pads them:
    lengths that leave room for the terminating NUL, and no NUL inside. *)
Definition slot_ok (xe : xattr_entry) : Prop :=
  0 <= e_nlen xe <= 15 /\ 0 <= e_vlen xe <= 31 /\
  Forall (fun b => b <> 0) (firstn (Z.to_nat (e_nlen xe)) (e_name xe)) /\
  Forall (fun b => b <> 0) (firstn (Z.to_nat (e_vlen xe)) (e_value xe)).

(** The line of such a slot. *)
Definition slot_line (xe : xattr_entry) : printf_call :=
  Printf "        type: %02d, name: %s, value: %s\n"
         [PInt (e_type xe);
          PStr (firstn (Z.to_nat (e_nlen xe)) (e_name xe)
                ++ repeat 32 (Z.to_nat (15 - e_nlen xe)));
          PStr (firstn (Z.to_nat (e_vlen xe)) (e_value xe)
                ++ repeat 32 (Z.to_nat (31 - e_vlen xe)))].

Definition slot_valid (xe : xattr_entry) : bool := negb (e_valid xe =? 0).

(** The slots number [first .. first + n - 1] of an attribute block. *)
Definition xattr_slots (buf : list Z) (first n : nat) : list xattr_entry :=
  map (fun i => xattr_entry_at buf
                  (NUMBFS_XATTR_ENTRY_START + XATTR_ENTRY_SIZE * Z.of_nat i))
      (seq first n).

Section ReportNotions.

Context {E : Collaborators}.

(** The lines of the inode report up to the attribute dump, for an inode
    resolved as [ni] whose three timestamps break down to [atime], [mtime]
    and [ctime]. *)
Definition inode_report_head (nid : Z) (ni : numbfs_inode_info)
           (atime mtime ctime : tm) : list printf_call :=
  [ Printf "================================\n" [];
    Printf "Inode Information\n" [];
    Printf "    inode number:               %d\n" [PInt nid];
    (if S_ISDIR (ni_mode ni) then Printf "    inode type:                 DIR\n" []
     else if S_ISLNK (ni_mode ni)
          then Printf "    inode type:                 SYMLINK\n" []
          else Printf "    inode type:                 REGULAR FILE\n" []);
    Printf "    link count:                 %d\n" [PInt (ni_nlink ni)];
    Printf "    inode uid:                  %d\n" [PInt (ni_uid ni)];
    Printf "    inode gid:                  %d\n" [PInt (ni_gid ni)];
    Printf "    inode atime:                %s\n"
           [PStr (strftime atime)];
    Printf "    inode mtime:                %s\n"
           [PStr (strftime mtime)];
    Printf "    inode ctime:                %s\n"
           [PStr (strftime ctime)];
    Printf "    inode size:                 %d\n" [PInt (ni_size ni)] ].

(** A date text that fits the block-sized buffer with its terminator. *)
Definition date_fits (timeinfo : tm) : Prop :=
  Forall (fun b => b <> 0) (strftime timeinfo) /\
  Z.of_nat (List.length (strftime timeinfo)) < BYTES_PER_BLOCK.

End ReportNotions.

(** Standard output and standard error only grow during [m]; a process exit
    has status 0 or 1, and status 1 comes with something on standard error. *)
Definition tidy {A : Type} (m : M A) : Prop :=
  forall w : world,
  exists o e : list printf_call,
    w_out (snd (m w)) = w_out w ++ o /\
    w_err (snd (m w)) = w_err w ++ e /\
    match fst (m w) with
    | Stop (Exited c) => (c = 0 \/ c = 1) /\ (c = 1 -> e <> [])
    | _ => True
    end.

(** A regular file of five bytes without attributes, as inode 0 of an
    otherwise empty image. *)
Module DemoFile.

Import Demo.

Definition img : list Z :=
  image 7 2 [1] [3] (inode_record 33188 5 0 0 1) [] [].

Definition inode : numbfs_inode_info :=
  Build_numbfs_inode_info DemoDir.sbi 0 33188 2 0 0 5 0 0.

(** The command line [--nid=0 numbfs.img]. *)
Definition cl_nid0 : cmdline :=
  {| cl_opts := [OptNid "0"]; cl_rest := [device_path] |}.

Definition cfg_nid0 : numbfs_fsck_cfg := mkCfg false false 0 device_path.

(** A directory of 1024 bytes whose second data block lies outside the
    device: the positioned read of the second block fails. *)
Definition img_hole : list Z :=
  image 7 2 [1] [3]
        (le16 0 ++ le16 2 ++ le16 0 ++ le16 0 ++ le32 16877 ++ le32 1024
         ++ le32 0 ++ [1; 0; 0; 0] ++ le32 1 ++ le32 50
         ++ flat_map (fun _ => le32 (-32)) (seq 0 8))
        DemoDir.attr_block
        (flat_map dirent_stored DemoDir.entries).

Definition dir_hole : numbfs_inode_info :=
  Build_numbfs_inode_info DemoDir.sbi 0 16877 2 0 0 1024 0 1.

End DemoFile.

(* ================================================================== *)
(** ** Basic facts *)

(** The byte offsets used by [xattr_entry_at], [dirent_line] and the
    timestamps of [numbfs_fsck_show_inode] are those of the record layouts. *)
Lemma record_offsets :
  field_offset 0 numbfs_dirent "name_len" = Some 0 /\
  field_offset 0 numbfs_dirent "type" = Some 1 /\
  field_offset 0 numbfs_dirent "name" = Some 2 /\
  field_offset 0 numbfs_dirent "ino" = Some 62 /\
  field_offset 0 numbfs_xattr_entry "e_valid" = Some 0 /\
  field_offset 0 numbfs_xattr_entry "e_type" = Some 1 /\
  field_offset 0 numbfs_xattr_entry "e_nlen" = Some 2 /\
  field_offset 0 numbfs_xattr_entry "e_vlen" = Some 3 /\
  field_offset 0 numbfs_xattr_entry "e_name" = Some 4 /\
  field_offset 0 numbfs_xattr_entry "e_value" = Some 20 /\
  field_offset 0 numbfs_timestamps "t_atime" = Some 0 /\
  field_offset 0 numbfs_timestamps "t_mtime" = Some 8 /\
  field_offset 0 numbfs_timestamps "t_ctime" = Some 16 /\
  NUMBFS_XATTR_ENTRY_START = 32 /\ XATTR_ENTRY_SIZE = 52 /\ DIRENT_SIZE = 64.
Proof. repeat split; reflexivity. Qed.

Lemma wrap_int_id (z : Z) : - 2147483648 <= z <= INT_MAX -> wrap_int z = z.
Proof.
  unfold wrap_int, INT_MAX. intros H.
  rewrite Z.mod_small by lia. lia.
Qed.

Lemma for_range_ext {S : Type} (f g : Z -> S -> S) (n : nat) :
  forall i s, (forall j t, f j t = g j t) ->
              for_range n i f s = for_range n i g s.
Proof.
  induction n as [|n IH]; intros i s Hfg; simpl; [reflexivity|].
  rewrite Hfg. apply IH. exact Hfg.
Qed.

Lemma set_bits_nil : set_bits [] = 0.
Proof. reflexivity. Qed.

Lemma set_bits_app (l1 l2 : list Z) :
  set_bits (l1 ++ l2) = set_bits l1 + set_bits l2.
Proof.
  unfold set_bits. rewrite flat_map_app, filter_app, length_app. lia.
Qed.

Lemma set_bits_cons (b : Z) (l : list Z) :
  set_bits (b :: l) = set_bits [b] + set_bits l.
Proof. exact (set_bits_app [b] l). Qed.

Lemma set_bits_nonneg (l : list Z) : 0 <= set_bits l.
Proof. unfold set_bits. lia. Qed.

Lemma set_bits_byte_le (b : Z) : set_bits [b] <= 8.
Proof.
  unfold set_bits. cbn [flat_map]. rewrite app_nil_r.
  pose proof (filter_length_le (fun x : bool => x) (byte_bits b)) as H.
  unfold byte_bits in H. rewrite length_map in H.
  change (List.length bit_positions) with 8%nat in H.
  unfold byte_bits. lia.
Qed.

Lemma set_bits_to_u8 (b : Z) : set_bits [to_u8 b] = set_bits [b].
Proof.
  unfold set_bits, to_u8. cbn [flat_map]. rewrite !app_nil_r. unfold byte_bits.
  do 3 f_equal. apply map_ext_in. intros i Hi.
  change 256 with (2 ^ 8).
  apply Z.mod_pow2_bits_low. simpl in Hi. lia.
Qed.

Lemma in_all_bytes (v : Z) : 0 <= v < 256 -> In v all_bytes.
Proof.
  intros H. unfold all_bytes. apply in_map_iff.
  exists (Z.to_nat v). split; [lia|]. apply in_seq. lia.
Qed.

Lemma count_bit_byte (v : Z) : 0 <= v < 256 -> count_bit v = set_bits [v].
Proof.
  intros H.
  assert (Hall : forallb (fun v => count_bit v =? set_bits [v]) all_bytes = true)
    by (vm_compute; reflexivity).
  rewrite forallb_forall in Hall.
  apply Z.eqb_eq, Hall, in_all_bytes, H.
Qed.

Lemma count_bit_popcount (b : Z) : count_bit (to_u8 b) = set_bits [b].
Proof.
  rewrite count_bit_byte.
  - apply set_bits_to_u8.
  - unfold to_u8. apply Z.mod_pos_bound. lia.
Qed.

Lemma skipn_nth_cons (l : list Z) (i : nat) :
  (i < List.length l)%nat -> skipn i l = nth i l 0 :: skipn (S i) l.
Proof.
  revert i. induction l as [|h t IH]; intros i Hi; simpl in Hi; [lia|].
  destruct i as [|i]; [reflexivity|].
  simpl. apply IH. lia.
Qed.

Section CountProps.

Context {E : Collaborators}.

Lemma used_loop (buf : list Z) (n : nat) :
  forall (i : nat) (acc : Z),
    0 <= acc ->
    (i + n <= List.length buf)%nat ->
    acc + set_bits (firstn n (skipn i buf)) <= INT_MAX ->
    for_range n (Z.of_nat i)
      (fun j ret => wrap_int (ret + count_bit (to_u8 (byte_at buf j)))) acc
    = acc + set_bits (firstn n (skipn i buf)).
Proof.
  induction n as [|n IH]; intros i acc Hacc Hlen Hmax; cbn [for_range].
  - rewrite firstn_O, set_bits_nil. lia.
  - rewrite (skipn_nth_cons buf i) in Hmax |- * by lia.
    rewrite firstn_cons, set_bits_cons in Hmax |- *.
    assert (Hb : byte_at buf (Z.of_nat i) = nth i buf 0)
      by (unfold byte_at; now rewrite Nat2Z.id).
    rewrite Hb, count_bit_popcount.
    pose proof (set_bits_nonneg [nth i buf 0]) as H1.
    pose proof (set_bits_nonneg (firstn n (skipn (S i) buf))) as H2.
    rewrite wrap_int_id by (unfold INT_MAX in *; lia).
    replace (Z.of_nat i + 1) with (Z.of_nat (S i)) by lia.
    rewrite IH by lia. lia.
Qed.

Lemma numbfs_fsck_used_set_bits (buf : list Z) :
  Z.of_nat (List.length buf) = BYTES_PER_BLOCK ->
  set_bits buf <= INT_MAX ->
  numbfs_fsck_used buf = set_bits buf.
Proof.
  intros Hlen Hmax. unfold numbfs_fsck_used, for_lt.
  rewrite Z.sub_0_r, <- Hlen, Nat2Z.id.
  change 0 with (Z.of_nat 0) at 1.
  rewrite used_loop; simpl skipn; rewrite ?firstn_all; lia.
Qed.

End CountProps.

Lemma firstn_plus {A : Type} (a b : nat) :
  forall l : list A, firstn (a + b) l = firstn a l ++ firstn b (skipn a l).
Proof.
  induction a as [|a IH]; intros l; [reflexivity|].
  destruct l as [|x l]; simpl.
  - now rewrite firstn_nil.
  - now rewrite IH.
Qed.

Lemma zone_bytes_step (bpb : Z) (device : list Z) (i : Z) (n : nat) :
  0 < bpb -> 0 <= i ->
  zone_bytes bpb device i (i + Z.of_nat (S n))
  = firstn (Z.to_nat bpb) (skipn (Z.to_nat (i * bpb)) device)
    ++ zone_bytes bpb device (i + 1) (i + 1 + Z.of_nat n).
Proof.
  intros Hb Hi. unfold zone_bytes.
  replace (Z.to_nat ((i + Z.of_nat (S n) - i) * bpb))
    with (Z.to_nat bpb + Z.to_nat ((i + 1 + Z.of_nat n - (i + 1)) * bpb))%nat by nia.
  rewrite firstn_plus, skipn_skipn.
  replace (Z.to_nat bpb + Z.to_nat (i * bpb))%nat with (Z.to_nat ((i + 1) * bpb)) by nia.
  reflexivity.
Qed.

Section ScanProps.

Context {E : Collaborators}.

Lemma pread_full_block (device : list Z) (i : Z) :
  0 < BYTES_PER_BLOCK -> 0 <= i ->
  (i + 1) * BYTES_PER_BLOCK <= Z.of_nat (List.length device) ->
  pread_result device BYTES_PER_BLOCK (i * BYTES_PER_BLOCK)
  = (BYTES_PER_BLOCK,
     firstn (Z.to_nat BYTES_PER_BLOCK) (skipn (Z.to_nat (i * BYTES_PER_BLOCK)) device)).
Proof.
  intros Hb Hi Hlen. unfold pread_result.
  destruct (i * BYTES_PER_BLOCK <? 0) eqn:Hneg; [apply Z.ltb_lt in Hneg; nia|].
  f_equal. rewrite length_firstn, length_skipn. nia.
Qed.

Lemma bitmap_loop_counts (n : nat) :
  forall (i cnt : Z) (w : world),
    0 < BYTES_PER_BLOCK <= INT_MAX ->
    0 <= i -> 0 <= cnt ->
    (i + Z.of_nat n) * BYTES_PER_BLOCK <= Z.of_nat (List.length (w_dev w)) ->
    cnt + set_bits (zone_bytes BYTES_PER_BLOCK (w_dev w) i (i + Z.of_nat n)) <= INT_MAX ->
    bitmap_loop n i cnt w
    = (Ret (Some (cnt + set_bits (zone_bytes BYTES_PER_BLOCK (w_dev w) i (i + Z.of_nat n)))), w).
Proof.
  induction n as [|n IH]; intros i cnt w Hb Hi Hcnt Hlen Hmax.
  - cbn [bitmap_loop]. unfold zone_bytes, ret.
    replace (Z.to_nat ((i + Z.of_nat 0 - i) * BYTES_PER_BLOCK)) with 0%nat by lia.
    rewrite firstn_O, set_bits_nil, Z.add_0_r. reflexivity.
  - rewrite zone_bytes_step in Hmax |- * by lia.
    rewrite set_bits_app in Hmax |- *.
    set (blk := firstn (Z.to_nat BYTES_PER_BLOCK)
                  (skipn (Z.to_nat (i * BYTES_PER_BLOCK)) (w_dev w))) in *.
    pose proof (set_bits_nonneg blk) as Hblk.
    pose proof (set_bits_nonneg
                  (zone_bytes BYTES_PER_BLOCK (w_dev w) (i + 1) (i + 1 + Z.of_nat n)))
      as Hrest.
    cbn [bitmap_loop]. unfold bind at 1, sys_pread.
    rewrite pread_full_block by lia. fold blk. cbn [fst snd].
    rewrite wrap_int_id by (unfold INT_MAX in *; lia).
    rewrite Z.eqb_refl. cbn [negb].
    assert (Hblen : Z.of_nat (List.length blk) = BYTES_PER_BLOCK).
    { unfold blk. rewrite length_firstn, length_skipn. nia. }
    rewrite numbfs_fsck_used_set_bits by (assumption || lia).
    rewrite wrap_int_id by (unfold INT_MAX in *; lia).
    rewrite IH by lia.
    do 3 f_equal. lia.
Qed.

End ScanProps.

(* ================================================================== *)
(** ** Claims on the on-disk format and on the bitmap count *)

(** C6. The four fixed on-disk records have their declared sizes
    (superblock 128, inode 64, directory entry 64, timestamps 32 bytes), the
    layout check of disk.h passes for them at build time, and the check lets
    the build through for no other combination of sizes: any mismatch is a
    build error. *)
Theorem ondisk_sizes_asserted_at_build :
  struct_sizeof numbfs_super_block = 128 /\
  struct_sizeof numbfs_inode = 64 /\
  struct_sizeof numbfs_dirent = 64 /\
  struct_sizeof numbfs_timestamps = 32 /\
  numbfs_check_ondisk = BuildOk /\
  (forall super inode dirent timestamps : Z,
      check_ondisk super inode dirent timestamps = BuildOk <->
      (super = 128 /\ inode = 64 /\ dirent = 64 /\ timestamps = 32)) /\
  (forall super inode dirent timestamps : Z,
      (super, inode, dirent, timestamps) <> (128, 64, 64, 32) ->
      check_ondisk super inode dirent timestamps = BuildError).
Proof.
  assert (Hiff : forall a b c d : Z,
             check_ondisk a b c d = BuildOk <->
             (a = 128 /\ b = 64 /\ c = 64 /\ d = 32)).
  { intros a b c d. unfold check_ondisk, NUMBFS_BUILD_BUG_ON. split.
    - destruct (a =? 128) eqn:Ha; cbn [negb]; [|discriminate].
      destruct (b =? 64) eqn:Hb; cbn [negb]; [|discriminate].
      destruct (c =? 64) eqn:Hc; cbn [negb]; [|discriminate].
      destruct (d =? 32) eqn:Hd; cbn [negb]; [|discriminate].
      intros _. repeat split; now apply Z.eqb_eq.
    - intros (-> & -> & -> & ->). reflexivity. }
  do 5 (split; [reflexivity|]).
  split; [exact Hiff|].
  intros a b c d Hne.
  destruct (check_ondisk a b c d) eqn:Hchk; [|reflexivity].
  apply Hiff in Hchk. destruct Hchk as (-> & -> & -> & ->). now elim Hne.
Qed.

(** C4. Whatever the distribution of the set bits over bytes and blocks,
    the bitmap audit counts them exactly: [count_bit] returns the population
    count of its byte, [numbfs_fsck_used] the number of set bits of a block,
    and the zone loop of [numbfs_fsck], run over blocks [lo .. hi-1] of a
    device that holds them, ends with the number [k] of set bits of the zone
    in [cnt] (the counters are C ints: [k] is taken within their range). *)
Theorem bitmap_audit_counts_set_bits :
  forall (E : Collaborators),
    0 < BYTES_PER_BLOCK <= INT_MAX ->
    (forall b : Z, count_bit (to_u8 b) = set_bits [b]) /\
    (forall buf : list Z,
        Z.of_nat (List.length buf) = BYTES_PER_BLOCK ->
        set_bits buf <= INT_MAX ->
        numbfs_fsck_used buf = set_bits buf) /\
    (forall (w : world) (lo hi k : Z),
        0 <= lo <= hi ->
        hi * BYTES_PER_BLOCK <= Z.of_nat (List.length (w_dev w)) ->
        set_bits (zone_bytes BYTES_PER_BLOCK (w_dev w) lo hi) = k ->
        k <= INT_MAX ->
        bitmap_scan lo hi w = (Ret (Some k), w)).
Proof.
  intros E Hb. split; [exact count_bit_popcount|].
  split; [exact numbfs_fsck_used_set_bits|].
  intros w lo hi k Hlh Hlen Hk Hmax. unfold bitmap_scan.
  assert (Hhi : hi = lo + Z.of_nat (Z.to_nat (hi - lo))) by lia.
  rewrite Hhi in Hk, Hlen.
  rewrite bitmap_loop_counts; rewrite ?Hk; try lia.
  reflexivity.
Qed.

(* ================================================================== *)
(** ** Extended attributes: the two padded fields *)

Lemma store_app (a : list Z) (x v : Z) (t : list Z) :
  store (a ++ x :: t) (List.length a) v = a ++ v :: t.
Proof. induction a as [|h a IH]; simpl; [reflexivity|]. now rewrite IH. Qed.

Lemma pad_loop (len : Z) (n : nat) :
  forall (j : nat) (a : list Z) (r : nat),
    Z.of_nat (List.length a) = Z.of_nat j + len ->
    for_range n (Z.of_nat j) (fun j f => store f (Z.to_nat (j + len)) 32)
              (a ++ repeat 0 (n + r))
    = a ++ repeat 32 n ++ repeat 0 r.
Proof.
  induction n as [|n IH]; intros j a r Ha; cbn [for_range].
  - reflexivity.
  - replace (Z.to_nat (Z.of_nat j + len)) with (List.length a) by lia.
    cbn [Nat.add repeat]. rewrite store_app.
    replace (Z.of_nat j + 1) with (Z.of_nat (S j)) by lia.
    change (a ++ 32 :: repeat 0 (n + r)) with (a ++ [32] ++ repeat 0 (n + r)).
    rewrite app_assoc, IH.
    + rewrite <- app_assoc. reflexivity.
    + rewrite length_app. cbn [List.length]. lia.
Qed.

Lemma xattr_padded_shape (max len : Z) (src : list Z) :
  0 <= len < max -> max <= INT_MAX ->
  xattr_padded max len src
  = Some (firstn (Z.to_nat len) src
          ++ repeat 32 (Z.to_nat (max - len - 1)) ++ [0]).
Proof.
  intros Hlen Hmax. unfold xattr_padded, for_lt, zeroed.
  rewrite wrap_int_id by (unfold INT_MAX in *; lia).
  destruct (len <=? max) eqn:Hle; [|apply Z.leb_gt in Hle; lia].
  rewrite Z.sub_0_r.
  replace (Z.to_nat max)
    with (Z.to_nat len + (Z.to_nat (max - len - 1) + 1))%nat by lia.
  rewrite repeat_app.
  change 0 with (Z.of_nat 0) at 1.
  rewrite pad_loop by (rewrite repeat_length; lia).
  unfold memcpy. do 2 f_equal.
  rewrite skipn_app, repeat_length, Nat.sub_diag.
  rewrite skipn_all2 by (rewrite repeat_length; lia).
  reflexivity.
Qed.

Lemma c_string_terminated (l r : list Z) :
  Forall (fun b => b <> 0) l -> c_string (l ++ 0 :: r) = Some l.
Proof.
  induction 1 as [|b l Hb _ IH]; cbn [app c_string].
  - reflexivity.
  - destruct (b =? 0) eqn:Hz; [apply Z.eqb_eq in Hz; contradiction|].
    now rewrite IH.
Qed.

Lemma xattr_field_shape (max len : Z) (src : list Z) :
  0 <= len < max -> max <= INT_MAX ->
  Forall (fun b => b <> 0) (firstn (Z.to_nat len) src) ->
  xattr_field max len src
  = Some (firstn (Z.to_nat len) src ++ repeat 32 (Z.to_nat (max - len - 1))).
Proof.
  intros Hlen Hmax Hnz. unfold xattr_field.
  rewrite xattr_padded_shape by assumption.
  rewrite app_assoc. apply c_string_terminated.
  apply Forall_app. split; [exact Hnz|].
  apply Forall_forall. intros b Hb. apply repeat_spec in Hb. lia.
Qed.

(** C2, as the code has it.  For a valid slot whose name has at most 15 and
    whose value at most 31 bytes, none of them NUL, the name is printed
    left-aligned in a field of exactly 15 characters and the value in a field
    of exactly 31 characters, the rest of each field filled with spaces: the
    last byte of the 16-byte and of the 32-byte array is kept for the
    terminating NUL. *)
Theorem xattr_fields_padded_to_15_and_31 :
  forall (xe : xattr_entry) (w : world),
    e_valid xe <> 0 ->
    0 <= e_nlen xe <= 15 ->
    0 <= e_vlen xe <= 31 ->
    List.length (e_name xe) = 16%nat ->
    List.length (e_value xe) = 32%nat ->
    Forall (fun b => b <> 0) (firstn (Z.to_nat (e_nlen xe)) (e_name xe)) ->
    Forall (fun b => b <> 0) (firstn (Z.to_nat (e_vlen xe)) (e_value xe)) ->
    let name := firstn (Z.to_nat (e_nlen xe)) (e_name xe)
                ++ repeat 32 (Z.to_nat (15 - e_nlen xe)) in
    let value := firstn (Z.to_nat (e_vlen xe)) (e_value xe)
                 ++ repeat 32 (Z.to_nat (31 - e_vlen xe)) in
    List.length name = 15%nat /\
    List.length value = 31%nat /\
    dump_xattr_entry xe w
    = (Ret tt,
       add_out (Printf "        type: %02d, name: %s, value: %s\n"
                       [PInt (e_type xe); PStr name; PStr value]) w).
Proof.
  intros xe w Hvalid Hn Hv Hln Hlv Hnz Hvz name value.
  split; [|split].
  - unfold name. rewrite length_app, length_firstn, repeat_length. lia.
  - unfold value. rewrite length_app, length_firstn, repeat_length. lia.
  - unfold dump_xattr_entry.
    destruct (e_valid xe =? 0) eqn:Hz; [apply Z.eqb_eq in Hz; contradiction|].
    unfold NUMBFS_XATTR_MAXNAME, NUMBFS_XATTR_MAXVALUE.
    rewrite !xattr_field_shape by (assumption || unfold INT_MAX; lia).
    replace (16 - e_nlen xe - 1) with (15 - e_nlen xe) by lia.
    replace (32 - e_vlen xe - 1) with (31 - e_vlen xe) by lia.
    reflexivity.
Qed.

Lemma xattr_fields_padded_witness :
  List.length (Demo.bytes_of_string "user.x" ++ repeat 32 9) = 15%nat /\
  List.length (Demo.bytes_of_string "1" ++ repeat 32 30) = 31%nat /\
  dump_xattr_entry user_x_slot (Demo.world_of [])
  = (Ret tt,
     add_out (Printf "        type: %02d, name: %s, value: %s\n"
                [PInt 1;
                 PStr (Demo.bytes_of_string "user.x" ++ repeat 32 9);
                 PStr (Demo.bytes_of_string "1" ++ repeat 32 30)])
             (Demo.world_of [])).
Proof.
  apply (xattr_fields_padded_to_15_and_31 user_x_slot (Demo.world_of []));
    vm_compute; try (intros; discriminate); try lia; try reflexivity;
    repeat constructor; discriminate.
Defined.

(** C2 as stated fails: for the valid slot "user.x" = "1" the printed name
    has 15 characters, not 16, and the printed value 31, not 32. *)
Lemma xattr_name_field_not_16_wide :
  e_valid user_x_slot = 1 /\ e_nlen user_x_slot = 6 /\ e_vlen user_x_slot = 1 /\
  option_map (@List.length Z)
    (xattr_field NUMBFS_XATTR_MAXNAME (e_nlen user_x_slot) (e_name user_x_slot))
  = Some 15%nat /\
  option_map (@List.length Z)
    (xattr_field NUMBFS_XATTR_MAXVALUE (e_vlen user_x_slot) (e_value user_x_slot))
  = Some 31%nat.
Proof. vm_compute. repeat split; reflexivity. Qed.

(* ================================================================== *)
(** ** The directory walk *)

Lemma same_block_next (bpb j : Z) :
  0 < bpb -> bpb mod 64 = 0 -> 0 <= j ->
  (64 * (j + 1)) mod bpb <> 0 ->
  64 * (j + 1) / bpb = 64 * j / bpb.
Proof.
  intros Hb H64 Hj Hrem.
  pose proof (Z.div_mod bpb 64 ltac:(lia)) as Hc. rewrite H64 in Hc.
  set (c := bpb / 64) in *.
  pose proof (Z.div_mod (64 * (j + 1)) bpb ltac:(lia)) as Hq.
  pose proof (Z.mod_pos_bound (64 * (j + 1)) bpb Hb) as Hr.
  set (q := 64 * (j + 1) / bpb) in *. set (r := (64 * (j + 1)) mod bpb) in *.
  assert (Hr64 : r = 64 * (j + 1 - c * q)) by nia.
  apply (Z.div_unique (64 * j) bpb q (r - 64)); nia.
Qed.

Section WalkProps.

Context {E : Collaborators}.

Variable ni : numbfs_inode_info.
Variable nid : Z.
Variable blk : Z -> list Z.
Variable line : Z -> printf_call.
Variable device : list Z.

Hypothesis block_positive : 0 < BYTES_PER_BLOCK.
Hypothesis block_holds_entries : BYTES_PER_BLOCK mod 64 = 0.
Hypothesis size_fits : 0 <= ni_size ni <= INT_MAX - 63.
Hypothesis reads_succeed :
  forall b : Z,
    0 <= b -> b * BYTES_PER_BLOCK < ni_size ni ->
    numbfs_pread_inode ni (b * BYTES_PER_BLOCK) BYTES_PER_BLOCK device
    = ((0, blk b), device).
Hypothesis names_end :
  forall k : Z, 0 <= k -> 64 * k < ni_size ni ->
                entry_line BYTES_PER_BLOCK blk k = Some (line k).

(** Number of rounds of the loop: the least [n] with [64 * n >= size]. *)
Let rounds : nat := Z.to_nat ((ni_size ni + 63) / 64).

Lemma rounds_bounds :
  64 * (Z.of_nat rounds - 1) < ni_size ni <= 64 * Z.of_nat rounds.
Proof.
  unfold rounds.
  pose proof (Z.div_mod (ni_size ni + 63) 64 ltac:(lia)) as Hd.
  pose proof (Z.mod_pos_bound (ni_size ni + 63) 64 ltac:(lia)) as Hm.
  assert (0 <= (ni_size ni + 63) / 64) by (apply Z.div_pos; lia).
  rewrite Z2Nat.id by assumption. lia.
Qed.

Lemma dir_content_loop_done (fuel : nat) (i : Z) (buf : list Z) (w : world) :
  ni_size ni <= i ->
  dir_content_loop (S fuel) ni nid i buf w = (Ret 0, w).
Proof.
  intros Hi. cbn [dir_content_loop].
  destruct (i <? ni_size ni) eqn:Hlt; [apply Z.ltb_lt in Hlt; lia|].
  reflexivity.
Qed.

(** One round: the entry at offset [64 * j] is printed and the loop goes on
    at the next offset with the block that holds entry [j] in its buffer. *)
Lemma dir_content_loop_step (fuel : nat) (j : Z) (buf : list Z) (w : world) :
  w_dev w = device ->
  0 <= j -> 64 * j < ni_size ni ->
  ((64 * j) mod BYTES_PER_BLOCK <> 0 -> buf = blk (64 * j / BYTES_PER_BLOCK)) ->
  dir_content_loop (S fuel) ni nid (64 * j) buf w
  = dir_content_loop fuel ni nid (64 * (j + 1))
      (blk (64 * j / BYTES_PER_BLOCK)) (add_out (line j) w).
Proof.
  intros Hdev Hj Hlt Hbuf. cbn [dir_content_loop].
  destruct (64 * j <? ni_size ni) eqn:Hltb; [|apply Z.ltb_ge in Hltb; lia].
  cbn [negb]. rewrite Z.rem_mod_nonneg by lia.
  pose proof (Z.mod_pos_bound (64 * j) BYTES_PER_BLOCK block_positive) as Hmod.
  pose proof (names_end j Hj Hlt) as Hline. unfold entry_line in Hline.
  assert (Hnext : wrap_int (64 * j + DIRENT_SIZE) = 64 * (j + 1)).
  { change DIRENT_SIZE with 64. rewrite wrap_int_id; unfold INT_MAX in *; lia. }
  assert (Hnz : BYTES_PER_BLOCK <> 0) by lia.
  destruct ((64 * j) mod BYTES_PER_BLOCK =? 0) eqn:Hz.
  - apply Z.eqb_eq in Hz.
    assert (Hoff : 64 * j = (64 * j / BYTES_PER_BLOCK) * BYTES_PER_BLOCK).
    { pose proof (Z.div_mod (64 * j) BYTES_PER_BLOCK Hnz) as Hd.
      rewrite Hz, Z.add_0_r in Hd.
      rewrite (Z.mul_comm (_ / _) BYTES_PER_BLOCK). exact Hd. }
    assert (Hq : 0 <= 64 * j / BYTES_PER_BLOCK) by (apply Z.div_pos; lia).
    assert (Hread : numbfs_pread_inode ni (64 * j) BYTES_PER_BLOCK (w_dev w)
                    = ((0, blk (64 * j / BYTES_PER_BLOCK)), w_dev w)).
    { rewrite Hdev. rewrite Hoff at 1. apply reads_succeed; [lia|].
      rewrite <- Hoff. exact Hlt. }
    unfold bind at 1, on_dev at 1. cbv beta iota.
    rewrite Hread.
    cbn [fst snd]. change (0 =? 0) with true. cbn [negb].
    destruct (_ <? 0) eqn:Hneg; [apply Z.ltb_lt in Hneg; lia|].
    rewrite Hline. unfold bind at 1. rewrite Hnext.
    destruct w; reflexivity.
  - apply Z.eqb_neq in Hz. rewrite (Hbuf Hz).
    unfold bind at 1, ret at 1.
    cbn [fst snd]. change (0 =? 0) with true. cbn [negb].
    destruct (_ <? 0) eqn:Hneg; [apply Z.ltb_lt in Hneg; lia|].
    rewrite Hline. unfold bind at 1. rewrite Hnext. reflexivity.
Qed.

Lemma dir_content_loop_from (m : nat) :
  forall (j fuel : nat) (buf : list Z) (w : world),
    w_dev w = device ->
    (j + m = rounds)%nat ->
    (m < fuel)%nat ->
    ((64 * Z.of_nat j) mod BYTES_PER_BLOCK <> 0 ->
     buf = blk (64 * Z.of_nat j / BYTES_PER_BLOCK)) ->
    dir_content_loop fuel ni nid (64 * Z.of_nat j) buf w
    = (Ret 0, add_outs (map (fun k => line (Z.of_nat k)) (seq j m)) w).
Proof.
  pose proof rounds_bounds as Hrounds.
  induction m as [|m IH]; intros j fuel buf w Hdev Hjm Hfuel Hbuf;
    (destruct fuel as [|fuel]; [lia|]).
  - rewrite dir_content_loop_done by lia. reflexivity.
  - rewrite dir_content_loop_step by (assumption || lia).
    replace (Z.of_nat j + 1) with (Z.of_nat (S j)) by lia.
    rewrite IH; [reflexivity | exact Hdev | lia | lia |].
    intros Hne. f_equal. symmetry.
    replace (Z.of_nat (S j)) with (Z.of_nat j + 1) in * by lia.
    apply same_block_next; (assumption || lia).
Qed.

Lemma dir_content_loop_all (fuel : nat) (buf : list Z) (w : world) :
  w_dev w = device ->
  (rounds < fuel)%nat ->
  dir_content_loop fuel ni nid 0 buf w
  = (Ret 0, add_outs (map (fun k => line (Z.of_nat k)) (seq 0 rounds)) w).
Proof.
  intros Hdev Hfuel.
  apply (dir_content_loop_from rounds 0 fuel buf w); [exact Hdev | lia | exact Hfuel |].
  intros Hne. exfalso. apply Hne. reflexivity.
Qed.

End WalkProps.

Lemma dirent_name_window (buf : list Z) (off : Z) :
  0 <= off -> dirent_name buf off = dirent_name (skipn (Z.to_nat off) buf) 0.
Proof.
  intros Hoff. unfold dirent_name. rewrite skipn_skipn. do 2 f_equal. lia.
Qed.

Lemma dirent_line_window (buf : list Z) (off : Z) :
  0 <= off -> dirent_line buf off = dirent_line (skipn (Z.to_nat off) buf) 0.
Proof.
  intros Hoff. unfold dirent_line.
  rewrite (dirent_name_window buf off Hoff).
  unfold le_at, byte_at. rewrite skipn_skipn, !nth_skipn.
  replace (Z.to_nat (0 + 62) + Z.to_nat off)%nat with (Z.to_nat (off + 62)) by lia.
  replace (Z.to_nat off + Z.to_nat (0 + 1))%nat with (Z.to_nat (off + 1)) by lia.
  replace (Z.to_nat off + Z.to_nat 0)%nat with (Z.to_nat off) by lia.
  reflexivity.
Qed.

Lemma le_decode_encode_16 (z : Z) :
  0 <= z < 65536 -> le_decode (le_encode 2 z) = z.
Proof.
  intros Hz. cbn [le_encode le_decode].
  pose proof (Z.div_mod z 256 ltac:(lia)) as H1.
  pose proof (Z.mod_pos_bound z 256 ltac:(lia)) as H2.
  assert (0 <= z / 256 < 256)
    by (split; [apply Z.div_pos; lia | apply Z.div_lt_upper_bound; lia]).
  rewrite (Z.mod_small (z / 256) 256) by lia. lia.
Qed.

Lemma name_split (e : dirent) :
  dirent_ok e -> name_terminated e ->
  d_name e = dirent_name_of e ++ 0 :: skipn (S (Z.to_nat (d_name_len e))) (d_name e).
Proof.
  intros (Hlen & Hnl & _) (Hlt & Hnul & _). unfold dirent_name_of.
  symmetry. apply firstn_skipn_middle.
  rewrite <- Hnul. apply nth_error_nth'.
  unfold NUMBFS_MAX_PATH_LEN in *. lia.
Qed.

Lemma stored_ino (e : dirent) (rest : list Z) :
  dirent_ok e -> le_at (dirent_stored e ++ rest) 62 2 = d_ino e.
Proof.
  intros (Hlen & _ & Hino). unfold le_at, dirent_stored.
  change (Z.to_nat 62) with (60 + 2)%nat. rewrite <- skipn_skipn.
  rewrite <- !app_assoc.
  replace (skipn 2 ([d_name_len e; d_type e]
                    ++ d_name e ++ le_encode 2 (d_ino e) ++ rest))
    with (d_name e ++ le_encode 2 (d_ino e) ++ rest) by reflexivity.
  rewrite skipn_app, skipn_all2, Hlen, Nat.sub_diag by lia.
  replace (firstn 2 ([] ++ skipn 0 (le_encode 2 (d_ino e) ++ rest)))
    with (le_encode 2 (d_ino e)) by reflexivity.
  apply le_decode_encode_16, Hino.
Qed.

Lemma stored_name (e : dirent) (rest : list Z) :
  dirent_ok e -> name_terminated e ->
  dirent_name (dirent_stored e ++ rest) 0 = Some (dirent_name_of e).
Proof.
  intros Hok Hterm. unfold dirent_name, dirent_stored.
  rewrite <- !app_assoc.
  replace (skipn (Z.to_nat (0 + 2))
             ([d_name_len e; d_type e]
              ++ d_name e ++ le_encode 2 (d_ino e) ++ rest))
    with (d_name e ++ le_encode 2 (d_ino e) ++ rest) by reflexivity.
  rewrite (name_split e Hok Hterm) at 1.
  rewrite <- app_assoc. cbn [app].
  destruct Hterm as (_ & _ & Hnz).
  apply c_string_terminated, Hnz.
Qed.

Lemma dirent_line_of_stored (e : dirent) (rest : list Z) :
  dirent_ok e -> name_terminated e ->
  dirent_line (dirent_stored e ++ rest) 0 = Some (stored_line e).
Proof.
  intros Hok Hterm. unfold dirent_line.
  rewrite stored_name by assumption.
  change (0 + 62) with 62. rewrite stored_ino by assumption.
  reflexivity.
Qed.

Lemma dirent_line_stored (buf : list Z) (off : Z) (e : dirent) :
  0 <= off ->
  firstn 64 (skipn (Z.to_nat off) buf) = dirent_stored e ->
  dirent_ok e -> name_terminated e ->
  dirent_line buf off = Some (stored_line e).
Proof.
  intros Hoff Hwin Hok Hterm.
  rewrite dirent_line_window by exact Hoff.
  rewrite <- (firstn_skipn 64 (skipn (Z.to_nat off) buf)), Hwin.
  apply dirent_line_of_stored; assumption.
Qed.

Lemma map_nth_seq {A B : Type} (f : A -> B) (d : A) (l : list A) :
  map (fun k => f (nth k l d)) (seq 0 (List.length l)) = map f l.
Proof.
  induction l as [|x l IH]; [reflexivity|].
  cbn [List.length seq map nth]. f_equal.
  rewrite <- seq_shift, map_map. exact IH.
Qed.

Lemma add_outs_app (l1 l2 : list printf_call) (w : world) :
  add_outs (l1 ++ l2) w = add_outs l2 (add_outs l1 w).
Proof. unfold add_outs. apply fold_left_app. Qed.

Lemma w_out_add_outs (lines : list printf_call) :
  forall w : world, w_out (add_outs lines w) = w_out w ++ lines.
Proof.
  induction lines as [|l lines IH]; intros w; cbn [add_outs fold_left].
  - now rewrite app_nil_r.
  - change (fold_left (fun w' l0 => add_out l0 w') lines (add_out l w))
      with (add_outs lines (add_out l w)).
    rewrite IH. cbn [add_out w_out]. now rewrite <- app_assoc.
Qed.

Lemma frame_add_outs (lines : list printf_call) :
  forall w : world,
    w_dev (add_outs lines w) = w_dev w /\ w_err (add_outs lines w) = w_err w.
Proof.
  induction lines as [|l lines IH]; intros w; cbn [add_outs fold_left]; [auto|].
  change (fold_left (fun w' l0 => add_out l0 w') lines (add_out l w))
    with (add_outs lines (add_out l w)).
  destruct (IH (add_out l w)) as (Hd & He). rewrite Hd, He. auto.
Qed.

Lemma c_string_found (mem : list Z) :
  In 0 mem -> exists s, c_string mem = Some s.
Proof.
  induction mem as [|b mem IH]; intros Hin; [contradiction|].
  cbn [c_string]. destruct (b =? 0) eqn:Hz; [now exists []|].
  destruct Hin as [Hb | Hin]; [subst b; discriminate|].
  destruct (IH Hin) as (s & Hs). rewrite Hs. now exists (b :: s).
Qed.

Lemma nul_found (mem : list Z) :
  existsb (fun b => b =? 0) mem = true -> In 0 mem.
Proof.
  intros H. apply existsb_exists in H. destruct H as (b & Hin & Hb).
  apply Z.eqb_eq in Hb. now subst b.
Qed.

Lemma dirent_line_fields (e : dirent) (rest : list Z) :
  dirent_ok e ->
  dirent_line (dirent_stored e ++ rest) 0
  = option_map (printed_line e) (dirent_name (dirent_stored e ++ rest) 0).
Proof.
  intros Hok. unfold dirent_line.
  destruct (dirent_name (dirent_stored e ++ rest) 0) as [name|]; [|reflexivity].
  change (0 + 62) with 62. rewrite stored_ino by exact Hok. reflexivity.
Qed.

(** The line of a well-formed entry whose name field meets a NUL before the
    end of the buffer. *)
Lemma dirent_line_printed (buf : list Z) (off : Z) (e : dirent) :
  0 <= off ->
  firstn 64 (skipn (Z.to_nat off) buf) = dirent_stored e ->
  dirent_ok e ->
  In 0 (skipn (Z.to_nat (off + 2)) buf) ->
  exists name : list Z,
    dirent_name buf off = Some name /\
    dirent_line buf off = Some (printed_line e name) /\
    (name_terminated e -> name = dirent_name_of e).
Proof.
  intros Hoff Hwin Hok Hnul.
  destruct (c_string_found _ Hnul) as (name & Hname).
  change (c_string (skipn (Z.to_nat (off + 2)) buf)) with (dirent_name buf off)
    in Hname.
  exists name. split; [exact Hname|].
  rewrite dirent_name_window in Hname by exact Hoff.
  rewrite dirent_line_window by exact Hoff.
  rewrite <- (firstn_skipn 64 (skipn (Z.to_nat off) buf)), Hwin in Hname |- *.
  split.
  - rewrite dirent_line_fields by exact Hok. now rewrite Hname.
  - intros Hterm. rewrite stored_name in Hname by assumption. congruence.
Qed.

Lemma map_combine_seq {A B C : Type} (g : A -> B -> C) (d : A) (l : list A) :
  forall f : nat -> B,
    map (fun p => g (fst p) (snd p)) (combine l (map f (seq 0 (List.length l))))
    = map (fun k => g (nth k l d) (f k)) (seq 0 (List.length l)).
Proof.
  induction l as [|x l IH]; intros f; [reflexivity|].
  cbn [List.length seq map combine fst snd nth]. f_equal.
  rewrite <- seq_shift, !map_map. apply IH.
Qed.

(** C3, as the code has it.  For a directory inode of size [n * 64] whose
    data holds [n] well-formed entries, every read succeeding and a NUL byte
    standing somewhere between the first byte of each name field and the end
    of its block buffer (so that printing the name ends inside the buffer),
    the walk prints exactly [n] lines, in storage order, each with the stored
    inode number, the label of the stored type and the stored name length,
    whatever follows the name in its buffer; the name printed is the stored
    name whenever the name holds no NUL and is followed by a NUL inside its
    60-byte buffer. *)
Theorem dir_walk_yields_stored_entries :
  forall (E : Collaborators) (ni : numbfs_inode_info) (nid : Z)
         (blk : Z -> list Z) (es : list dirent)
         (fuel : nat) (buf : list Z) (w : world),
    0 < BYTES_PER_BLOCK ->
    BYTES_PER_BLOCK mod 64 = 0 ->
    ni_size ni = 64 * Z.of_nat (List.length es) ->
    ni_size ni <= INT_MAX - 63 ->
    (forall b : Z,
        0 <= b -> b * BYTES_PER_BLOCK < ni_size ni ->
        numbfs_pread_inode ni (b * BYTES_PER_BLOCK) BYTES_PER_BLOCK (w_dev w)
        = ((0, blk b), w_dev w)) ->
    (forall (k : nat) (e : dirent),
        nth_error es k = Some e ->
        firstn 64 (skipn (Z.to_nat ((64 * Z.of_nat k) mod BYTES_PER_BLOCK))
                         (blk (64 * Z.of_nat k / BYTES_PER_BLOCK)))
        = dirent_stored e /\
        dirent_ok e /\
        In 0 (skipn (Z.to_nat ((64 * Z.of_nat k) mod BYTES_PER_BLOCK + 2))
                    (blk (64 * Z.of_nat k / BYTES_PER_BLOCK)))) ->
    (List.length es < fuel)%nat ->
    exists names : list (list Z),
      List.length names = List.length es /\
      dir_content_loop fuel ni nid 0 buf w
      = (Ret 0,
         add_outs (map (fun p => printed_line (fst p) (snd p)) (combine es names))
                  w) /\
      (forall (k : nat) (e : dirent) (name : list Z),
          nth_error es k = Some e -> nth_error names k = Some name ->
          name_terminated e -> name = dirent_name_of e).
Proof.
  intros E ni nid blk es fuel buf w Hb H64 Hsize Hmax Hreads Hes Hfuel.
  set (d := mkDirent 0 0 [] 0).
  set (namef := fun k : nat =>
                  match dirent_name (blk (64 * Z.of_nat k / BYTES_PER_BLOCK))
                                    ((64 * Z.of_nat k) mod BYTES_PER_BLOCK) with
                  | Some name => name
                  | None => []
                  end).
  set (line := fun k : Z => printed_line (nth (Z.to_nat k) es d) (namef (Z.to_nat k))).
  assert (Hrounds : Z.to_nat ((ni_size ni + 63) / 64) = List.length es).
  { rewrite Hsize.
    replace (64 * Z.of_nat (List.length es) + 63)
      with (63 + Z.of_nat (List.length es) * 64) by lia.
    rewrite Z.div_add by lia. change (63 / 64) with 0. lia. }
  assert (Hentry : forall k : nat,
             (k < List.length es)%nat ->
             exists name : list Z,
               namef k = name /\
               dirent_line (blk (64 * Z.of_nat k / BYTES_PER_BLOCK))
                           ((64 * Z.of_nat k) mod BYTES_PER_BLOCK)
               = Some (printed_line (nth k es d) name) /\
               (name_terminated (nth k es d) -> name = dirent_name_of (nth k es d))).
  { intros k Hk.
    destruct (Hes k (nth k es d)) as (Hwin & Hok & Hnul);
      [apply nth_error_nth'; exact Hk|].
    destruct (dirent_line_printed _ _ _
                (proj1 (Z.mod_pos_bound (64 * Z.of_nat k) _ Hb)) Hwin Hok Hnul)
      as (name & Hname & Hline & Hterm).
    exists name. unfold namef. rewrite Hname. auto. }
  exists (map namef (seq 0 (List.length es))).
  split; [now rewrite length_map, length_seq|]. split.
  - rewrite (@dir_content_loop_all E ni nid blk line (w_dev w) Hb H64
               ltac:(lia) Hreads).
    + rewrite Hrounds. do 2 f_equal.
      rewrite (map_combine_seq printed_line d es namef).
      apply map_ext. intros k. unfold line. now rewrite Nat2Z.id.
    + intros k Hk Hlt. unfold entry_line, line.
      destruct (Hentry (Z.to_nat k)) as (name & Hn & Hline & _); [lia|].
      rewrite Z2Nat.id in Hline by lia. rewrite Hn. exact Hline.
    + reflexivity.
    + lia.
  - intros k e name He Hname Hterm.
    assert (Hk : (k < List.length es)%nat)
      by (apply nth_error_Some; rewrite He; discriminate).
    rewrite nth_error_map, nth_error_seq in Hname.
    destruct (k <? List.length es)%nat eqn:Hlt;
      [|apply Nat.ltb_ge in Hlt; lia].
    cbn [option_map Nat.add] in Hname. injection Hname as <-.
    destruct (Hentry k Hk) as (name & Hn & _ & Hsame).
    rewrite (nth_error_nth es k d He) in Hsame.
    rewrite Hn. apply Hsame, Hterm.
Qed.

Lemma dir_walk_yields_stored_entries_witness :
  exists names : list (list Z),
    List.length names = List.length DemoNames.entries /\
    dir_content_loop (E := Demo.env) 4 DemoDir.root 0 0 []
                     (Demo.world_of DemoNames.img)
    = (Ret 0,
       add_outs (map (fun p => printed_line (fst p) (snd p))
                     (combine DemoNames.entries names))
                (Demo.world_of DemoNames.img)) /\
    (forall (k : nat) (e : dirent) (name : list Z),
        nth_error DemoNames.entries k = Some e -> nth_error names k = Some name ->
        name_terminated e -> name = dirent_name_of e).
Proof.
  apply (dir_walk_yields_stored_entries Demo.env DemoDir.root 0 DemoNames.blocks
           DemoNames.entries 4 [] (Demo.world_of DemoNames.img)).
  - reflexivity.
  - reflexivity.
  - reflexivity.
  - vm_compute. discriminate.
  - intros b Hb Hlt. change (b * 512 < 192) in Hlt.
    assert (b = 0) by lia. subst b. vm_compute. reflexivity.
  - intros k e Hk.
    destruct k as [|[|[|k]]]; cbn [nth_error DemoNames.entries] in Hk;
      [injection Hk as <- .. | destruct k; discriminate];
      (split; [vm_compute; reflexivity|]);
      (split; [vm_compute; repeat split; (discriminate || reflexivity)|]);
      apply nul_found; vm_compute; reflexivity.
  - vm_compute. lia.
Defined.

(** C3 as stated fails: a well-formed entry whose name buffer holds "ab"
    and whose [name_len] is 1 stores the name "a", and the walk prints "ab":
    the bytes that follow the name in its buffer are printed with it. *)
Lemma dir_walk_prints_past_name_len :
  dirent_ok short_len_entry /\
  dirent_name_of short_len_entry = [97] /\
  dir_content_loop (E := Demo.env) 3 DemoDir.root_long 0 0 []
                   (Demo.world_of DemoNames.img_short)
  = (Ret 0,
     add_outs
       [Printf "       INODE: %05d, TYPE: %s, NAMELEN: %02d NAME: %s\n"
               [PInt 7; PLit "REGULAR"; PInt 1; PStr [97; 98]]]
       (Demo.world_of DemoNames.img_short)) /\
  dir_content_loop (E := Demo.env) 3 DemoDir.root_long 0 0 []
                   (Demo.world_of DemoNames.img_short)
  <> (Ret 0,
      add_outs [stored_line short_len_entry] (Demo.world_of DemoNames.img_short)).
Proof.
  split; [|split; [|split]].
  - vm_compute. repeat split; (discriminate || reflexivity).
  - reflexivity.
  - vm_compute. reflexivity.
  - intros H. apply (f_equal (fun r => w_out (snd r))) in H.
    vm_compute in H. discriminate H.
Qed.

(** A name that fills the 60-byte buffer leaves no NUL inside it: the entry
    is printed with the low byte of its inode number appended to the name
    (61 bytes instead of the stored 60). *)
Lemma dir_walk_full_name_overruns :
  dirent_ok DemoDir.long_entry /\
  dirent_name_of DemoDir.long_entry = repeat 97 60 /\
  dir_content_loop (E := Demo.env) 3 DemoDir.root_long 0 0 []
                   (Demo.world_of DemoDir.img_long)
  = (Ret 0,
     add_outs
       [Printf "       INODE: %05d, TYPE: %s, NAMELEN: %02d NAME: %s\n"
               [PInt 1; PLit "REGULAR"; PInt 60; PStr (repeat 97 60 ++ [1])]]
       (Demo.world_of DemoDir.img_long)).
Proof.
  split; [|split].
  - vm_compute. repeat split; (discriminate || reflexivity).
  - reflexivity.
  - vm_compute. reflexivity.
Qed.

(** C5. For a directory inode whose size is not a multiple of 64 (reads
    succeeding and every window holding a NUL after the start of its name
    field, so that the name can be printed), the walk prints a line for each
    of the [ceil(size / 64)] windows, the last one starting before [size] and
    reaching past it, and then stops: [n = ceil(size / 64)] is the first
    round count at which the offset [64 * n] is no longer below [size]. *)
Theorem dir_walk_emits_partial_tail :
  forall (E : Collaborators) (ni : numbfs_inode_info) (nid : Z)
         (blk : Z -> list Z) (fuel : nat) (buf : list Z) (w : world),
    0 < BYTES_PER_BLOCK ->
    BYTES_PER_BLOCK mod 64 = 0 ->
    0 <= ni_size ni <= INT_MAX - 63 ->
    ni_size ni mod 64 <> 0 ->
    (forall b : Z,
        0 <= b -> b * BYTES_PER_BLOCK < ni_size ni ->
        numbfs_pread_inode ni (b * BYTES_PER_BLOCK) BYTES_PER_BLOCK (w_dev w)
        = ((0, blk b), w_dev w)) ->
    (forall k : Z, 0 <= k -> 64 * k < ni_size ni ->
                   entry_line BYTES_PER_BLOCK blk k <> None) ->
    (Z.to_nat (ni_size ni / 64 + 1) < fuel)%nat ->
    exists lines : list printf_call,
      dir_content_loop fuel ni nid 0 buf w = (Ret 0, add_outs lines w) /\
      Z.of_nat (List.length lines) = ni_size ni / 64 + 1 /\
      ni_size ni / 64 + 1 = (ni_size ni + 63) / 64 /\
      (forall k : nat,
          (k < List.length lines)%nat ->
          entry_line BYTES_PER_BLOCK blk (Z.of_nat k) = nth_error lines k) /\
      64 * (ni_size ni / 64) < ni_size ni < 64 * (ni_size ni / 64 + 1).
Proof.
  intros E ni nid blk fuel buf w Hb H64 Hsize Hpart Hreads Hnames Hfuel.
  set (d := Printf "" []).
  set (line := fun k : Z =>
                 match entry_line BYTES_PER_BLOCK blk k with
                 | Some l => l
                 | None => d
                 end).
  pose proof (Z.div_mod (ni_size ni) 64 ltac:(lia)) as Hdm.
  pose proof (Z.mod_pos_bound (ni_size ni) 64 ltac:(lia)) as Hmb.
  assert (Hq : 0 <= ni_size ni / 64) by (apply Z.div_pos; lia).
  assert (Hceil : (ni_size ni + 63) / 64 = ni_size ni / 64 + 1).
  { symmetry.
    apply (Z.div_unique (ni_size ni + 63) 64 (ni_size ni / 64 + 1)
                        (ni_size ni mod 64 - 1)); lia. }
  exists (map (fun k => line (Z.of_nat k))
              (seq 0 (Z.to_nat (ni_size ni / 64 + 1)))).
  split; [|split; [|split; [|split]]].
  - rewrite (@dir_content_loop_all E ni nid blk line (w_dev w) Hb H64 Hsize Hreads).
    + now rewrite Hceil.
    + intros k Hk Hlt. unfold line.
      destruct (entry_line BYTES_PER_BLOCK blk k) eqn:Hl; [reflexivity|].
      exfalso. now apply (Hnames k Hk Hlt).
    + reflexivity.
    + rewrite Hceil. exact Hfuel.
  - rewrite length_map, length_seq. lia.
  - now rewrite Hceil.
  - intros k Hk. rewrite length_map, length_seq in Hk.
    rewrite nth_error_map, nth_error_seq.
    destruct (Nat.ltb_spec k (Z.to_nat (ni_size ni / 64 + 1))) as [_|Hge]; [|lia].
    cbn [option_map Nat.add]. unfold line.
    destruct (entry_line BYTES_PER_BLOCK blk (Z.of_nat k)) eqn:Hl; [reflexivity|].
    exfalso. apply (Hnames (Z.of_nat k)); [lia | lia | exact Hl].
  - lia.
Qed.

Lemma dir_walk_emits_partial_tail_witness :
  exists lines : list printf_call,
    dir_content_loop (E := Demo.env) 5 DemoDir.root_200 0 0 []
                     (Demo.world_of DemoDir.img_200)
    = (Ret 0, add_outs lines (Demo.world_of DemoDir.img_200)) /\
    Z.of_nat (List.length lines) = 200 / 64 + 1 /\
    200 / 64 + 1 = (200 + 63) / 64 /\
    (forall k : nat,
        (k < List.length lines)%nat ->
        entry_line 512 DemoDir.blocks (Z.of_nat k) = nth_error lines k) /\
    64 * (200 / 64) < 200 < 64 * (200 / 64 + 1).
Proof.
  apply (dir_walk_emits_partial_tail Demo.env DemoDir.root_200 0 DemoDir.blocks
           5 [] (Demo.world_of DemoDir.img_200)).
  - reflexivity.
  - reflexivity.
  - vm_compute. split; discriminate.
  - vm_compute. discriminate.
  - intros b Hb Hlt. change (b * 512 < 200) in Hlt.
    assert (b = 0) by lia. subst b. vm_compute. reflexivity.
  - intros k Hk Hlt. change (64 * k < 200) in Hlt.
    assert (Hcases : k = 0 \/ k = 1 \/ k = 2 \/ k = 3) by lia.
    destruct Hcases as [-> | [-> | [-> | ->]]]; vm_compute; discriminate.
  - vm_compute. lia.
Defined.

Lemma c_string_prefix (l r : list Z) :
  Forall (fun b => b <> 0) l ->
  c_string (l ++ r) = option_map (app l) (c_string r).
Proof.
  induction 1 as [|b l Hb _ IH]; cbn [app c_string].
  - destruct (c_string r); reflexivity.
  - destruct (b =? 0) eqn:Hz; [apply Z.eqb_eq in Hz; contradiction|].
    rewrite IH. destruct (c_string r); reflexivity.
Qed.

Lemma dirent_name_of_window (buf : list Z) (off : Z) (e : dirent) (rest : list Z) :
  0 <= off ->
  skipn (Z.to_nat off) buf = dirent_stored e ++ rest ->
  dirent_name buf off = c_string (d_name e ++ le_encode 2 (d_ino e) ++ rest).
Proof.
  intros Hoff Hwin. rewrite dirent_name_window by exact Hoff.
  rewrite Hwin. unfold dirent_name, dirent_stored.
  rewrite <- !app_assoc. reflexivity.
Qed.

(** C10. The name printed for a directory entry is not cut at [name_len]:
    the line carries what [%s] reads from the name buffer, which is the
    bytes of the 60-byte buffer before its first NUL, whatever [name_len]
    says; when the byte at index [name_len] is not NUL (and none before it
    is), whatever is printed is longer than [name_len] and starts with the
    first [name_len + 1] bytes of the buffer. *)
Theorem dirent_name_not_cut_at_name_len :
  forall (buf : list Z) (off : Z) (e : dirent) (rest : list Z),
    0 <= off ->
    skipn (Z.to_nat off) buf = dirent_stored e ++ rest ->
    List.length (d_name e) = 60%nat ->
    dirent_line buf off
    = option_map
        (fun s => Printf "       INODE: %05d, TYPE: %s, NAMELEN: %02d NAME: %s\n"
                    [PInt (le_at buf (off + 62) 2);
                     PLit (numbfs_dir_type (byte_at buf (off + 1)));
                     PInt (d_name_len e); PStr s])
        (dirent_name buf off) /\
    (forall p : nat,
        (p < 60)%nat ->
        nth p (d_name e) 0 = 0 ->
        Forall (fun b => b <> 0) (firstn p (d_name e)) ->
        dirent_name buf off = Some (firstn p (d_name e))) /\
    (forall s : list Z,
        0 <= d_name_len e < NUMBFS_MAX_PATH_LEN ->
        Forall (fun b => b <> 0) (firstn (S (Z.to_nat (d_name_len e))) (d_name e)) ->
        dirent_name buf off = Some s ->
        (Z.to_nat (d_name_len e) < List.length s)%nat /\
        firstn (S (Z.to_nat (d_name_len e))) s
        = firstn (S (Z.to_nat (d_name_len e))) (d_name e)).
Proof.
  intros buf off e rest Hoff Hwin Hlen.
  pose proof (dirent_name_of_window buf off e rest Hoff Hwin) as Hname.
  split; [|split].
  - unfold dirent_line.
    assert (Hnl : byte_at buf off = d_name_len e).
    { unfold byte_at.
      replace (Z.to_nat off) with (Z.to_nat off + 0)%nat by lia.
      rewrite <- nth_skipn, Hwin. reflexivity. }
    rewrite Hnl. destruct (dirent_name buf off); reflexivity.
  - intros p Hp Hnul Hnz. rewrite Hname.
    assert (Hsplit : d_name e = firstn p (d_name e) ++ 0 :: skipn (S p) (d_name e)).
    { symmetry. apply firstn_skipn_middle.
      rewrite <- Hnul. apply nth_error_nth'. lia. }
    rewrite Hsplit at 1.
    rewrite <- app_assoc. cbn [app]. apply c_string_terminated, Hnz.
  - intros s Hnl Hnz Hs. unfold NUMBFS_MAX_PATH_LEN in Hnl.
    rewrite Hname in Hs.
    remember (S (Z.to_nat (d_name_len e))) as m eqn:Hm.
    rewrite <- (firstn_skipn m (d_name e)) in Hs at 1.
    rewrite <- app_assoc, c_string_prefix in Hs by exact Hnz.
    destruct (c_string _) as [tail|] in Hs; [|discriminate].
    cbn [option_map] in Hs. injection Hs as <-.
    assert (Hl : List.length (firstn m (d_name e)) = m)
      by (rewrite length_firstn; lia).
    split.
    + rewrite length_app, Hl. lia.
    + rewrite firstn_app, Hl, Nat.sub_diag, firstn_O, app_nil_r.
      rewrite firstn_firstn, Nat.min_id. reflexivity.
Qed.

Lemma dirent_name_not_cut_witness :
  dirent_line (dirent_stored short_len_entry) 0
  = option_map
      (fun s => Printf "       INODE: %05d, TYPE: %s, NAMELEN: %02d NAME: %s\n"
                  [PInt (le_at (dirent_stored short_len_entry) (0 + 62) 2);
                   PLit (numbfs_dir_type (byte_at (dirent_stored short_len_entry) (0 + 1)));
                   PInt 1; PStr s])
      (dirent_name (dirent_stored short_len_entry) 0) /\
  dirent_name (dirent_stored short_len_entry) 0 = Some (Demo.bytes_of_string "ab") /\
  (1 < List.length (Demo.bytes_of_string "ab"))%nat /\
  firstn 2 (Demo.bytes_of_string "ab") = firstn 2 (d_name short_len_entry).
Proof.
  destruct (dirent_name_not_cut_at_name_len
              (dirent_stored short_len_entry) 0 short_len_entry [])
    as (Hline & Hfirst & Hbeyond).
  - lia.
  - vm_compute. reflexivity.
  - reflexivity.
  - split; [exact Hline|].
    assert (Hname : dirent_name (dirent_stored short_len_entry) 0
                    = Some (Demo.bytes_of_string "ab")).
    { apply (Hfirst 2%nat).
      - lia.
      - reflexivity.
      - vm_compute. repeat constructor; discriminate. }
    split; [exact Hname|].
    apply (Hbeyond (Demo.bytes_of_string "ab")).
    + vm_compute. split; [discriminate | reflexivity].
    + vm_compute. repeat constructor; discriminate.
    + exact Hname.
Defined.

(* ================================================================== *)
(** ** The inode report and the driver *)

Section RunProps.

Context {E : Collaborators}.

Lemma scan_gives_set_bits (device : list Z) (lo hi : Z) :
  0 < BYTES_PER_BLOCK <= INT_MAX ->
  0 <= lo <= hi ->
  hi * BYTES_PER_BLOCK <= Z.of_nat (List.length device) ->
  set_bits (zone_bytes BYTES_PER_BLOCK device lo hi) <= INT_MAX ->
  scan_gives device lo hi (set_bits (zone_bytes BYTES_PER_BLOCK device lo hi)).
Proof.
  intros Hb Hlh Hlen Hmax w Hw. subst device. unfold bitmap_scan.
  remember (Z.to_nat (hi - lo)) as n eqn:Hn.
  assert (Hhi : hi = lo + Z.of_nat n) by lia.
  clear Hn. subst hi.
  rewrite bitmap_loop_counts by lia.
  reflexivity.
Qed.

Lemma print_superblock_lines (sbi : numbfs_superblock_info) (w : world) :
  print_superblock sbi w = (Ret tt, add_outs (superblock_lines sbi) w).
Proof. reflexivity. Qed.

Lemma fsck_inodes_consistent (sbi : numbfs_superblock_info) (w : world) (cnt : Z) :
  scan_gives (w_dev w) (ibitmap_start sbi) (inode_start sbi) cnt ->
  cnt = wrap_int (total_inodes sbi - free_inodes sbi) ->
  fsck_inodes sbi w = (Ret 0, add_out (inodes_usage_line sbi cnt) w).
Proof.
  intros Hscan Hcnt. unfold fsck_inodes, bind at 1.
  rewrite (Hscan w eq_refl). rewrite <- Hcnt, Z.eqb_refl. reflexivity.
Qed.

Lemma fsck_inodes_mismatch (sbi : numbfs_superblock_info) (w : world) (cnt : Z) :
  scan_gives (w_dev w) (ibitmap_start sbi) (inode_start sbi) cnt ->
  cnt <> wrap_int (total_inodes sbi - free_inodes sbi) ->
  fsck_inodes sbi w = (Stop Aborted, w).
Proof.
  intros Hscan Hcnt. unfold fsck_inodes, bind at 1.
  rewrite (Hscan w eq_refl).
  apply Z.eqb_neq in Hcnt. rewrite Hcnt. reflexivity.
Qed.

Lemma fsck_blocks_consistent (sbi : numbfs_superblock_info) (w : world) (cnt : Z) :
  scan_gives (w_dev w) (bbitmap_start sbi) (data_start sbi) cnt ->
  cnt = wrap_int (data_blocks sbi - free_blocks sbi) ->
  fsck_blocks sbi w = (Ret 0, add_out (blocks_usage_line sbi cnt) w).
Proof.
  intros Hscan Hcnt. unfold fsck_blocks, bind at 1.
  rewrite (Hscan w eq_refl). rewrite <- Hcnt, Z.eqb_refl. reflexivity.
Qed.

Lemma fsck_blocks_mismatch (sbi : numbfs_superblock_info) (w : world) (cnt : Z) :
  scan_gives (w_dev w) (bbitmap_start sbi) (data_start sbi) cnt ->
  cnt <> wrap_int (data_blocks sbi - free_blocks sbi) ->
  fsck_blocks sbi w = (Stop Aborted, w).
Proof.
  intros Hscan Hcnt. unfold fsck_blocks, bind at 1.
  rewrite (Hscan w eq_refl).
  apply Z.eqb_neq in Hcnt. rewrite Hcnt. reflexivity.
Qed.

(** The option loop leaves the world alone when it runs to its end. *)
Lemma parse_opts_ret (opts : list getopt_result) :
  forall (cfg0 cfg : numbfs_fsck_cfg) (w w' : world),
    parse_opts opts cfg0 w = (Ret cfg, w') ->
    w' = w /\ dev cfg = dev cfg0 /\
    (nid cfg0 < 0 ->
     (forall s, In (OptNid s) opts -> wrap_int (atoi s) < 0) ->
     nid cfg < 0).
Proof.
  induction opts as [|o opts IH]; intros cfg0 cfg w w' Hp; cbn [parse_opts] in Hp.
  - injection Hp as <- <-. auto.
  - destruct o as [| | |optarg|text].
    + discriminate.
    + apply IH in Hp. cbn [nid dev] in Hp. destruct Hp as (-> & Hd & Hn).
      repeat split; auto. intros H0 Hall. apply Hn; auto.
      intros s Hs. apply Hall. now right.
    + apply IH in Hp. cbn [nid dev] in Hp. destruct Hp as (-> & Hd & Hn).
      repeat split; auto. intros H0 Hall. apply Hn; auto.
      intros s Hs. apply Hall. now right.
    + apply IH in Hp. cbn [nid dev] in Hp. destruct Hp as (-> & Hd & Hn).
      repeat split; auto. intros H0 Hall. apply Hn.
      * apply Hall. now left.
      * intros s Hs. apply Hall. now right.
    + discriminate.
Qed.

Lemma parse_args_ret (cl : cmdline) (cfg : numbfs_fsck_cfg) (w w' : world) :
  numbfs_fsck_parse_args cl init_cfg w = (Ret cfg, w') ->
  w' = w /\
  (exists more, cl_rest cl = dev cfg :: more) /\
  ((forall s, In (OptNid s) (cl_opts cl) -> wrap_int (atoi s) < 0) -> nid cfg < 0).
Proof.
  unfold numbfs_fsck_parse_args, bind at 1. intros Hp.
  destruct (parse_opts (cl_opts cl) init_cfg w) as [[cfg1|s] w1] eqn:Ho;
    [|discriminate].
  apply parse_opts_ret in Ho. destruct Ho as (-> & _ & Hn).
  destruct (cl_rest cl) as [|target more]; [discriminate|].
  destruct (w_strdup_ok w); [|discriminate].
  injection Hp as <- <-. cbn [nid dev].
  split; [reflexivity|]. split; [now exists more|].
  intros Hall. apply Hn; [reflexivity | exact Hall].
Qed.

End RunProps.

(** C8. Once the inode is resolved, a failing read of its attribute block
    makes [numbfs_fsck_show_inode] return that error with nothing added to
    standard output (only the message on standard error), whatever the
    inode's attribute count, zero included. *)
Theorem xattr_read_failure_suppresses_inode_report :
  forall (E : Collaborators) (fuel : nat) (sbi : numbfs_superblock_info)
         (nid : Z) (w : world) (ni : numbfs_inode_info) (err : Z)
         (buf d1 d2 : list Z),
    w_malloc_ok w = true ->
    numbfs_get_inode sbi nid (w_dev w) = ((0, ni), d1) ->
    numbfs_read_block sbi (numbfs_data_blk sbi (ni_xattr_start ni)) d1
    = ((err, buf), d2) ->
    err <> 0 ->
    numbfs_fsck_show_inode fuel sbi nid w
    = (Ret err,
       add_err (Printf "error: failed to read xattr block\n" []) (set_dev d2 w)) /\
    w_out (snd (numbfs_fsck_show_inode fuel sbi nid w)) = w_out w.
Proof.
  intros E fuel sbi nid w ni err buf d1 d2 Hm Hgi Hrb Herr.
  assert (Heq : numbfs_fsck_show_inode fuel sbi nid w
                = (Ret err,
                   add_err (Printf "error: failed to read xattr block\n" [])
                           (set_dev d2 w))).
  { unfold numbfs_fsck_show_inode. rewrite Hm. cbn [negb].
    unfold bind at 1, on_dev at 1. rewrite Hgi. cbn [fst snd].
    change (0 =? 0) with true. cbn [negb]. cbv zeta.
    unfold bind at 1, on_dev at 1. cbn [w_dev set_dev]. rewrite Hrb.
    cbn [fst snd]. apply Z.eqb_neq in Herr. rewrite Herr. cbn [negb].
    reflexivity. }
  split; [exact Heq|]. rewrite Heq. reflexivity.
Qed.

Section DriverProps.

Context {E : Collaborators}.

Lemma fsck_run_after_superblock (fuel : nat) (cfg : numbfs_fsck_cfg) (w : world)
      (sbi : numbfs_superblock_info) (d1 : list Z) :
  w_open w (dev cfg) = 0 ->
  numbfs_get_superblock 3 (w_dev w) = ((0, sbi), d1) ->
  fsck_run fuel cfg w
  = report_sections fuel sbi cfg (add_outs (superblock_lines sbi) (set_dev d1 w)).
Proof.
  intros Hopen Hsb. unfold fsck_run.
  unfold bind at 1, sys_open. rewrite Hopen. cbn [Z.eqb fst snd].
  change (Z.land O_RDWR O_TRUNC =? 0) with true. cbv iota.
  change (3 <? 0) with false. cbv iota.
  unfold bind at 1, on_dev at 1. rewrite Hsb. cbn [fst snd].
  change (0 =? 0) with true. cbn [negb].
  unfold bind at 1. rewrite print_superblock_lines. reflexivity.
Qed.

Lemma main_of_run (fuel : nat) (cl : cmdline) (cfg : numbfs_fsck_cfg) (w : world) :
  fst (numbfs_fsck_parse_args cl init_cfg w) = Ret cfg ->
  main fuel cl w
  = (err <- fsck_run fuel cfg ;;
     if negb (err =? 0) then
       eprintf "Error occured in fsck, err: %d\n" [PInt err] ;; halt (Exited 1)
     else ret 0) w.
Proof.
  intros Hp.
  destruct (numbfs_fsck_parse_args cl init_cfg w) as [o w'] eqn:Hpa.
  cbn [fst] in Hp. subst o.
  destruct (parse_args_ret cl cfg w w' Hpa) as (-> & _).
  unfold main, numbfs_fsck. unfold bind at 1 2. rewrite Hpa.
  reflexivity.
Qed.

Lemma fsck_nid_skipped (fuel : nat) (sbi : numbfs_superblock_info)
      (cfg : numbfs_fsck_cfg) (w : world) :
  nid cfg < 0 -> fsck_nid fuel sbi cfg w = (Ret 0, w).
Proof.
  intros Hn. unfold fsck_nid.
  destruct (0 <=? nid cfg) eqn:H0; [apply Z.leb_le in H0; lia|].
  reflexivity.
Qed.

End DriverProps.

(** C9. When the option loop runs to its end and every [--nid] argument
    (if any) parses to a negative value, the run resolves no inode and prints
    nothing for one: with the device opened, the superblock read and each
    requested bitmap check passing, [main] returns 0 and standard output
    holds the superblock summary and the requested usage lines only. *)
Theorem negative_nid_skips_inode_detail :
  forall (E : Collaborators) (fuel : nat) (cl : cmdline) (cfg : numbfs_fsck_cfg)
         (w : world) (sbi : numbfs_superblock_info) (d1 : list Z) (ci cb : Z),
    fst (numbfs_fsck_parse_args cl init_cfg w) = Ret cfg ->
    (forall s, In (OptNid s) (cl_opts cl) -> wrap_int (atoi s) < 0) ->
    w_open w (dev cfg) = 0 ->
    numbfs_get_superblock 3 (w_dev w) = ((0, sbi), d1) ->
    (show_inodes cfg = true ->
     scan_gives d1 (ibitmap_start sbi) (inode_start sbi) ci /\
     ci = wrap_int (total_inodes sbi - free_inodes sbi)) ->
    (show_blocks cfg = true ->
     scan_gives d1 (bbitmap_start sbi) (data_start sbi) cb /\
     cb = wrap_int (data_blocks sbi - free_blocks sbi)) ->
    nid cfg < 0 /\
    main fuel cl w
    = (Ret 0,
       add_outs (superblock_lines sbi
                 ++ (if show_inodes cfg then [inodes_usage_line sbi ci] else [])
                 ++ (if show_blocks cfg then [blocks_usage_line sbi cb] else []))
                (set_dev d1 w)).
Proof.
  intros E fuel cl cfg w sbi d1 ci cb Hp Hneg Hopen Hsb Hi Hb.
  assert (Hnid : nid cfg < 0).
  { destruct (numbfs_fsck_parse_args cl init_cfg w) as [o w'] eqn:Hpa.
    cbn [fst] in Hp. subst o.
    destruct (parse_args_ret cl cfg w w' Hpa) as (_ & _ & Hn). now apply Hn. }
  split; [exact Hnid|].
  rewrite (main_of_run fuel cl cfg w Hp).
  unfold bind at 1.
  rewrite (fsck_run_after_superblock fuel cfg w sbi d1 Hopen Hsb).
  rewrite !add_outs_app.
  set (w1 := add_outs (superblock_lines sbi) (set_dev d1 w)).
  assert (Hw1 : w_dev w1 = d1)
    by (unfold w1; rewrite (proj1 (frame_add_outs _ _)); reflexivity).
  unfold report_sections. unfold bind at 1.
  destruct (show_inodes cfg) eqn:Hsi.
  - destruct (Hi eq_refl) as (Hscan & Hci).
    rewrite (fsck_inodes_consistent sbi w1 ci) by (rewrite ?Hw1; assumption).
    change (negb (0 =? 0)) with false. cbv iota. unfold bind at 1.
    destruct (show_blocks cfg) eqn:Hsbk.
    + destruct (Hb eq_refl) as (Hscanb & Hcb).
      rewrite (fsck_blocks_consistent sbi _ cb) by assumption.
      change (negb (0 =? 0)) with false. cbv iota. unfold bind at 1.
      rewrite fsck_nid_skipped by exact Hnid. reflexivity.
    + unfold ret at 1. change (negb (0 =? 0)) with false. cbv iota.
      unfold bind at 1. rewrite fsck_nid_skipped by exact Hnid. reflexivity.
  - unfold ret at 1. change (negb (0 =? 0)) with false. cbv iota.
    unfold bind at 1.
    destruct (show_blocks cfg) eqn:Hsbk.
    + destruct (Hb eq_refl) as (Hscanb & Hcb).
      rewrite (fsck_blocks_consistent sbi w1 cb) by (rewrite ?Hw1; assumption).
      change (negb (0 =? 0)) with false. cbv iota. unfold bind at 1.
      rewrite fsck_nid_skipped by exact Hnid. reflexivity.
    + unfold ret at 1. change (negb (0 =? 0)) with false. cbv iota.
      unfold bind at 1. rewrite fsck_nid_skipped by exact Hnid. reflexivity.
Qed.

(** C1, as the code has it.  Each requested bitmap audit compares the count
    of set bits with [total - free] of the superblock through [BUG_ON]; when
    they differ the process is halted at that check: standard output ends
    with what was printed before the check, and neither the block usage
    section (for a mismatch in the inode zone) nor the inode detail section
    runs. *)
Theorem bitmap_mismatch_halts_run :
  forall (E : Collaborators) (fuel : nat) (cl : cmdline) (cfg : numbfs_fsck_cfg)
         (w : world) (sbi : numbfs_superblock_info) (d1 : list Z),
    fst (numbfs_fsck_parse_args cl init_cfg w) = Ret cfg ->
    w_open w (dev cfg) = 0 ->
    numbfs_get_superblock 3 (w_dev w) = ((0, sbi), d1) ->
    (forall ci : Z,
        show_inodes cfg = true ->
        scan_gives d1 (ibitmap_start sbi) (inode_start sbi) ci ->
        ci <> wrap_int (total_inodes sbi - free_inodes sbi) ->
        main fuel cl w
        = (Stop Aborted, add_outs (superblock_lines sbi) (set_dev d1 w))) /\
    (forall ci cb : Z,
        (show_inodes cfg = true ->
         scan_gives d1 (ibitmap_start sbi) (inode_start sbi) ci /\
         ci = wrap_int (total_inodes sbi - free_inodes sbi)) ->
        show_blocks cfg = true ->
        scan_gives d1 (bbitmap_start sbi) (data_start sbi) cb ->
        cb <> wrap_int (data_blocks sbi - free_blocks sbi) ->
        main fuel cl w
        = (Stop Aborted,
           add_outs (superblock_lines sbi
                     ++ (if show_inodes cfg then [inodes_usage_line sbi ci] else []))
                    (set_dev d1 w))).
Proof.
  intros E fuel cl cfg w sbi d1 Hp Hopen Hsb.
  assert (Hmain : main fuel cl w
                  = (err <- report_sections fuel sbi cfg ;;
                     if negb (err =? 0) then
                       eprintf "Error occured in fsck, err: %d\n" [PInt err] ;;
                       halt (Exited 1)
                     else ret 0)
                      (add_outs (superblock_lines sbi) (set_dev d1 w))).
  { rewrite (main_of_run fuel cl cfg w Hp). unfold bind at 1.
    rewrite (fsck_run_after_superblock fuel cfg w sbi d1 Hopen Hsb).
    reflexivity. }
  set (w1 := add_outs (superblock_lines sbi) (set_dev d1 w)) in *.
  assert (Hw1 : w_dev w1 = d1)
    by (unfold w1; rewrite (proj1 (frame_add_outs _ _)); reflexivity).
  split.
  - intros ci Hsi Hscan Hne. rewrite Hmain.
    unfold bind at 1, report_sections, bind at 1. rewrite Hsi.
    rewrite (fsck_inodes_mismatch sbi w1 ci) by (rewrite ?Hw1; assumption).
    reflexivity.
  - intros ci cb Hi Hsbk Hscanb Hne. rewrite Hmain, add_outs_app. fold w1.
    unfold bind at 1, report_sections, bind at 1. rewrite Hsbk.
    destruct (show_inodes cfg) eqn:Hsi.
    + destruct (Hi eq_refl) as (Hscan & Hci).
      rewrite (fsck_inodes_consistent sbi w1 ci) by (rewrite ?Hw1; assumption).
      change (negb (0 =? 0)) with false. cbv iota. unfold bind at 1.
      rewrite (fsck_blocks_mismatch sbi _ cb) by assumption.
      reflexivity.
    + unfold ret at 1. change (negb (0 =? 0)) with false. cbv iota.
      unfold bind at 1.
      rewrite (fsck_blocks_mismatch sbi w1 cb) by (rewrite ?Hw1; assumption).
      reflexivity.
Qed.

(* ================================================================== *)
(** ** The device is only read *)

Lemma keeps_ret {A : Type} (a : A) : keeps_dev (ret a).
Proof. intros w. reflexivity. Qed.

Lemma keeps_halt {A : Type} (s : stop) : keeps_dev (@halt A s).
Proof. intros w. reflexivity. Qed.

Lemma keeps_bind {A B : Type} (m : M A) (k : A -> M B) :
  keeps_dev m -> (forall a, keeps_dev (k a)) -> keeps_dev (bind m k).
Proof.
  intros Hm Hk w. unfold bind. specialize (Hm w).
  destruct (m w) as [[a|s] w1]; cbn [snd] in *.
  - rewrite Hk. exact Hm.
  - exact Hm.
Qed.

Lemma keeps_printf (fmt : string) (args : list parg) : keeps_dev (printf fmt args).
Proof. intros w. reflexivity. Qed.

Lemma keeps_eprintf (fmt : string) (args : list parg) : keeps_dev (eprintf fmt args).
Proof. intros w. reflexivity. Qed.

Lemma keeps_printf_str (fmt : string) (before : list parg) (mem : list Z)
      (after : list parg) :
  keeps_dev (printf_str fmt before mem after).
Proof.
  unfold printf_str. destruct (c_string mem);
    [apply keeps_printf | apply keeps_halt].
Qed.

Lemma keeps_BUG_ON (cond : bool) : keeps_dev (BUG_ON cond).
Proof. destruct cond; [apply keeps_halt | apply keeps_ret]. Qed.

Lemma keeps_on_dev {A : Type} (f : list Z -> A * list Z) :
  (forall d, snd (f d) = d) -> keeps_dev (on_dev f).
Proof. intros Hf w. unfold on_dev. cbn [snd set_dev w_dev]. apply Hf. Qed.

Lemma keeps_sys_pread (count off : Z) : keeps_dev (sys_pread count off).
Proof. intros w. reflexivity. Qed.

Lemma keeps_sys_close : keeps_dev sys_close.
Proof. apply keeps_ret. Qed.

(** [open] with [O_RDWR] alone does not touch the contents. *)
Lemma keeps_sys_open_rdwr (path : string) : keeps_dev (sys_open path O_RDWR).
Proof.
  intros w. unfold sys_open.
  change (Z.land O_RDWR O_TRUNC =? 0) with true.
  destruct (w_open w path =? 0); reflexivity.
Qed.

Lemma keeps_for_range_M (body : Z -> M unit) (n : nat) :
  (forall i, keeps_dev (body i)) -> forall i, keeps_dev (for_range_M n i body).
Proof.
  intros Hbody. induction n as [|n IH]; intros i; cbn [for_range_M].
  - apply keeps_ret.
  - apply keeps_bind; [apply Hbody | intros _; apply IH].
Qed.

Lemma keeps_time_to_date {E : Collaborators} (time : Z) :
  keeps_dev (numbfs_time_to_date time).
Proof.
  unfold numbfs_time_to_date. destruct (localtime time);
    [apply keeps_ret | apply keeps_halt].
Qed.

Create HintDb keeps.
#[local] Hint Resolve keeps_ret keeps_halt keeps_printf keeps_eprintf
  keeps_printf_str keeps_BUG_ON keeps_sys_pread keeps_sys_close
  keeps_sys_open_rdwr keeps_time_to_date : keeps.

(** Splits binds and case distinctions, closing the leaves with [keeps]. *)
Ltac keeps_step :=
  match goal with
  | |- keeps_dev (bind _ _) => apply keeps_bind; [|intros ?]
  | |- keeps_dev (if ?c then _ else _) => destruct c
  | |- keeps_dev (match ?x with _ => _ end) => destruct x
  | |- keeps_dev _ => solve [auto with keeps]
  end.

Section ReadOnly.

Context {E : Collaborators}.

Hypothesis superblock_reads :
  forall fd d, snd (numbfs_get_superblock fd d) = d.
Hypothesis inode_reads :
  forall sbi nid d, snd (numbfs_get_inode sbi nid d) = d.
Hypothesis block_reads :
  forall sbi blkaddr d, snd (numbfs_read_block sbi blkaddr d) = d.
Hypothesis inode_data_reads :
  forall ni off len d, snd (numbfs_pread_inode ni off len d) = d.

Lemma keeps_help : keeps_dev numbfs_fsck_help.
Proof. apply keeps_printf. Qed.

Lemma keeps_parse_opts (opts : list getopt_result) :
  forall cfg, keeps_dev (parse_opts opts cfg).
Proof.
  pose proof keeps_help.
  induction opts as [|o opts IH]; intros cfg; cbn [parse_opts].
  - apply keeps_ret.
  - destruct o; try apply IH; repeat keeps_step; assumption.
Qed.

Lemma keeps_parse_args (cl : cmdline) (cfg : numbfs_fsck_cfg) :
  keeps_dev (numbfs_fsck_parse_args cl cfg).
Proof.
  unfold numbfs_fsck_parse_args.
  apply keeps_bind; [apply keeps_parse_opts|]. intros cfg1.
  destruct (cl_rest cl) as [|target more]; [repeat keeps_step|].
  intros w. destruct (w_strdup_ok w); reflexivity.
Qed.

Lemma keeps_dump_xattr_entry (xe : xattr_entry) : keeps_dev (dump_xattr_entry xe).
Proof. unfold dump_xattr_entry. repeat keeps_step. Qed.

Lemma keeps_dump_xattrs (ni : numbfs_inode_info) : keeps_dev (numbfs_dump_xattrs ni).
Proof.
  unfold numbfs_dump_xattrs.
  destruct (ni_xattr_count ni =? 0); [apply keeps_ret|].
  apply keeps_bind; [apply keeps_on_dev, block_reads|]. intros r.
  destruct (negb (fst r =? 0)); [apply keeps_eprintf|].
  repeat (apply keeps_bind; [|intros ?]); auto with keeps.
  apply keeps_for_range_M. intros i. apply keeps_dump_xattr_entry.
Qed.

Lemma keeps_dir_content_loop (ni : numbfs_inode_info) (nid : Z) (fuel : nat) :
  forall i buf, keeps_dev (dir_content_loop fuel ni nid i buf).
Proof.
  induction fuel as [|fuel IH]; intros i buf; cbn [dir_content_loop].
  - apply keeps_halt.
  - destruct (negb (i <? ni_size ni)); [apply keeps_ret|].
    apply keeps_bind.
    + destruct (Z.rem i BYTES_PER_BLOCK =? 0);
        [apply keeps_on_dev, inode_data_reads | apply keeps_ret].
    + intros r. destruct (negb (fst r =? 0)); [repeat keeps_step|].
      destruct (Z.rem i BYTES_PER_BLOCK <? 0); [apply keeps_halt|].
      destruct (dirent_line (snd r) (Z.rem i BYTES_PER_BLOCK));
        [|apply keeps_halt].
      apply keeps_bind; [intros w; reflexivity | intros _; apply IH].
Qed.

Lemma keeps_show_inode (fuel : nat) (sbi : numbfs_superblock_info) (nid : Z) :
  keeps_dev (numbfs_fsck_show_inode fuel sbi nid).
Proof.
  intros w. unfold numbfs_fsck_show_inode.
  destruct (negb (w_malloc_ok w)); [reflexivity|].
  match goal with
  | |- w_dev (snd (?m w)) = w_dev w =>
      assert (Hm : keeps_dev m); [|exact (Hm w)]
  end.
  apply keeps_bind; [apply keeps_on_dev, inode_reads|]. intros gi.
  destruct (negb (fst gi =? 0)); [repeat keeps_step|].
  cbv beta.
  apply keeps_bind; [apply keeps_on_dev, block_reads|]. intros rb.
  destruct (negb (fst rb =? 0)); [repeat keeps_step|].
  cbv zeta.
  repeat (apply keeps_bind; [|intros ?]); auto with keeps.
  - destruct (S_ISDIR _); [|destruct (S_ISLNK _)]; apply keeps_printf.
  - apply keeps_dump_xattrs.
  - destruct (S_ISDIR _); [|apply keeps_ret].
    apply keeps_bind; [apply keeps_printf|]. intros _.
    apply keeps_dir_content_loop.
Qed.

Lemma keeps_bitmap_loop (n : nat) : forall i cnt, keeps_dev (bitmap_loop n i cnt).
Proof.
  induction n as [|n IH]; intros i cnt; cbn [bitmap_loop].
  - apply keeps_ret.
  - apply keeps_bind; [apply keeps_sys_pread|]. intros r.
    destruct (negb (wrap_int (fst r) =? BYTES_PER_BLOCK));
      [repeat keeps_step | apply IH].
Qed.

Lemma keeps_fsck_inodes (sbi : numbfs_superblock_info) : keeps_dev (fsck_inodes sbi).
Proof.
  unfold fsck_inodes, bitmap_scan.
  apply keeps_bind; [apply keeps_bitmap_loop|]. intros r.
  repeat keeps_step.
Qed.

Lemma keeps_fsck_blocks (sbi : numbfs_superblock_info) : keeps_dev (fsck_blocks sbi).
Proof.
  unfold fsck_blocks, bitmap_scan.
  apply keeps_bind; [apply keeps_bitmap_loop|]. intros r.
  repeat keeps_step.
Qed.

Lemma keeps_fsck_nid (fuel : nat) (sbi : numbfs_superblock_info)
      (cfg : numbfs_fsck_cfg) :
  keeps_dev (fsck_nid fuel sbi cfg).
Proof.
  unfold fsck_nid. destruct (0 <=? nid cfg); [|apply keeps_ret].
  apply keeps_bind; [apply keeps_show_inode|]. intros err.
  repeat keeps_step.
Qed.

Lemma keeps_fsck_exit (err : Z) : keeps_dev (fsck_exit err).
Proof. unfold fsck_exit. repeat keeps_step. Qed.

Lemma keeps_report_sections (fuel : nat) (sbi : numbfs_superblock_info)
      (cfg : numbfs_fsck_cfg) :
  keeps_dev (report_sections fuel sbi cfg).
Proof.
  pose proof keeps_fsck_exit. pose proof keeps_fsck_inodes.
  pose proof keeps_fsck_blocks. pose proof keeps_fsck_nid.
  unfold report_sections. repeat keeps_step; auto.
Qed.

Lemma keeps_fsck_run (fuel : nat) (cfg : numbfs_fsck_cfg) :
  keeps_dev (fsck_run fuel cfg).
Proof.
  pose proof keeps_fsck_exit.
  unfold fsck_run.
  apply keeps_bind; [apply keeps_sys_open_rdwr|]. intros o.
  destruct (fst o <? 0); [apply keeps_ret|].
  apply keeps_bind; [apply keeps_on_dev, superblock_reads|]. intros gs.
  destruct (negb (fst gs =? 0)); [repeat keeps_step; auto|].
  apply keeps_bind; [unfold print_superblock; repeat keeps_step|]. intros _.
  apply keeps_report_sections.
Qed.

Lemma keeps_main (fuel : nat) (cl : cmdline) : keeps_dev (main fuel cl).
Proof.
  unfold main, numbfs_fsck.
  apply keeps_bind.
  - apply keeps_bind; [apply keeps_parse_args | intros cfg; apply keeps_fsck_run].
  - intros err. repeat keeps_step.
Qed.

End ReadOnly.


(* ================================================================== *)
(** ** The theorems at work on the concrete image *)

Lemma demo_superblock_reads :
  forall fd d, snd (Demo.numbfs_get_superblock fd d) = d.
Proof.
  intros fd d. unfold Demo.numbfs_get_superblock.
  destruct (negb _); [reflexivity|]. destruct (negb _); reflexivity.
Qed.

Lemma demo_block_reads :
  forall sbi blkaddr d, snd (Demo.numbfs_read_block sbi blkaddr d) = d.
Proof.
  intros sbi blkaddr d. unfold Demo.numbfs_read_block.
  destruct (_ =? _); reflexivity.
Qed.

Lemma demo_inode_data_reads :
  forall ni off len d, snd (Demo.numbfs_pread_inode ni off len d) = d.
Proof.
  intros ni off len d. unfold Demo.numbfs_pread_inode.
  destruct (_ || _); [reflexivity | apply demo_block_reads].
Qed.

Lemma scan_on_device (E : Collaborators) (device : list Z) (lo hi cnt : Z) :
  (forall open sd ma out err,
      bitmap_scan lo hi (mkWorld device open sd ma out err)
      = (Ret (Some cnt), mkWorld device open sd ma out err)) ->
  scan_gives device lo hi cnt.
Proof. intros H [d open sd ma out err] Hd. cbn [w_dev] in Hd. subst d. apply H. Qed.

(** Closes a goal on closed terms by evaluation. *)
Ltac evaluated :=
  vm_compute; repeat split; solve [reflexivity | discriminate | lia].


Lemma bitmap_audit_counts_set_bits_witness :
  count_bit (to_u8 170) = set_bits [170] /\
  numbfs_fsck_used (E := Demo.env) (Demo.fit 512 [3; 0; 129]) = 4 /\
  bitmap_scan (E := Demo.env) 4 5 (Demo.world_of DemoDir.img)
  = (Ret (Some 2), Demo.world_of DemoDir.img).
Proof.
  destruct (bitmap_audit_counts_set_bits Demo.env) as (Hbyte & Hblock & Hzone).
  - evaluated.
  - split; [apply Hbyte|]. split.
    + rewrite Hblock; evaluated.
    + apply Hzone; evaluated.
Defined.

Lemma xattr_read_failure_witness :
  numbfs_fsck_show_inode (E := Demo.env) 5 DemoDir.sbi 0
                         (Demo.world_of DemoRun.img_noattr)
  = (Ret (- EIO),
     add_err (Printf "error: failed to read xattr block\n" [])
             (set_dev DemoRun.img_noattr (Demo.world_of DemoRun.img_noattr))) /\
  w_out (snd (numbfs_fsck_show_inode (E := Demo.env) 5 DemoDir.sbi 0
                                     (Demo.world_of DemoRun.img_noattr)))
  = w_out (Demo.world_of DemoRun.img_noattr).
Proof.
  apply (xattr_read_failure_suppresses_inode_report Demo.env 5 DemoDir.sbi 0
           (Demo.world_of DemoRun.img_noattr) DemoRun.inode_noattr (- EIO)
           (Demo.fit 512 []) DemoRun.img_noattr DemoRun.img_noattr).
  - reflexivity.
  - vm_compute. reflexivity.
  - vm_compute. reflexivity.
  - vm_compute. discriminate.
Defined.

Lemma negative_nid_witness :
  nid DemoRun.cfg_neg < 0 /\
  main (E := Demo.env) 5 DemoRun.cl_neg (Demo.world_of DemoDir.img)
  = (Ret 0,
     add_outs (superblock_lines DemoDir.sbi
               ++ [inodes_usage_line DemoDir.sbi 1]
               ++ [blocks_usage_line DemoDir.sbi 2])
              (set_dev DemoDir.img (Demo.world_of DemoDir.img))).
Proof.
  apply (negative_nid_skips_inode_detail Demo.env 5 DemoRun.cl_neg DemoRun.cfg_neg
           (Demo.world_of DemoDir.img) DemoDir.sbi DemoDir.img 1 2).
  - vm_compute. reflexivity.
  - intros s [Hs | [Hs | [Hs | []]]]; try discriminate.
    injection Hs as <-. vm_compute. reflexivity.
  - reflexivity.
  - vm_compute. reflexivity.
  - intros _. split; [|vm_compute; reflexivity].
    apply scan_on_device. intros. vm_compute. reflexivity.
  - intros _. split; [|vm_compute; reflexivity].
    apply scan_on_device. intros. vm_compute. reflexivity.
Defined.

Lemma bitmap_mismatch_halts_run_witness :
  main (E := Demo.env) 5 DemoRun.cl_all (Demo.world_of DemoRun.img_bad)
  = (Stop Aborted,
     add_outs (superblock_lines DemoRun.sbi_bad)
              (set_dev DemoRun.img_bad (Demo.world_of DemoRun.img_bad))).
Proof.
  destruct (bitmap_mismatch_halts_run Demo.env 5 DemoRun.cl_all DemoRun.cfg_all
              (Demo.world_of DemoRun.img_bad) DemoRun.sbi_bad DemoRun.img_bad)
    as (Hinodes & _).
  - vm_compute. reflexivity.
  - reflexivity.
  - vm_compute. reflexivity.
  - apply (Hinodes 1).
    + reflexivity.
    + apply scan_on_device. intros. vm_compute. reflexivity.
    + vm_compute. discriminate.
Defined.

(** C1 as stated fails: with all three sections requested on an image whose
    inode bitmap has one bit set while the superblock claims every inode
    free, the run is halted at the inode check.  The block bitmap of the same
    image is consistent, so the block usage section would have passed, and
    on the image with a matching superblock the same command line runs to
    its end; here neither the block usage nor the inode detail is printed. *)
Lemma bitmap_mismatch_stops_remaining_sections :
  main (E := Demo.env) 5 DemoRun.cl_all (Demo.world_of DemoRun.img_bad)
  = (Stop Aborted,
     add_outs (superblock_lines DemoRun.sbi_bad) (Demo.world_of DemoRun.img_bad)) /\
  fsck_blocks (E := Demo.env) DemoRun.sbi_bad (Demo.world_of DemoRun.img_bad)
  = (Ret 0,
     add_out (blocks_usage_line DemoRun.sbi_bad 2) (Demo.world_of DemoRun.img_bad)) /\
  fst (main (E := Demo.env) 5 DemoRun.cl_all (Demo.world_of DemoDir.img)) = Ret 0 /\
  List.length (w_out (snd (main (E := Demo.env) 5 DemoRun.cl_all
                                (Demo.world_of DemoDir.img)))) = 31%nat.
Proof. vm_compute. repeat split; reflexivity. Qed.

(* ================================================================== *)
(** ** Further properties: the command line *)

Section OptionProps.

Context {E : Collaborators}.

Lemma parse_opts_plain_app (pre : list getopt_result) :
  forall (tail : list getopt_result) (cfg : numbfs_fsck_cfg) (w : world),
    forallb opt_plain pre = true ->
    parse_opts (pre ++ tail) cfg w = parse_opts tail (cfg_after pre cfg) w.
Proof.
  induction pre as [|o pre IH]; intros tail cfg w Hplain.
  - cbn [app]. unfold cfg_after, wants_inodes, wants_blocks.
    cbn [existsb last_nid]. rewrite !orb_false_r. destruct cfg; reflexivity.
  - cbn [forallb] in Hplain. apply andb_prop in Hplain.
    destruct Hplain as (Ho & Hpre).
    destruct o as [| | |optarg|text]; try discriminate;
      cbn [app parse_opts]; rewrite IH by exact Hpre;
      unfold cfg_after, wants_inodes, wants_blocks;
      cbn [existsb last_nid show_inodes show_blocks nid dev];
      rewrite ?orb_true_r, ?orb_true_l, ?orb_false_l; reflexivity.
Qed.

End OptionProps.

(** X1. [--help] wins over everything after it: when only [-i], [-b] and
    [--nid] options precede it, the usage text is printed and the process
    exits with status 0, whatever options follow, whether or not a device is
    named, and without the device being opened. *)
Theorem help_exits_zero :
  forall (E : Collaborators) (fuel : nat) (pre post : list getopt_result)
         (rest : list string) (w : world),
    forallb opt_plain pre = true ->
    main fuel {| cl_opts := pre ++ OptHelp :: post; cl_rest := rest |} w
    = (Stop (Exited 0), add_out usage w).
Proof.
  intros E fuel pre post rest w Hplain.
  unfold main, numbfs_fsck, numbfs_fsck_parse_args. cbn [cl_opts cl_rest].
  unfold bind at 1 2 3. rewrite parse_opts_plain_app by exact Hplain.
  reflexivity.
Qed.

Lemma help_exits_zero_witness :
  main (E := Demo.env) 0
       {| cl_opts := [OptInodes; OptNid "3"; OptHelp; OptOther "-z"]; cl_rest := [] |}
       (Demo.world_of [])
  = (Stop (Exited 0), add_out usage (Demo.world_of [])).
Proof.
  apply (help_exits_zero Demo.env 0 [OptInodes; OptNid "3"] [OptOther "-z"] []
           (Demo.world_of [])).
  reflexivity.
Defined.

(** X2. An option that [getopt_long] does not know stops the run: when only
    [-i], [-b] and [--nid] options precede it, the message naming it goes to
    standard error, the usage text to standard output, and the process exits
    with status 1 without opening the device. *)
Theorem unknown_option_exits_one :
  forall (E : Collaborators) (fuel : nat) (pre post : list getopt_result)
         (text : string) (rest : list string) (w : world),
    forallb opt_plain pre = true ->
    main fuel {| cl_opts := pre ++ OptOther text :: post; cl_rest := rest |} w
    = (Stop (Exited 1),
       add_out usage (add_err (Printf "Unknown option: %s\n\n" [PLit text]) w)).
Proof.
  intros E fuel pre post text rest w Hplain.
  unfold main, numbfs_fsck, numbfs_fsck_parse_args. cbn [cl_opts cl_rest].
  unfold bind at 1 2 3. rewrite parse_opts_plain_app by exact Hplain.
  reflexivity.
Qed.

Lemma unknown_option_exits_one_witness :
  main (E := Demo.env) 0
       {| cl_opts := [OptBlocks; OptOther "-z"; OptHelp];
          cl_rest := [Demo.device_path] |}
       (Demo.world_of [])
  = (Stop (Exited 1),
     add_out usage
       (add_err (Printf "Unknown option: %s\n\n" [PLit "-z"]) (Demo.world_of []))).
Proof.
  apply (unknown_option_exits_one Demo.env 0 [OptBlocks] [OptHelp] "-z"
           [Demo.device_path] (Demo.world_of [])).
  reflexivity.
Defined.

(** X3. Without a device argument the run ends after the option loop: for
    [-i], [-b] and [--nid] options only and no positional argument, the
    process writes "missing block device!" to standard error and exits with
    status 1; nothing is printed on standard output. *)
Theorem missing_device_exits_one :
  forall (E : Collaborators) (fuel : nat) (opts : list getopt_result) (w : world),
    forallb opt_plain opts = true ->
    main fuel {| cl_opts := opts; cl_rest := [] |} w
    = (Stop (Exited 1), add_err (Printf "missing block device!\n" []) w).
Proof.
  intros E fuel opts w Hplain.
  unfold main, numbfs_fsck, numbfs_fsck_parse_args. cbn [cl_opts cl_rest].
  unfold bind at 1 2 3.
  rewrite <- (app_nil_r opts), parse_opts_plain_app by exact Hplain.
  reflexivity.
Qed.

Lemma missing_device_exits_one_witness :
  main (E := Demo.env) 0 {| cl_opts := [OptInodes; OptNid "0"]; cl_rest := [] |}
       (Demo.world_of [])
  = (Stop (Exited 1),
     add_err (Printf "missing block device!\n" []) (Demo.world_of [])).
Proof.
  apply (missing_device_exits_one Demo.env 0 [OptInodes; OptNid "0"]
           (Demo.world_of [])).
  reflexivity.
Defined.

(** X4. What the option loop computes: for [-i], [-b] and [--nid] options in
    any number and order followed by at least one positional argument, the
    configuration has [show_inodes] set iff [-i] occurs, [show_blocks] set
    iff [-b] occurs, [nid] equal to the value of the last [--nid] (or -1 when
    there is none) and [dev] equal to the first positional argument; further
    positional arguments are ignored and nothing is printed. *)
Theorem parse_args_result :
  forall (E : Collaborators) (opts : list getopt_result) (target : string)
         (more : list string) (w : world),
    forallb opt_plain opts = true ->
    w_strdup_ok w = true ->
    numbfs_fsck_parse_args {| cl_opts := opts; cl_rest := target :: more |} init_cfg w
    = (Ret (mkCfg (wants_inodes opts) (wants_blocks opts) (last_nid opts (-1)) target),
       w).
Proof.
  intros E opts target more w Hplain Hdup.
  unfold numbfs_fsck_parse_args. cbn [cl_opts cl_rest].
  unfold bind at 1.
  rewrite <- (app_nil_r opts), parse_opts_plain_app by exact Hplain.
  cbn [parse_opts]. unfold ret at 1. rewrite Hdup.
  rewrite app_nil_r. reflexivity.
Qed.

Lemma parse_args_result_witness :
  numbfs_fsck_parse_args (E := Demo.env)
    {| cl_opts := [OptNid "7"; OptBlocks; OptNid "2"; OptBlocks];
       cl_rest := ["a.img"; "b.img"]%string |}
    init_cfg (Demo.world_of [])
  = (Ret (mkCfg false true 2 "a.img"), Demo.world_of []).
Proof.
  apply (parse_args_result Demo.env [OptNid "7"; OptBlocks; OptNid "2"; OptBlocks]
           "a.img" ["b.img"%string] (Demo.world_of [])); reflexivity.
Defined.

(* ================================================================== *)
(** ** Further properties: failures before the report *)

(** X5. When [open] refuses the device with error number [e], the run
    prints nothing on standard output, reports [-e] on standard error and
    exits with status 1; no helper is called. *)
Theorem open_failure_exits_one :
  forall (E : Collaborators) (fuel : nat) (cl : cmdline) (cfg : numbfs_fsck_cfg)
         (w : world) (e : Z),
    fst (numbfs_fsck_parse_args cl init_cfg w) = Ret cfg ->
    w_open w (dev cfg) = e ->
    0 < e <= INT_MAX ->
    main fuel cl w
    = (Stop (Exited 1),
       add_err (Printf "Error occured in fsck, err: %d\n" [PInt (- e)]) w).
Proof.
  intros E fuel cl cfg w e Hp Hopen He.
  rewrite (main_of_run fuel cl cfg w Hp).
  unfold bind at 1, fsck_run, bind at 1, sys_open. rewrite Hopen.
  destruct (e =? 0) eqn:Hz; [apply Z.eqb_eq in Hz; lia|].
  cbn [fst snd]. change (-1 <? 0) with true. cbv iota.
  unfold ret at 1. rewrite wrap_int_id by (unfold INT_MAX in *; lia).
  destruct (- e =? 0) eqn:Hz'; [apply Z.eqb_eq in Hz'; lia|].
  reflexivity.
Qed.

Lemma open_failure_exits_one_witness :
  main (E := Demo.env) 0 {| cl_opts := [OptInodes]; cl_rest := ["nowhere"%string] |}
       (Demo.world_of [])
  = (Stop (Exited 1),
     add_err (Printf "Error occured in fsck, err: %d\n" [PInt (- ENOENT)])
             (Demo.world_of [])).
Proof.
  apply (open_failure_exits_one Demo.env 0
           {| cl_opts := [OptInodes]; cl_rest := ["nowhere"%string] |}
           (mkCfg true false (-1) "nowhere") (Demo.world_of []) ENOENT).
  - reflexivity.
  - reflexivity.
  - evaluated.
Defined.

(** X6. When the superblock cannot be loaded, the run prints nothing on
    standard output, not even the superblock summary: "failed to read
    superblock" and the error code go to standard error and the process
    exits with status 1, whatever report options were given. *)
Theorem superblock_failure_exits_one :
  forall (E : Collaborators) (fuel : nat) (cl : cmdline) (cfg : numbfs_fsck_cfg)
         (w : world) (err : Z) (sbi : numbfs_superblock_info) (d1 : list Z),
    fst (numbfs_fsck_parse_args cl init_cfg w) = Ret cfg ->
    w_open w (dev cfg) = 0 ->
    numbfs_get_superblock 3 (w_dev w) = ((err, sbi), d1) ->
    err <> 0 ->
    main fuel cl w
    = (Stop (Exited 1),
       add_err (Printf "Error occured in fsck, err: %d\n" [PInt err])
         (add_err (Printf "failed to read superblock\n" []) (set_dev d1 w))).
Proof.
  intros E fuel cl cfg w err sbi d1 Hp Hopen Hsb Herr.
  rewrite (main_of_run fuel cl cfg w Hp).
  unfold bind at 1, fsck_run, bind at 1, sys_open. rewrite Hopen.
  cbn [Z.eqb fst snd]. change (Z.land O_RDWR O_TRUNC =? 0) with true. cbv iota.
  change (3 <? 0) with false. cbv iota.
  unfold bind at 1, on_dev at 1. rewrite Hsb. cbn [fst snd].
  apply Z.eqb_neq in Herr. rewrite Herr. cbn [negb].
  unfold bind at 1, eprintf at 1, fsck_exit, bind at 1, sys_close, ret at 1 2.
  rewrite Herr. reflexivity.
Qed.

Lemma superblock_failure_exits_one_witness :
  main (E := Demo.env) 0 DemoRun.cl_all (Demo.world_of [1; 2; 3])
  = (Stop (Exited 1),
     add_err (Printf "Error occured in fsck, err: %d\n" [PInt (- EIO)])
       (add_err (Printf "failed to read superblock\n" [])
                (set_dev [1; 2; 3] (Demo.world_of [1; 2; 3])))).
Proof.
  apply (superblock_failure_exits_one Demo.env 0 DemoRun.cl_all DemoRun.cfg_all
           (Demo.world_of [1; 2; 3]) (- EIO) Demo.empty_sbi [1; 2; 3]).
  - reflexivity.
  - reflexivity.
  - reflexivity.
  - evaluated.
Defined.

(* ================================================================== *)
(** ** Further properties: the bitmap zones *)

Section ZoneFailure.

Context {E : Collaborators}.

Lemma pread_short_block (device : list Z) (j : Z) :
  0 < BYTES_PER_BLOCK <= INT_MAX -> 0 <= j ->
  j * BYTES_PER_BLOCK <= Z.of_nat (List.length device) ->
  Z.of_nat (List.length device) < (j + 1) * BYTES_PER_BLOCK ->
  (wrap_int (fst (pread_result device BYTES_PER_BLOCK (j * BYTES_PER_BLOCK)))
   =? BYTES_PER_BLOCK) = false.
Proof.
  intros Hb Hj Hlo Hhi. unfold pread_result.
  destruct (j * BYTES_PER_BLOCK <? 0) eqn:Hneg; [apply Z.ltb_lt in Hneg; nia|].
  cbn [fst]. rewrite length_firstn, length_skipn.
  apply Z.eqb_neq. rewrite wrap_int_id; unfold INT_MAX in *; nia.
Qed.

Lemma bitmap_loop_fails (j : Z) (n : nat) :
  forall (i cnt : Z) (w : world),
    0 < BYTES_PER_BLOCK <= INT_MAX ->
    0 <= i <= j -> j < i + Z.of_nat n ->
    j * BYTES_PER_BLOCK <= Z.of_nat (List.length (w_dev w)) ->
    Z.of_nat (List.length (w_dev w)) < (j + 1) * BYTES_PER_BLOCK ->
    bitmap_loop n i cnt w
    = (Ret None, add_err (Printf "failed to read block@%d\n" [PInt j]) w).
Proof.
  induction n as [|n IH]; intros i cnt w Hb Hij Hjn Hlo Hhi; [lia|].
  cbn [bitmap_loop]. unfold bind at 1, sys_pread.
  destruct (Z.eq_dec i j) as [->|Hne].
  - rewrite pread_short_block by (assumption || lia). reflexivity.
  - rewrite pread_full_block by nia. cbn [fst snd].
    rewrite wrap_int_id by (unfold INT_MAX in *; lia).
    rewrite Z.eqb_refl. cbn [negb]. apply IH; (assumption || lia).
Qed.

End ZoneFailure.

(** X7. A bitmap zone that reaches past the end of the device is reported,
    not counted: when block [j] of the zone is the first one the device does
    not hold in full, the zone loop stops there with "failed to read
    block@j" on standard error, and the usage section returns [-EIO] without
    printing a usage line and without evaluating the consistency
    assertion. *)
Theorem zone_read_failure_returns_eio :
  forall (E : Collaborators) (sbi : numbfs_superblock_info) (w : world)
         (lo hi j : Z),
    0 < BYTES_PER_BLOCK <= INT_MAX ->
    0 <= lo <= j -> j < hi ->
    j * BYTES_PER_BLOCK <= Z.of_nat (List.length (w_dev w)) ->
    Z.of_nat (List.length (w_dev w)) < (j + 1) * BYTES_PER_BLOCK ->
    bitmap_scan lo hi w
    = (Ret None, add_err (Printf "failed to read block@%d\n" [PInt j]) w) /\
    (ibitmap_start sbi = lo -> inode_start sbi = hi ->
     fsck_inodes sbi w
     = (Ret (- EIO), add_err (Printf "failed to read block@%d\n" [PInt j]) w)) /\
    (bbitmap_start sbi = lo -> data_start sbi = hi ->
     fsck_blocks sbi w
     = (Ret (- EIO), add_err (Printf "failed to read block@%d\n" [PInt j]) w)).
Proof.
  intros E sbi w lo hi j Hb Hlo Hhi Hin Hout.
  assert (Hscan : bitmap_scan lo hi w
                  = (Ret None,
                     add_err (Printf "failed to read block@%d\n" [PInt j]) w)).
  { unfold bitmap_scan. apply bitmap_loop_fails; (assumption || lia). }
  split; [exact Hscan|]. split; intros <- <-.
  - unfold fsck_inodes, bind at 1. rewrite Hscan. reflexivity.
  - unfold fsck_blocks, bind at 1. rewrite Hscan. reflexivity.
Qed.

Lemma zone_read_failure_witness :
  bitmap_scan (E := Demo.env) 2 12 (Demo.world_of DemoDir.img)
  = (Ret None,
     add_err (Printf "failed to read block@%d\n" [PInt 9]) (Demo.world_of DemoDir.img)).
Proof.
  apply (zone_read_failure_returns_eio Demo.env DemoDir.sbi
           (Demo.world_of DemoDir.img) 2 12 9); evaluated.
Defined.

Lemma set_bits_le (l : list Z) : set_bits l <= 8 * Z.of_nat (List.length l).
Proof.
  induction l as [|b l IH]; [rewrite set_bits_nil; simpl; lia|].
  rewrite set_bits_cons. pose proof (set_bits_byte_le b).
  cbn [List.length]. lia.
Qed.

Lemma set_bits_byte_zero (b : Z) : set_bits [b] = 0 <-> b mod 256 = 0.
Proof.
  rewrite <- set_bits_to_u8. unfold to_u8.
  pose proof (Z.mod_pos_bound b 256 ltac:(lia)) as Hr.
  assert (Hall : forallb (fun v => Bool.eqb (set_bits [v] =? 0) (v =? 0)) all_bytes
                 = true) by (vm_compute; reflexivity).
  rewrite forallb_forall in Hall.
  specialize (Hall (b mod 256) (in_all_bytes _ Hr)).
  apply Bool.eqb_prop in Hall. rewrite <- !Z.eqb_eq, Hall. reflexivity.
Qed.

Lemma set_bits_byte_full (b : Z) : set_bits [b] = 8 <-> b mod 256 = 255.
Proof.
  rewrite <- set_bits_to_u8. unfold to_u8.
  pose proof (Z.mod_pos_bound b 256 ltac:(lia)) as Hr.
  assert (Hall : forallb (fun v => Bool.eqb (set_bits [v] =? 8) (v =? 255)) all_bytes
                 = true) by (vm_compute; reflexivity).
  rewrite forallb_forall in Hall.
  specialize (Hall (b mod 256) (in_all_bytes _ Hr)).
  apply Bool.eqb_prop in Hall. rewrite <- !Z.eqb_eq, Hall. reflexivity.
Qed.

Lemma set_bits_zero_iff (l : list Z) :
  set_bits l = 0 <-> Forall (fun b => b mod 256 = 0) l.
Proof.
  induction l as [|b l IH]; [split; [constructor | reflexivity]|].
  rewrite set_bits_cons.
  pose proof (set_bits_nonneg [b]). pose proof (set_bits_nonneg l).
  split.
  - intros Hz. constructor; [apply set_bits_byte_zero | apply IH]; lia.
  - intros Hall. inversion Hall as [|? ? Hb Hl]; subst.
    apply set_bits_byte_zero in Hb. apply IH in Hl. lia.
Qed.

Lemma set_bits_full_iff (l : list Z) :
  set_bits l = 8 * Z.of_nat (List.length l) <-> Forall (fun b => b mod 256 = 255) l.
Proof.
  induction l as [|b l IH]; [split; [constructor | reflexivity]|].
  rewrite set_bits_cons. cbn [List.length].
  pose proof (set_bits_byte_le b). pose proof (set_bits_le l).
  split.
  - intros Hz. constructor; [apply set_bits_byte_full | apply IH]; lia.
  - intros Hall. inversion Hall as [|? ? Hb Hl]; subst.
    apply set_bits_byte_full in Hb. apply IH in Hl. lia.
Qed.

(** X8. The count of one bitmap block lies between 0 and the number of bits
    of the block; it is 0 exactly when every byte of the block is zero and
    [8 * BYTES_PER_BLOCK] exactly when every byte is 0xFF. *)
Theorem block_count_bounds :
  forall (E : Collaborators) (buf : list Z),
    Z.of_nat (List.length buf) = BYTES_PER_BLOCK ->
    8 * BYTES_PER_BLOCK <= INT_MAX ->
    0 <= numbfs_fsck_used buf <= 8 * BYTES_PER_BLOCK /\
    (numbfs_fsck_used buf = 0 <-> Forall (fun b => b mod 256 = 0) buf) /\
    (numbfs_fsck_used buf = 8 * BYTES_PER_BLOCK <->
     Forall (fun b => b mod 256 = 255) buf).
Proof.
  intros E buf Hlen Hmax.
  pose proof (set_bits_le buf) as Hle. pose proof (set_bits_nonneg buf) as Hge.
  rewrite numbfs_fsck_used_set_bits by lia.
  split; [lia|]. split.
  - apply set_bits_zero_iff.
  - rewrite <- Hlen. apply set_bits_full_iff.
Qed.

Lemma block_count_bounds_witness :
  0 <= numbfs_fsck_used (E := Demo.env) (Demo.fit 512 [7]) <= 8 * 512 /\
  (numbfs_fsck_used (E := Demo.env) (Demo.fit 512 [7]) = 0 <->
   Forall (fun b => b mod 256 = 0) (Demo.fit 512 [7])) /\
  (numbfs_fsck_used (E := Demo.env) (Demo.fit 512 [7]) = 8 * 512 <->
   Forall (fun b => b mod 256 = 255) (Demo.fit 512 [7])).
Proof.
  apply (block_count_bounds Demo.env (Demo.fit 512 [7])); evaluated.
Defined.

(* ================================================================== *)
(** ** Further properties: records inside the block buffer *)

(** X9. Every attribute slot the slot loop visits lies inside the block:
    for a block of at least 32 bytes, slot [i] below
    [NUMBFS_XATTR_MAX_ENTRY] ends at or before the end of the buffer, so its
    name and value are read in full (16 and 32 bytes); and one more slot
    would not fit. *)
Theorem xattr_slots_inside_block :
  forall (E : Collaborators) (buf : list Z) (i : Z),
    32 <= BYTES_PER_BLOCK <= INT_MAX ->
    Z.of_nat (List.length buf) = BYTES_PER_BLOCK ->
    0 <= i < wrap_int NUMBFS_XATTR_MAX_ENTRY ->
    NUMBFS_XATTR_ENTRY_START + XATTR_ENTRY_SIZE * i + XATTR_ENTRY_SIZE
    <= BYTES_PER_BLOCK /\
    List.length (e_name (xattr_entry_at buf
                           (NUMBFS_XATTR_ENTRY_START + XATTR_ENTRY_SIZE * i)))
    = 16%nat /\
    List.length (e_value (xattr_entry_at buf
                            (NUMBFS_XATTR_ENTRY_START + XATTR_ENTRY_SIZE * i)))
    = 32%nat /\
    BYTES_PER_BLOCK
    < NUMBFS_XATTR_ENTRY_START
      + XATTR_ENTRY_SIZE * (wrap_int NUMBFS_XATTR_MAX_ENTRY + 1).
Proof.
  intros E buf i Hb Hlen Hi.
  unfold NUMBFS_XATTR_MAX_ENTRY in *.
  change (struct_sizeof numbfs_timestamps) with 32 in *.
  change NUMBFS_XATTR_ENTRY_START with 32. change XATTR_ENTRY_SIZE with 52 in *.
  pose proof (Z.div_mod (BYTES_PER_BLOCK - 32) 52 ltac:(lia)) as Hd.
  pose proof (Z.mod_pos_bound (BYTES_PER_BLOCK - 32) 52 ltac:(lia)) as Hm.
  assert (Hq : 0 <= (BYTES_PER_BLOCK - 32) / 52) by (apply Z.div_pos; lia).
  rewrite wrap_int_id in * by (unfold INT_MAX in *; lia).
  assert (Hfit : 32 + 52 * i + 52 <= BYTES_PER_BLOCK) by lia.
  split; [exact Hfit|].
  unfold xattr_entry_at, NUMBFS_XATTR_MAXNAME, NUMBFS_XATTR_MAXVALUE.
  cbn [e_name e_value].
  rewrite !length_firstn, !length_skipn.
  split; [lia|]. split; lia.
Qed.

Lemma xattr_slots_inside_block_witness :
  NUMBFS_XATTR_ENTRY_START + XATTR_ENTRY_SIZE * 8 + XATTR_ENTRY_SIZE <= 512 /\
  List.length (e_name (xattr_entry_at (Demo.fit 512 [])
                         (NUMBFS_XATTR_ENTRY_START + XATTR_ENTRY_SIZE * 8)))
  = 16%nat /\
  List.length (e_value (xattr_entry_at (Demo.fit 512 [])
                          (NUMBFS_XATTR_ENTRY_START + XATTR_ENTRY_SIZE * 8)))
  = 32%nat /\
  512 < NUMBFS_XATTR_ENTRY_START
        + XATTR_ENTRY_SIZE * (wrap_int (NUMBFS_XATTR_MAX_ENTRY (E := Demo.env)) + 1).
Proof.
  apply (xattr_slots_inside_block Demo.env (Demo.fit 512 []) 8); evaluated.
Defined.

(** X10. Every directory entry the walk looks at lies inside the block
    buffer: when the block size is a multiple of 64, the window of entry
    number [k] starts at a non-negative offset of the buffer and ends at or
    before its end, so the length, type and inode number fields and the
    start of the name are read from the buffer. *)
Theorem dirent_window_inside_block :
  forall (E : Collaborators) (buf : list Z) (k : Z),
    0 < BYTES_PER_BLOCK ->
    BYTES_PER_BLOCK mod 64 = 0 ->
    Z.of_nat (List.length buf) = BYTES_PER_BLOCK ->
    0 <= k ->
    0 <= Z.rem (64 * k) BYTES_PER_BLOCK /\
    Z.rem (64 * k) BYTES_PER_BLOCK + DIRENT_SIZE <= BYTES_PER_BLOCK /\
    List.length (firstn (Z.to_nat DIRENT_SIZE)
                   (skipn (Z.to_nat (Z.rem (64 * k) BYTES_PER_BLOCK)) buf))
    = 64%nat.
Proof.
  intros E buf k Hb H64 Hlen Hk.
  rewrite Z.rem_mod_nonneg by lia. change DIRENT_SIZE with 64.
  pose proof (Z.mod_pos_bound (64 * k) BYTES_PER_BLOCK Hb) as Hr.
  assert (Hnz : BYTES_PER_BLOCK <> 0) by lia.
  pose proof (Z.div_mod (64 * k) BYTES_PER_BLOCK Hnz) as Hq.
  pose proof (Z.div_mod BYTES_PER_BLOCK 64 ltac:(lia)) as Hc. rewrite H64 in Hc.
  set (c := BYTES_PER_BLOCK / 64) in *.
  set (q := 64 * k / BYTES_PER_BLOCK) in *.
  set (r := (64 * k) mod BYTES_PER_BLOCK) in *.
  assert (Hr64 : r = 64 * (k - c * q)) by nia.
  assert (Hfit : r + 64 <= BYTES_PER_BLOCK) by nia.
  split; [lia|]. split; [exact Hfit|].
  rewrite length_firstn, length_skipn. lia.
Qed.

Lemma dirent_window_inside_block_witness :
  0 <= Z.rem (64 * 7) 512 /\
  Z.rem (64 * 7) 512 + DIRENT_SIZE <= 512 /\
  List.length (firstn (Z.to_nat DIRENT_SIZE)
                 (skipn (Z.to_nat (Z.rem (64 * 7) 512)) (Demo.fit 512 [])))
  = 64%nat.
Proof.
  apply (dirent_window_inside_block Demo.env (Demo.fit 512 []) 7); evaluated.
Defined.

(* ================================================================== *)
(** ** Further properties: the attribute dump *)

Lemma dump_xattr_entry_line (xe : xattr_entry) (w : world) :
  (slot_valid xe = true -> slot_ok xe) ->
  dump_xattr_entry xe w
  = (Ret tt, add_outs (map slot_line (filter slot_valid [xe])) w).
Proof.
  intros Hok. unfold dump_xattr_entry, slot_valid in *. cbn [filter].
  destruct (e_valid xe =? 0); cbn [negb] in *; [reflexivity|].
  destruct (Hok eq_refl) as (Hn & Hv & Hnz & Hvz).
  unfold NUMBFS_XATTR_MAXNAME, NUMBFS_XATTR_MAXVALUE.
  rewrite !xattr_field_shape by (assumption || unfold INT_MAX; lia).
  replace (16 - e_nlen xe - 1) with (15 - e_nlen xe) by lia.
  replace (32 - e_vlen xe - 1) with (31 - e_vlen xe) by lia.
  reflexivity.
Qed.

Lemma dump_slots (buf : list Z) (n : nat) :
  forall (first : nat) (w : world),
    (forall xe, In xe (xattr_slots buf first n) -> slot_valid xe = true -> slot_ok xe) ->
    for_range_M n (Z.of_nat first)
      (fun i => dump_xattr_entry
                  (xattr_entry_at buf (NUMBFS_XATTR_ENTRY_START + XATTR_ENTRY_SIZE * i)))
      w
    = (Ret tt,
       add_outs (map slot_line (filter slot_valid (xattr_slots buf first n))) w).
Proof.
  induction n as [|n IH]; intros first w Hok; [reflexivity|].
  cbn [for_range_M]. unfold bind at 1.
  unfold xattr_slots in *. cbn [seq map] in *.
  rewrite dump_xattr_entry_line by (intros Hv; apply Hok; [now left | exact Hv]).
  replace (Z.of_nat first + 1) with (Z.of_nat (S first)) by lia.
  rewrite IH by (intros xe Hin; apply Hok; now right).
  rewrite <- add_outs_app, <- map_app, <- filter_app. reflexivity.
Qed.

(** X11. The attribute dump prints one line per valid slot, in slot order,
    between its two frame lines and the count header: with the attribute
    block read and every valid slot printable, the lines are those of the
    slots whose validity byte is non-zero, invalid slots leaving no trace;
    the count of the header is the inode's [xattr_count], which plays no part
    in choosing the lines. *)
Theorem xattr_dump_lists_valid_slots :
  forall (E : Collaborators) (ni : numbfs_inode_info) (w : world)
         (buf d1 : list Z),
    ni_xattr_count ni <> 0 ->
    numbfs_read_block (ni_sbi ni) (numbfs_data_blk (ni_sbi ni) (ni_xattr_start ni))
                      (w_dev w)
    = ((0, buf), d1) ->
    (forall xe,
        In xe (xattr_slots buf 0 (Z.to_nat (wrap_int NUMBFS_XATTR_MAX_ENTRY))) ->
        slot_valid xe = true -> slot_ok xe) ->
    numbfs_dump_xattrs ni w
    = (Ret tt,
       add_outs
         ([Printf "    -------\n" [];
           Printf "    xattrs (count: %d)\n" [PInt (ni_xattr_count ni)]]
          ++ map slot_line
               (filter slot_valid
                  (xattr_slots buf 0 (Z.to_nat (wrap_int NUMBFS_XATTR_MAX_ENTRY))))
          ++ [Printf "    -------\n" []])
         (set_dev d1 w)).
Proof.
  intros E ni w buf d1 Hcount Hread Hok.
  unfold numbfs_dump_xattrs.
  apply Z.eqb_neq in Hcount. rewrite Hcount.
  unfold bind at 1, on_dev at 1. rewrite Hread. cbn [fst snd].
  change (0 =? 0) with true. cbn [negb].
  unfold bind at 1, printf at 1. unfold bind at 1, printf at 1.
  unfold bind at 1. change 0 with (Z.of_nat 0) at 1.
  rewrite dump_slots by exact Hok.
  rewrite !add_outs_app. reflexivity.
Qed.

Lemma xattr_dump_lists_valid_slots_witness :
  numbfs_dump_xattrs (E := Demo.env) DemoDir.root (Demo.world_of DemoDir.img)
  = (Ret tt,
     add_outs
       ([Printf "    -------\n" [];
         Printf "    xattrs (count: %d)\n" [PInt 1]]
        ++ map slot_line
             (filter slot_valid
                (xattr_slots (Demo.fit 512 DemoDir.attr_block) 0
                   (Z.to_nat (wrap_int (NUMBFS_XATTR_MAX_ENTRY (E := Demo.env))))))
        ++ [Printf "    -------\n" []])
       (set_dev DemoDir.img (Demo.world_of DemoDir.img))).
Proof.
  apply (xattr_dump_lists_valid_slots Demo.env DemoDir.root
           (Demo.world_of DemoDir.img) (Demo.fit 512 DemoDir.attr_block) DemoDir.img).
  - evaluated.
  - vm_compute. reflexivity.
  - intros xe Hin Hvalid.
    change (Z.to_nat (wrap_int (NUMBFS_XATTR_MAX_ENTRY (E := Demo.env)))) with 9%nat in Hin.
    unfold xattr_slots in Hin. cbn [seq map] in Hin.
    repeat (destruct Hin as [<- | Hin];
            [first [ discriminate Hvalid
                   | vm_compute; repeat split;
                     first [discriminate | repeat constructor; discriminate] ] |]).
    destruct Hin.
Defined.

(* ================================================================== *)
(** ** Further properties: the inode report *)

Section ReportProps.

Context {E : Collaborators}.

Lemma time_to_date_ok (time : Z) (timeinfo : tm) (w : world) :
  localtime time = Some timeinfo ->
  numbfs_time_to_date time w = (Ret (date_buffer timeinfo), w).
Proof. intros Hl. unfold numbfs_time_to_date. rewrite Hl. reflexivity. Qed.

Lemma date_printed (t : tm) :
  date_fits t -> c_string (date_buffer t) = Some (strftime t).
Proof.
  intros (Hnz & Hlen). unfold date_buffer, zeroed.
  rewrite firstn_app, firstn_all2 by lia.
  replace (Z.to_nat BYTES_PER_BLOCK - List.length (strftime t))%nat
    with (S (Z.to_nat BYTES_PER_BLOCK - List.length (strftime t) - 1)) by lia.
  replace (Z.to_nat BYTES_PER_BLOCK) with (S (Z.to_nat BYTES_PER_BLOCK - 1)) at 2 by lia.
  cbn [repeat firstn]. apply c_string_terminated, Hnz.
Qed.

Lemma printf_date (fmt : string) (t : tm) (w : world) :
  date_fits t ->
  printf_str fmt [] (date_buffer t) [] w
  = (Ret tt, add_out (Printf fmt [PStr (strftime t)]) w).
Proof. intros Ht. unfold printf_str. rewrite date_printed by exact Ht. reflexivity. Qed.

End ReportProps.

(** X12. The layout of the inode report for an inode without attributes:
    once the inode is resolved and its attribute block read, and provided
    [localtime] breaks each of the three timestamps down (it returns no NULL
    pointer) to a date whose text fits the buffer,
    [numbfs_fsck_show_inode] prints the eleven header lines and an empty
    line; for a regular file or a symbolic link it then returns 0 without
    reading any of the inode's data, and for a directory it prints the
    "DIR CONTENT" heading and starts the walk at offset 0. *)
Theorem inode_report_without_attributes :
  forall (E : Collaborators) (fuel : nat) (sbi : numbfs_superblock_info)
         (nid : Z) (w : world) (ni : numbfs_inode_info) (buf d1 d2 : list Z)
         (atime mtime ctime : tm),
    w_malloc_ok w = true ->
    numbfs_get_inode sbi nid (w_dev w) = ((0, ni), d1) ->
    numbfs_read_block sbi (numbfs_data_blk sbi (ni_xattr_start ni)) d1
    = ((0, buf), d2) ->
    ni_xattr_count ni = 0 ->
    localtime (wrap_long (le_at buf 0 8)) = Some atime ->
    localtime (wrap_long (le_at buf 8 8)) = Some mtime ->
    localtime (wrap_long (le_at buf 16 8)) = Some ctime ->
    date_fits atime ->
    date_fits mtime ->
    date_fits ctime ->
    numbfs_fsck_show_inode fuel sbi nid w
    = (if S_ISDIR (ni_mode ni)
       then dir_content_loop fuel ni nid 0 (date_buffer ctime)
       else ret 0)
        (add_outs (inode_report_head nid ni atime mtime ctime ++ [Printf "\n" []]
                   ++ (if S_ISDIR (ni_mode ni)
                       then [Printf "    DIR CONTENT\n" []] else []))
                  (set_dev d2 w)).
Proof.
  intros E fuel sbi nid w ni buf d1 d2 atime mtime ctime
         Hm Hgi Hrb Hcount Hla Hlm Hlc Ha Hmt Hc.
  unfold numbfs_fsck_show_inode. rewrite Hm. cbn [negb].
  unfold bind at 1, on_dev at 1. rewrite Hgi. cbn [fst snd].
  change (0 =? 0) with true. cbn [negb]. cbv zeta.
  unfold bind at 1, on_dev at 1. cbn [w_dev set_dev]. rewrite Hrb.
  cbn [fst snd]. change (0 =? 0) with true. cbn [negb].
  unfold bind at 1, printf at 1. unfold bind at 1, printf at 1.
  unfold bind at 1, printf at 1. unfold bind at 1.
  assert (Htype : forall w0,
             (if S_ISDIR (ni_mode ni)
              then printf "    inode type:                 DIR\n" []
              else if S_ISLNK (ni_mode ni)
                   then printf "    inode type:                 SYMLINK\n" []
                   else printf "    inode type:                 REGULAR FILE\n" []) w0
             = (Ret tt,
                add_out
                  (if S_ISDIR (ni_mode ni)
                   then Printf "    inode type:                 DIR\n" []
                   else if S_ISLNK (ni_mode ni)
                        then Printf "    inode type:                 SYMLINK\n" []
                        else Printf "    inode type:                 REGULAR FILE\n" [])
                  w0)).
  { intros w0. destruct (S_ISDIR _); [|destruct (S_ISLNK _)]; reflexivity. }
  rewrite Htype.
  unfold bind at 1, printf at 1. unfold bind at 1, printf at 1.
  unfold bind at 1, printf at 1.
  unfold bind at 1. rewrite (time_to_date_ok _ atime) by exact Hla.
  unfold bind at 1. rewrite printf_date by exact Ha.
  unfold bind at 1. rewrite (time_to_date_ok _ mtime) by exact Hlm.
  unfold bind at 1. rewrite printf_date by exact Hmt.
  unfold bind at 1. rewrite (time_to_date_ok _ ctime) by exact Hlc.
  unfold bind at 1. rewrite printf_date by exact Hc.
  unfold bind at 1, printf at 1.
  unfold bind at 1, numbfs_dump_xattrs. rewrite Hcount.
  change (0 =? 0) with true. cbv iota. unfold ret at 1.
  unfold bind at 1, printf at 1.
  rewrite !add_outs_app. unfold inode_report_head.
  destruct (S_ISDIR (ni_mode ni)); [unfold bind at 1, printf at 1|]; reflexivity.
Qed.

Lemma inode_report_without_attributes_witness :
  numbfs_fsck_show_inode (E := Demo.env) 1 DemoDir.sbi 0 (Demo.world_of DemoFile.img)
  = (Ret 0,
     add_outs (inode_report_head (E := Demo.env) 0 DemoFile.inode
                 (mkTm 0 0 0 1 0 70 4 0 0) (mkTm 0 0 0 1 0 70 4 0 0)
                 (mkTm 0 0 0 1 0 70 4 0 0)
               ++ [Printf "\n" []] ++ [])
              (set_dev DemoFile.img (Demo.world_of DemoFile.img))).
Proof.
  apply (inode_report_without_attributes Demo.env 1 DemoDir.sbi 0
           (Demo.world_of DemoFile.img) DemoFile.inode (Demo.fit 512 [])
           DemoFile.img DemoFile.img
           (mkTm 0 0 0 1 0 70 4 0 0) (mkTm 0 0 0 1 0 70 4 0 0)
           (mkTm 0 0 0 1 0 70 4 0 0)).
  - reflexivity.
  - vm_compute. reflexivity.
  - vm_compute. reflexivity.
  - reflexivity.
  - vm_compute. reflexivity.
  - vm_compute. reflexivity.
  - vm_compute. reflexivity.
  - split; [vm_compute; repeat constructor; discriminate | evaluated].
  - split; [vm_compute; repeat constructor; discriminate | evaluated].
  - split; [vm_compute; repeat constructor; discriminate | evaluated].
Defined.

(** X13. Failures before the report: when [malloc] fails,
    [numbfs_fsck_show_inode] returns [-ENOMEM] and neither prints nor calls a
    helper; when the inode cannot be resolved, it returns the helper's error
    with "failed to get inode information" on standard error, prints nothing
    on standard output and does not read the attribute block. *)
Theorem inode_resolution_failure :
  forall (E : Collaborators) (fuel : nat) (sbi : numbfs_superblock_info)
         (nid : Z) (w : world),
    (w_malloc_ok w = false ->
     numbfs_fsck_show_inode fuel sbi nid w = (Ret (- ENOMEM), w)) /\
    (forall (err : Z) (ni : numbfs_inode_info) (d1 : list Z),
        w_malloc_ok w = true ->
        numbfs_get_inode sbi nid (w_dev w) = ((err, ni), d1) ->
        err <> 0 ->
        numbfs_fsck_show_inode fuel sbi nid w
        = (Ret err,
           add_err (Printf "error: failed to get inode information\n" [])
                   (set_dev d1 w))).
Proof.
  intros E fuel sbi nid w. split.
  - intros Hm. unfold numbfs_fsck_show_inode. rewrite Hm. reflexivity.
  - intros err ni d1 Hm Hgi Herr.
    unfold numbfs_fsck_show_inode. rewrite Hm. cbn [negb].
    unfold bind at 1, on_dev at 1. rewrite Hgi. cbn [fst snd].
    apply Z.eqb_neq in Herr. rewrite Herr. reflexivity.
Qed.

Lemma inode_resolution_failure_witness :
  numbfs_fsck_show_inode (E := Demo.env) 1 DemoDir.sbi 1000 (Demo.world_of DemoFile.img)
  = (Ret (- EIO),
     add_err (Printf "error: failed to get inode information\n" [])
             (set_dev DemoFile.img (Demo.world_of DemoFile.img))).
Proof.
  destruct (inode_resolution_failure Demo.env 1 DemoDir.sbi 1000
              (Demo.world_of DemoFile.img)) as (_ & Hget).
  apply (Hget (- EIO)
              (snd (fst (Demo.numbfs_get_inode DemoDir.sbi 1000 DemoFile.img)))
              DemoFile.img).
  - reflexivity.
  - vm_compute. reflexivity.
  - evaluated.
Defined.

(* ================================================================== *)
(** ** Further properties: a failing read during the directory walk *)

Section WalkFailure.

Context {E : Collaborators}.

Variable ni : numbfs_inode_info.
Variable nid : Z.
Variable blk : Z -> list Z.
Variable line : Z -> printf_call.
Variable device : list Z.
Variable bad : Z.
Variable err : Z.
Variable junk : list Z.

Hypothesis block_positive : 0 < BYTES_PER_BLOCK.
Hypothesis block_holds_entries : BYTES_PER_BLOCK mod 64 = 0.
Hypothesis bad_inside : 0 <= bad /\ bad * BYTES_PER_BLOCK < ni_size ni.
Hypothesis size_fits : ni_size ni <= INT_MAX - 63.
Hypothesis reads_before :
  forall b : Z,
    0 <= b < bad ->
    numbfs_pread_inode ni (b * BYTES_PER_BLOCK) BYTES_PER_BLOCK device
    = ((0, blk b), device).
Hypothesis read_fails :
  numbfs_pread_inode ni (bad * BYTES_PER_BLOCK) BYTES_PER_BLOCK device
  = ((err, junk), device).
Hypothesis err_nonzero : err <> 0.
Hypothesis names_before :
  forall k : Z, 0 <= k -> 64 * k < bad * BYTES_PER_BLOCK ->
                entry_line BYTES_PER_BLOCK blk k = Some (line k).

(** Number of entries in the blocks before the failing one. *)
Let before : nat := Z.to_nat (bad * BYTES_PER_BLOCK / 64).

Lemma before_exact : 64 * Z.of_nat before = bad * BYTES_PER_BLOCK.
Proof.
  unfold before.
  pose proof (Z.div_mod BYTES_PER_BLOCK 64 ltac:(lia)) as Hc.
  rewrite block_holds_entries in Hc.
  replace (bad * BYTES_PER_BLOCK) with ((bad * (BYTES_PER_BLOCK / 64)) * 64) at 1 by lia.
  rewrite Z.div_mul by lia.
  assert (0 <= BYTES_PER_BLOCK / 64) by (apply Z.div_pos; lia).
  rewrite Z2Nat.id by nia. lia.
Qed.

Lemma walk_step_before (fuel : nat) (j : Z) (buf : list Z) (w : world) :
  w_dev w = device ->
  0 <= j -> 64 * j < bad * BYTES_PER_BLOCK ->
  ((64 * j) mod BYTES_PER_BLOCK <> 0 -> buf = blk (64 * j / BYTES_PER_BLOCK)) ->
  dir_content_loop (S fuel) ni nid (64 * j) buf w
  = dir_content_loop fuel ni nid (64 * (j + 1))
      (blk (64 * j / BYTES_PER_BLOCK)) (add_out (line j) w).
Proof.
  intros Hdev Hj Hlt Hbuf. cbn [dir_content_loop].
  destruct bad_inside as (Hbad0 & Hbad).
  destruct (64 * j <? ni_size ni) eqn:Hltb; [|apply Z.ltb_ge in Hltb; lia].
  cbn [negb]. rewrite Z.rem_mod_nonneg by lia.
  pose proof (Z.mod_pos_bound (64 * j) BYTES_PER_BLOCK block_positive) as Hmod.
  pose proof (names_before j Hj Hlt) as Hline. unfold entry_line in Hline.
  assert (Hnext : wrap_int (64 * j + DIRENT_SIZE) = 64 * (j + 1)).
  { change DIRENT_SIZE with 64. rewrite wrap_int_id; unfold INT_MAX in *; lia. }
  assert (Hnz : BYTES_PER_BLOCK <> 0) by lia.
  destruct ((64 * j) mod BYTES_PER_BLOCK =? 0) eqn:Hz.
  - apply Z.eqb_eq in Hz.
    assert (Hoff : 64 * j = (64 * j / BYTES_PER_BLOCK) * BYTES_PER_BLOCK).
    { pose proof (Z.div_mod (64 * j) BYTES_PER_BLOCK Hnz) as Hd.
      rewrite Hz, Z.add_0_r in Hd.
      rewrite (Z.mul_comm (_ / _) BYTES_PER_BLOCK). exact Hd. }
    assert (Hq : 0 <= 64 * j / BYTES_PER_BLOCK < bad).
    { split; [apply Z.div_pos; lia|].
      apply Z.div_lt_upper_bound; lia. }
    assert (Hread : numbfs_pread_inode ni (64 * j) BYTES_PER_BLOCK (w_dev w)
                    = ((0, blk (64 * j / BYTES_PER_BLOCK)), w_dev w)).
    { rewrite Hdev. rewrite Hoff at 1. apply reads_before. exact Hq. }
    unfold bind at 1, on_dev at 1. cbv beta iota.
    rewrite Hread.
    cbn [fst snd]. change (0 =? 0) with true. cbn [negb].
    destruct (_ <? 0) eqn:Hneg; [apply Z.ltb_lt in Hneg; lia|].
    rewrite Hline. unfold bind at 1. rewrite Hnext.
    destruct w; reflexivity.
  - apply Z.eqb_neq in Hz. rewrite (Hbuf Hz).
    unfold bind at 1, ret at 1.
    cbn [fst snd]. change (0 =? 0) with true. cbn [negb].
    destruct (_ <? 0) eqn:Hneg; [apply Z.ltb_lt in Hneg; lia|].
    rewrite Hline. unfold bind at 1. rewrite Hnext. reflexivity.
Qed.

Lemma walk_fails_at_bad (fuel : nat) (buf : list Z) (w : world) :
  w_dev w = device ->
  dir_content_loop (S fuel) ni nid (bad * BYTES_PER_BLOCK) buf w
  = (Ret err,
     add_err (Printf "error: failed to read block@%d of inode@%d\n"
                     [PInt bad; PInt nid]) w).
Proof.
  intros Hdev. cbn [dir_content_loop].
  destruct bad_inside as (Hbad0 & Hbad).
  destruct (bad * BYTES_PER_BLOCK <? ni_size ni) eqn:Hltb;
    [|apply Z.ltb_ge in Hltb; lia].
  cbn [negb].
  assert (Hnz : BYTES_PER_BLOCK <> 0) by lia.
  rewrite Z.rem_mod_nonneg by nia.
  rewrite Z.mod_mul by exact Hnz. change (0 =? 0) with true. cbv iota.
  unfold bind at 1, on_dev at 1. rewrite Hdev, read_fails. cbn [fst snd].
  apply Z.eqb_neq in err_nonzero. rewrite err_nonzero. cbn [negb].
  rewrite Z.quot_mul by exact Hnz.
  destruct w; cbn [w_dev] in Hdev; subst; reflexivity.
Qed.

Lemma walk_until_bad (m : nat) :
  forall (j fuel : nat) (buf : list Z) (w : world),
    w_dev w = device ->
    (j + m = before)%nat ->
    (m < fuel)%nat ->
    ((64 * Z.of_nat j) mod BYTES_PER_BLOCK <> 0 ->
     buf = blk (64 * Z.of_nat j / BYTES_PER_BLOCK)) ->
    dir_content_loop fuel ni nid (64 * Z.of_nat j) buf w
    = (Ret err,
       add_err (Printf "error: failed to read block@%d of inode@%d\n"
                       [PInt bad; PInt nid])
               (add_outs (map (fun k => line (Z.of_nat k)) (seq j m)) w)).
Proof.
  pose proof before_exact as Hbefore.
  induction m as [|m IH]; intros j fuel buf w Hdev Hjm Hfuel Hbuf;
    (destruct fuel as [|fuel]; [lia|]).
  - replace (64 * Z.of_nat j) with (bad * BYTES_PER_BLOCK) by lia.
    rewrite walk_fails_at_bad by exact Hdev. reflexivity.
  - rewrite walk_step_before by (assumption || lia).
    replace (Z.of_nat j + 1) with (Z.of_nat (S j)) by lia.
    rewrite IH; [reflexivity | exact Hdev | lia | lia |].
    intros Hne. f_equal. symmetry.
    replace (Z.of_nat (S j)) with (Z.of_nat j + 1) in * by lia.
    apply same_block_next; (assumption || lia).
Qed.

End WalkFailure.

(** X14. A failing positioned read stops the directory walk where it
    happens: when block [bad] of the directory is the first whose read
    fails, the walk has printed the lines of the entries of the blocks
    before it, in order, writes "failed to read block@bad of inode@nid" to
    standard error and returns the error of the read; no later entry is
    printed. *)
Theorem dir_walk_stops_at_failing_block :
  forall (E : Collaborators) (ni : numbfs_inode_info) (nid : Z)
         (blk : Z -> list Z) (line : Z -> printf_call)
         (bad err : Z) (junk : list Z) (fuel : nat) (buf : list Z) (w : world),
    0 < BYTES_PER_BLOCK ->
    BYTES_PER_BLOCK mod 64 = 0 ->
    0 <= bad /\ bad * BYTES_PER_BLOCK < ni_size ni ->
    ni_size ni <= INT_MAX - 63 ->
    (forall b : Z,
        0 <= b < bad ->
        numbfs_pread_inode ni (b * BYTES_PER_BLOCK) BYTES_PER_BLOCK (w_dev w)
        = ((0, blk b), w_dev w)) ->
    numbfs_pread_inode ni (bad * BYTES_PER_BLOCK) BYTES_PER_BLOCK (w_dev w)
    = ((err, junk), w_dev w) ->
    err <> 0 ->
    (forall k : Z, 0 <= k -> 64 * k < bad * BYTES_PER_BLOCK ->
                   entry_line BYTES_PER_BLOCK blk k = Some (line k)) ->
    (Z.to_nat (bad * BYTES_PER_BLOCK / 64) < fuel)%nat ->
    dir_content_loop fuel ni nid 0 buf w
    = (Ret err,
       add_err (Printf "error: failed to read block@%d of inode@%d\n"
                       [PInt bad; PInt nid])
               (add_outs (map (fun k => line (Z.of_nat k))
                              (seq 0 (Z.to_nat (bad * BYTES_PER_BLOCK / 64))))
                         w)).
Proof.
  intros E ni nid blk line bad err junk fuel buf w
         Hb H64 Hbad Hsize Hbefore Hfail Herr Hnames Hfuel.
  apply (@walk_until_bad E ni nid blk line (w_dev w) bad err junk
           Hb H64 Hbad Hsize Hbefore Hfail Herr Hnames
           (Z.to_nat (bad * BYTES_PER_BLOCK / 64)) 0 fuel buf w);
    [reflexivity | lia | exact Hfuel |].
  intros Hne. exfalso. apply Hne. reflexivity.
Qed.

Lemma dir_walk_stops_at_failing_block_witness :
  dir_content_loop (E := Demo.env) 20 DemoFile.dir_hole 0 0 []
                   (Demo.world_of DemoFile.img_hole)
  = (Ret (- EIO),
     add_err (Printf "error: failed to read block@%d of inode@%d\n" [PInt 1; PInt 0])
       (add_outs
          (map (fun k => match entry_line 512 DemoDir.blocks (Z.of_nat k) with
                         | Some l => l
                         | None => usage
                         end)
               (seq 0 (Z.to_nat (1 * 512 / 64))))
          (Demo.world_of DemoFile.img_hole))).
Proof.
  apply (dir_walk_stops_at_failing_block Demo.env DemoFile.dir_hole 0 DemoDir.blocks
           (fun k => match entry_line 512 DemoDir.blocks k with
                     | Some l => l
                     | None => usage
                     end)
           1 (- EIO) (Demo.fit 512 []) 20 [] (Demo.world_of DemoFile.img_hole)).
  - reflexivity.
  - reflexivity.
  - evaluated.
  - evaluated.
  - intros b Hb. assert (b = 0) by lia. subst b. vm_compute. reflexivity.
  - vm_compute. reflexivity.
  - evaluated.
  - intros k Hk Hlt. change (64 * k < 512) in Hlt.
    assert (Hcases : k = 0 \/ k = 1 \/ k = 2 \/ k = 3 \/ k = 4 \/ k = 5
                     \/ k = 6 \/ k = 7) by lia.
    destruct Hcases as [-> | [-> | [-> | [-> | [-> | [-> | [-> | ->]]]]]]];
      vm_compute; reflexivity.
  - vm_compute. lia.
Defined.

(* ================================================================== *)
(** ** Further properties: attribute fields at their limits *)

Lemma c_string_unterminated (l : list Z) :
  Forall (fun b => b <> 0) l -> c_string l = None.
Proof.
  induction 1 as [|b l Hb _ IH]; cbn [c_string]; [reflexivity|].
  destruct (b =? 0) eqn:Hz; [apply Z.eqb_eq in Hz; contradiction|].
  now rewrite IH.
Qed.

(** X15. A name of the full 16 bytes (or a value of the full 32 bytes)
    leaves no room for the terminator: when the length byte of a field equals
    the size of its local array and none of the bytes copied is NUL, the
    padding loop writes nothing and [memcpy] fills the whole array, so the
    array handed to [printf] for [%s] is exactly the copied bytes and holds
    no NUL: the end of the text does not lie inside the array. *)
Theorem xattr_full_length_field_unterminated :
  forall (max : Z) (src : list Z),
    0 < max <= INT_MAX ->
    List.length src = Z.to_nat max ->
    Forall (fun b => b <> 0) src ->
    xattr_padded max max src = Some src /\ c_string src = None.
Proof.
  intros max src Hmax Hsrc Hnz. split; [|apply c_string_unterminated, Hnz].
  unfold xattr_padded. rewrite Z.leb_refl.
  replace (max - max - 1) with (-1) by lia.
  change (wrap_int (-1)) with (-1). unfold for_lt.
  change (Z.to_nat (-1 - 0)) with 0%nat. cbn [for_range].
  unfold memcpy, zeroed.
  rewrite <- Hsrc, firstn_all, skipn_all2 by (rewrite repeat_length; lia).
  now rewrite app_nil_r.
Qed.

Lemma xattr_full_length_field_unterminated_witness :
  xattr_padded NUMBFS_XATTR_MAXNAME NUMBFS_XATTR_MAXNAME (repeat 97 16)
  = Some (repeat 97 16) /\
  c_string (repeat 97 16) = None.
Proof.
  apply (xattr_full_length_field_unterminated NUMBFS_XATTR_MAXNAME (repeat 97 16)).
  - evaluated.
  - reflexivity.
  - vm_compute. repeat constructor; discriminate.
Defined.

(** X16. A NUL inside the name ends the printed field early: for a length
    that fits ([len < max]), when the first NUL of the source bytes stands at
    index [p] below [len], the field printed is the [p] bytes before it, with
    no padding at all. *)
Theorem xattr_field_cut_at_nul :
  forall (max len : Z) (src : list Z) (p : nat),
    0 <= len < max -> max <= INT_MAX ->
    (p < Z.to_nat len)%nat -> (p < List.length src)%nat ->
    nth p src 0 = 0 ->
    Forall (fun b => b <> 0) (firstn p src) ->
    xattr_field max len src = Some (firstn p src).
Proof.
  intros max len src p Hlen Hmax Hp Hsrc Hnul Hnz. unfold xattr_field.
  rewrite xattr_padded_shape by assumption.
  assert (Hsplit : firstn (Z.to_nat len) src
                   = firstn p src ++ 0 :: skipn (S p) (firstn (Z.to_nat len) src)).
  { rewrite <- (firstn_skipn_middle p (firstn (Z.to_nat len) src) (x := 0)) at 1.
    - rewrite firstn_firstn. now replace (Nat.min p (Z.to_nat len)) with p by lia.
    - rewrite <- Hnul.
      replace (nth p src 0) with (nth p (firstn (Z.to_nat len) src) 0).
      + apply nth_error_nth'. rewrite length_firstn. lia.
      + rewrite nth_firstn. destruct (Nat.ltb_spec p (Z.to_nat len)); [reflexivity|lia]. }
  rewrite Hsplit, <- app_assoc. cbn [app].
  apply c_string_terminated, Hnz.
Qed.

Lemma xattr_field_cut_at_nul_witness :
  xattr_field NUMBFS_XATTR_MAXNAME 6 (Demo.fit 16 [117; 115; 0; 114; 46; 120])
  = Some [117; 115].
Proof.
  apply (xattr_field_cut_at_nul NUMBFS_XATTR_MAXNAME 6
           (Demo.fit 16 [117; 115; 0; 114; 46; 120]) 2).
  - evaluated.
  - evaluated.
  - vm_compute. lia.
  - vm_compute. lia.
  - reflexivity.
  - vm_compute. repeat constructor; discriminate.
Defined.

(* ================================================================== *)
(** ** Further properties: exit status and the two output streams *)

Lemma tidy_of_result {A : Type} (m : M A) (o e : list printf_call) :
  (forall w, w_out (snd (m w)) = w_out w ++ o /\
             w_err (snd (m w)) = w_err w ++ e /\
             match fst (m w) with
             | Stop (Exited c) => (c = 0 \/ c = 1) /\ (c = 1 -> e <> [])
             | _ => True
             end) ->
  tidy m.
Proof. intros H w. exists o, e. apply H. Qed.

Lemma tidy_ret {A : Type} (a : A) : tidy (ret a).
Proof.
  apply (tidy_of_result _ [] []). intros w. cbn. now rewrite !app_nil_r.
Qed.

Lemma tidy_halt_quiet {A : Type} (s : stop) :
  (forall c, s <> Exited c) -> tidy (@halt A s).
Proof.
  intros Hs. apply (tidy_of_result _ [] []). intros w. cbn.
  rewrite !app_nil_r. repeat split.
  destruct s; auto. now elim (Hs code).
Qed.

Lemma tidy_printf (fmt : string) (args : list parg) : tidy (printf fmt args).
Proof.
  apply (tidy_of_result _ [Printf fmt args] []). intros w. cbn.
  now rewrite app_nil_r.
Qed.

Lemma tidy_eprintf (fmt : string) (args : list parg) : tidy (eprintf fmt args).
Proof.
  apply (tidy_of_result _ [] [Printf fmt args]). intros w. cbn.
  now rewrite app_nil_r.
Qed.

Lemma tidy_emit (c : printf_call) : tidy (fun w => (Ret tt, add_out c w)).
Proof.
  apply (tidy_of_result _ [c] []). intros w. cbn. now rewrite app_nil_r.
Qed.

(** The ways in which fsck.c leaves through [exit]. *)
Lemma tidy_exit_with_message (fmt : string) (args : list parg) :
  tidy (eprintf fmt args ;; @halt unit (Exited 1)).
Proof.
  apply (tidy_of_result _ [] [Printf fmt args]). intros w. cbn.
  rewrite app_nil_r. repeat split; auto. discriminate.
Qed.

Lemma tidy_exit_with_message_cfg (fmt : string) (args : list parg) :
  tidy (eprintf fmt args ;; @halt numbfs_fsck_cfg (Exited 1)).
Proof.
  apply (tidy_of_result _ [] [Printf fmt args]). intros w. cbn.
  rewrite app_nil_r. repeat split; auto. discriminate.
Qed.

Lemma tidy_exit_with_message_Z (fmt : string) (args : list parg) :
  tidy (eprintf fmt args ;; @halt Z (Exited 1)).
Proof.
  apply (tidy_of_result _ [] [Printf fmt args]). intros w. cbn.
  rewrite app_nil_r. repeat split; auto. discriminate.
Qed.

Lemma tidy_help_exit : tidy (numbfs_fsck_help ;; @halt numbfs_fsck_cfg (Exited 0)).
Proof.
  apply (tidy_of_result _ [usage] []). intros w. cbn.
  rewrite app_nil_r. repeat split; auto. discriminate.
Qed.

Lemma tidy_unknown_exit (text : string) :
  tidy (eprintf "Unknown option: %s\n\n" [PLit text] ;;
        numbfs_fsck_help ;; @halt numbfs_fsck_cfg (Exited 1)).
Proof.
  apply (tidy_of_result _ [usage] [Printf "Unknown option: %s\n\n" [PLit text]]).
  intros w. cbn. repeat split; auto. discriminate.
Qed.

Lemma tidy_bind {A B : Type} (m : M A) (k : A -> M B) :
  tidy m -> (forall a, tidy (k a)) -> tidy (bind m k).
Proof.
  intros Hm Hk w. destruct (Hm w) as (o1 & e1 & Ho1 & He1 & Hs1).
  unfold bind. destruct (m w) as [[a|s] w1]; cbn [fst snd] in *.
  - destruct (Hk a w1) as (o2 & e2 & Ho2 & He2 & Hs2).
    exists (o1 ++ o2), (e1 ++ e2).
    rewrite Ho2, He2, Ho1, He1, !app_assoc. repeat split.
    destruct (fst (k a w1)) as [b|[c| | |]]; auto.
    destruct Hs2 as (Hc & Hmsg). split; [exact Hc|].
    intros H1 Hnil. apply app_eq_nil in Hnil. now apply (Hmsg H1).
  - exists o1, e1. auto.
Qed.

Lemma tidy_on_dev {A : Type} (f : list Z -> A * list Z) : tidy (on_dev f).
Proof.
  apply (tidy_of_result _ [] []). intros w. cbn. now rewrite !app_nil_r.
Qed.

Lemma tidy_sys_pread (count off : Z) : tidy (sys_pread count off).
Proof.
  apply (tidy_of_result _ [] []). intros w. cbn. now rewrite !app_nil_r.
Qed.

Lemma tidy_sys_open (path : string) (flags : Z) : tidy (sys_open path flags).
Proof.
  apply (tidy_of_result _ [] []). intros w. unfold sys_open.
  destruct (w_open w path =? 0); [destruct (Z.land flags O_TRUNC =? 0)|];
    cbn; now rewrite !app_nil_r.
Qed.

Lemma tidy_BUG_ON (cond : bool) : tidy (BUG_ON cond).
Proof.
  destruct cond; [apply tidy_halt_quiet; discriminate | apply tidy_ret].
Qed.

Lemma tidy_printf_str (fmt : string) (before : list parg) (mem : list Z)
      (after : list parg) :
  tidy (printf_str fmt before mem after).
Proof.
  unfold printf_str. destruct (c_string mem);
    [apply tidy_printf | apply tidy_halt_quiet; discriminate].
Qed.

Lemma tidy_for_range_M (body : Z -> M unit) (n : nat) :
  (forall i, tidy (body i)) -> forall i, tidy (for_range_M n i body).
Proof.
  intros Hbody. induction n as [|n IH]; intros i; cbn [for_range_M].
  - apply tidy_ret.
  - apply tidy_bind; [apply Hbody | intros _; apply IH].
Qed.

Lemma tidy_undefined {A : Type} : tidy (@halt A Undefined).
Proof. apply tidy_halt_quiet. discriminate. Qed.

Lemma tidy_out_of_fuel {A : Type} : tidy (@halt A OutOfFuel).
Proof. apply tidy_halt_quiet. discriminate. Qed.

Lemma tidy_time_to_date {E : Collaborators} (time : Z) :
  tidy (numbfs_time_to_date time).
Proof.
  unfold numbfs_time_to_date. destruct (localtime time);
    [apply tidy_ret | apply tidy_undefined].
Qed.

Create HintDb tidy.
#[local] Hint Resolve tidy_ret tidy_printf tidy_eprintf tidy_emit tidy_on_dev
  tidy_sys_pread tidy_sys_open tidy_BUG_ON tidy_printf_str tidy_undefined
  tidy_out_of_fuel tidy_exit_with_message tidy_exit_with_message_cfg
  tidy_exit_with_message_Z tidy_help_exit tidy_unknown_exit
  tidy_time_to_date : tidy.

(** Closes a leaf with [tidy], else splits a bind or a case distinction. *)
Ltac tidy_step :=
  match goal with
  | |- tidy _ => solve [auto with tidy]
  | |- tidy (bind _ _) => apply tidy_bind; [|intros ?]
  | |- tidy (if ?c then _ else _) => destruct c
  | |- tidy (match ?x with _ => _ end) => destruct x
  end.

Section Tidy.

Context {E : Collaborators}.

Lemma tidy_parse_opts (opts : list getopt_result) :
  forall cfg, tidy (parse_opts opts cfg).
Proof.
  induction opts as [|o opts IH]; intros cfg; cbn [parse_opts].
  - apply tidy_ret.
  - destruct o; try apply IH; auto with tidy.
Qed.

Lemma tidy_parse_args (cl : cmdline) (cfg : numbfs_fsck_cfg) :
  tidy (numbfs_fsck_parse_args cl cfg).
Proof.
  unfold numbfs_fsck_parse_args.
  apply tidy_bind; [apply tidy_parse_opts|]. intros cfg1.
  destruct (cl_rest cl) as [|target more]; [auto with tidy|].
  intros w. destruct (w_strdup_ok w).
  - apply (tidy_ret _ w).
  - apply (tidy_exit_with_message_cfg _ _ w).
Qed.

Lemma tidy_dump_xattr_entry (xe : xattr_entry) : tidy (dump_xattr_entry xe).
Proof. unfold dump_xattr_entry. repeat tidy_step. Qed.

Lemma tidy_dump_xattrs (ni : numbfs_inode_info) : tidy (numbfs_dump_xattrs ni).
Proof.
  unfold numbfs_dump_xattrs.
  destruct (ni_xattr_count ni =? 0); [apply tidy_ret|].
  apply tidy_bind; [apply tidy_on_dev|]. intros r.
  destruct (negb (fst r =? 0)); [apply tidy_eprintf|].
  repeat (apply tidy_bind; [|intros ?]); auto with tidy.
  apply tidy_for_range_M. intros i. apply tidy_dump_xattr_entry.
Qed.

Lemma tidy_dir_content_loop (ni : numbfs_inode_info) (nid : Z) (fuel : nat) :
  forall i buf, tidy (dir_content_loop fuel ni nid i buf).
Proof.
  induction fuel as [|fuel IH]; intros i buf; cbn [dir_content_loop].
  - apply tidy_out_of_fuel.
  - destruct (negb (i <? ni_size ni)); [apply tidy_ret|].
    apply tidy_bind.
    + destruct (Z.rem i BYTES_PER_BLOCK =? 0); auto with tidy.
    + intros r. destruct (negb (fst r =? 0)).
      * apply tidy_bind; [apply tidy_eprintf | intros _; apply tidy_ret].
      * destruct (Z.rem i BYTES_PER_BLOCK <? 0); [apply tidy_undefined|].
        destruct (dirent_line (snd r) (Z.rem i BYTES_PER_BLOCK));
          [|apply tidy_undefined].
        apply tidy_bind; [apply tidy_emit | intros _; apply IH].
Qed.

Lemma tidy_show_inode (fuel : nat) (sbi : numbfs_superblock_info) (nid : Z) :
  tidy (numbfs_fsck_show_inode fuel sbi nid).
Proof.
  intros w. unfold numbfs_fsck_show_inode.
  destruct (negb (w_malloc_ok w)); [apply (tidy_ret _ w)|].
  match goal with
  | |- exists o e, w_out (snd (?m w)) = _ /\ _ =>
      assert (Hm : tidy m); [|exact (Hm w)]
  end.
  apply tidy_bind; [apply tidy_on_dev|]. intros gi.
  destruct (negb (fst gi =? 0)).
  { apply tidy_bind; [apply tidy_eprintf | intros _; apply tidy_ret]. }
  cbv zeta.
  apply tidy_bind; [apply tidy_on_dev|]. intros rb.
  destruct (negb (fst rb =? 0)).
  { apply tidy_bind; [apply tidy_eprintf | intros _; apply tidy_ret]. }
  repeat (apply tidy_bind; [|intros ?]); auto with tidy.
  - destruct (S_ISDIR _); [|destruct (S_ISLNK _)]; apply tidy_printf.
  - apply tidy_dump_xattrs.
  - destruct (S_ISDIR _); [|apply tidy_ret].
    apply tidy_bind; [apply tidy_printf|]. intros _.
    apply tidy_dir_content_loop.
Qed.

Lemma tidy_bitmap_loop (n : nat) : forall i cnt, tidy (bitmap_loop n i cnt).
Proof.
  induction n as [|n IH]; intros i cnt; cbn [bitmap_loop].
  - apply tidy_ret.
  - apply tidy_bind; [apply tidy_sys_pread|]. intros r.
    destruct (negb (wrap_int (fst r) =? BYTES_PER_BLOCK)); [|apply IH].
    apply tidy_bind; [apply tidy_eprintf | intros _; apply tidy_ret].
Qed.

Lemma tidy_fsck_inodes (sbi : numbfs_superblock_info) : tidy (fsck_inodes sbi).
Proof.
  unfold fsck_inodes, bitmap_scan.
  apply tidy_bind; [apply tidy_bitmap_loop|]. intros [cnt|]; [|apply tidy_ret].
  apply tidy_bind; [apply tidy_BUG_ON|]. intros _.
  apply tidy_bind; [apply tidy_printf | intros _; apply tidy_ret].
Qed.

Lemma tidy_fsck_blocks (sbi : numbfs_superblock_info) : tidy (fsck_blocks sbi).
Proof.
  unfold fsck_blocks, bitmap_scan.
  apply tidy_bind; [apply tidy_bitmap_loop|]. intros [cnt|]; [|apply tidy_ret].
  apply tidy_bind; [apply tidy_BUG_ON|]. intros _.
  apply tidy_bind; [apply tidy_printf | intros _; apply tidy_ret].
Qed.

Lemma tidy_fsck_nid (fuel : nat) (sbi : numbfs_superblock_info)
      (cfg : numbfs_fsck_cfg) :
  tidy (fsck_nid fuel sbi cfg).
Proof.
  unfold fsck_nid. destruct (0 <=? nid cfg); [|apply tidy_ret].
  apply tidy_bind; [apply tidy_show_inode|]. intros err.
  destruct (negb (err =? 0)); [|apply tidy_ret].
  apply tidy_bind; [apply tidy_eprintf | intros _; apply tidy_ret].
Qed.

Lemma tidy_fsck_exit (err : Z) : tidy (fsck_exit err).
Proof.
  unfold fsck_exit, sys_close.
  apply tidy_bind; [apply tidy_ret | intros _; apply tidy_ret].
Qed.

Lemma tidy_report_sections (fuel : nat) (sbi : numbfs_superblock_info)
      (cfg : numbfs_fsck_cfg) :
  tidy (report_sections fuel sbi cfg).
Proof.
  pose proof tidy_fsck_exit. pose proof tidy_fsck_inodes.
  pose proof tidy_fsck_blocks.
  unfold report_sections.
  apply tidy_bind; [destruct (show_inodes cfg); auto with tidy|]. intros e1.
  destruct (negb (e1 =? 0)); [auto|].
  apply tidy_bind; [destruct (show_blocks cfg); auto with tidy|]. intros e2.
  destruct (negb (e2 =? 0)); [auto|].
  apply tidy_bind; [apply tidy_fsck_nid|]. intros e3.
  destruct (negb (e3 =? 0)); auto.
Qed.

Lemma tidy_print_superblock (sbi : numbfs_superblock_info) :
  tidy (print_superblock sbi).
Proof.
  unfold print_superblock.
  repeat (apply tidy_bind; [apply tidy_printf | intros _]). apply tidy_printf.
Qed.

Lemma tidy_fsck_run (fuel : nat) (cfg : numbfs_fsck_cfg) : tidy (fsck_run fuel cfg).
Proof.
  unfold fsck_run.
  apply tidy_bind; [apply tidy_sys_open|]. intros o.
  destruct (fst o <? 0); [apply tidy_ret|].
  apply tidy_bind; [apply tidy_on_dev|]. intros gs.
  destruct (negb (fst gs =? 0)).
  - apply tidy_bind; [apply tidy_eprintf | intros _; apply tidy_fsck_exit].
  - apply tidy_bind; [apply tidy_print_superblock|]. intros _.
    apply tidy_report_sections.
Qed.

(** What [main] does with the value of [numbfs_fsck]. *)
Lemma tidy_main_tail (err : Z) :
  tidy (if negb (err =? 0)
        then eprintf "Error occured in fsck, err: %d\n" [PInt err] ;; halt (Exited 1)
        else ret 0).
Proof. destruct (negb (err =? 0)); auto with tidy. Qed.

Lemma tidy_main (fuel : nat) (cl : cmdline) : tidy (main fuel cl).
Proof.
  unfold main, numbfs_fsck.
  apply tidy_bind; [|apply tidy_main_tail].
  apply tidy_bind; [apply tidy_parse_args | intros cfg; apply tidy_fsck_run].
Qed.

End Tidy.

(** X17. The exit status of the tool is 0 or 1: whatever the command line
    and the device, when [main] returns, it returns 0, and when the process
    leaves through [exit], the status is 0 or 1. *)
Theorem exit_status_zero_or_one :
  forall (E : Collaborators) (fuel : nat) (cl : cmdline) (w : world),
    match fst (main fuel cl w) with
    | Ret r => r = 0
    | Stop (Exited c) => c = 0 \/ c = 1
    | Stop _ => True
    end.
Proof.
  intros E fuel cl w.
  destruct (tidy_main fuel cl w) as (o & e & _ & _ & Hs).
  destruct (fst (main fuel cl w)) as [r|[c| | |]] eqn:Hres; auto.
  - unfold main, bind in Hres.
    destruct (numbfs_fsck fuel cl w) as [[err|s] w1]; [|discriminate].
    destruct (negb (err =? 0)); cbn in Hres; [discriminate|].
    now injection Hres as <-.
  - apply Hs.
Qed.

(** X18. What has been written stays written, and a failure is never silent:
    in every run the final contents of standard output and of standard error
    extend the initial ones, and when the process exits with status 1
    something was written to standard error. *)
Theorem output_only_grows_and_failure_is_reported :
  forall (E : Collaborators) (fuel : nat) (cl : cmdline) (w : world),
  exists o e : list printf_call,
    w_out (snd (main fuel cl w)) = w_out w ++ o /\
    w_err (snd (main fuel cl w)) = w_err w ++ e /\
    (fst (main fuel cl w) = Stop (Exited 1) -> e <> []).
Proof.
  intros E fuel cl w.
  destruct (tidy_main fuel cl w) as (o & e & Ho & He & Hs).
  exists o, e. repeat split; try assumption.
  intros Hres. rewrite Hres in Hs. now apply Hs.
Qed.

(* ================================================================== *)
(** ** Further properties: how the sections compose *)

Section Composition.

Context {E : Collaborators}.

(** The two usage sections when every requested check passes. *)
Lemma usage_sections_pass (fuel : nat) (sbi : numbfs_superblock_info)
      (cfg : numbfs_fsck_cfg) (w1 : world) (ci cb : Z) :
  (show_inodes cfg = true ->
   scan_gives (w_dev w1) (ibitmap_start sbi) (inode_start sbi) ci /\
   ci = wrap_int (total_inodes sbi - free_inodes sbi)) ->
  (show_blocks cfg = true ->
   scan_gives (w_dev w1) (bbitmap_start sbi) (data_start sbi) cb /\
   cb = wrap_int (data_blocks sbi - free_blocks sbi)) ->
  report_sections fuel sbi cfg w1
  = (e3 <- fsck_nid fuel sbi cfg ;;
     if negb (e3 =? 0) then fsck_exit e3 else fsck_exit 0)
      (add_outs ((if show_inodes cfg then [inodes_usage_line sbi ci] else [])
                 ++ (if show_blocks cfg then [blocks_usage_line sbi cb] else []))
                w1).
Proof.
  intros Hi Hb. unfold report_sections. unfold bind at 1.
  destruct (show_inodes cfg) eqn:Hsi.
  - destruct (Hi eq_refl) as (Hscan & Hci).
    rewrite (fsck_inodes_consistent sbi w1 ci) by assumption.
    change (negb (0 =? 0)) with false. cbv iota. unfold bind at 1.
    destruct (show_blocks cfg) eqn:Hsbk.
    + destruct (Hb eq_refl) as (Hscanb & Hcb).
      rewrite (fsck_blocks_consistent sbi _ cb) by assumption.
      reflexivity.
    + reflexivity.
  - unfold ret at 1. change (negb (0 =? 0)) with false. cbv iota.
    unfold bind at 1.
    destruct (show_blocks cfg) eqn:Hsbk.
    + destruct (Hb eq_refl) as (Hscanb & Hcb).
      rewrite (fsck_blocks_consistent sbi w1 cb) by assumption.
      reflexivity.
    + reflexivity.
Qed.

End Composition.

(** X19. The superblock summary comes first and always: once the device is
    opened and the superblock loaded, the nine summary lines are the first
    thing the run adds to standard output, whatever options were given and
    however the rest of the run ends (usage lines, inode report, read
    failure or failed assertion). *)
Theorem superblock_summary_comes_first :
  forall (E : Collaborators) (fuel : nat) (cl : cmdline) (cfg : numbfs_fsck_cfg)
         (w : world) (sbi : numbfs_superblock_info) (d1 : list Z),
    fst (numbfs_fsck_parse_args cl init_cfg w) = Ret cfg ->
    w_open w (dev cfg) = 0 ->
    numbfs_get_superblock 3 (w_dev w) = ((0, sbi), d1) ->
    exists o e : list printf_call,
      w_out (snd (main fuel cl w)) = w_out w ++ superblock_lines sbi ++ o /\
      w_err (snd (main fuel cl w)) = w_err w ++ e.
Proof.
  intros E fuel cl cfg w sbi d1 Hp Hopen Hsb.
  rewrite (main_of_run fuel cl cfg w Hp).
  assert (Htail : tidy (err <- report_sections fuel sbi cfg ;;
                        if negb (err =? 0)
                        then eprintf "Error occured in fsck, err: %d\n" [PInt err] ;;
                             halt (Exited 1)
                        else ret 0)).
  { apply tidy_bind; [apply tidy_report_sections | apply tidy_main_tail]. }
  destruct (Htail (add_outs (superblock_lines sbi) (set_dev d1 w)))
    as (o & e & Ho & He & _).
  rewrite w_out_add_outs in Ho. rewrite (proj2 (frame_add_outs _ _)) in He.
  cbn [set_dev w_out w_err] in Ho, He. rewrite <- app_assoc in Ho.
  exists o, e.
  unfold bind at 1 3.
  rewrite (fsck_run_after_superblock fuel cfg w sbi d1 Hopen Hsb).
  exact (conj Ho He).
Qed.

Lemma superblock_summary_comes_first_witness :
  exists o e : list printf_call,
    w_out (snd (main (E := Demo.env) 5 DemoRun.cl_all (Demo.world_of DemoRun.img_bad)))
    = w_out (Demo.world_of DemoRun.img_bad) ++ superblock_lines DemoRun.sbi_bad ++ o /\
    w_err (snd (main (E := Demo.env) 5 DemoRun.cl_all (Demo.world_of DemoRun.img_bad)))
    = w_err (Demo.world_of DemoRun.img_bad) ++ e.
Proof.
  apply (superblock_summary_comes_first Demo.env 5 DemoRun.cl_all DemoRun.cfg_all
           (Demo.world_of DemoRun.img_bad) DemoRun.sbi_bad DemoRun.img_bad).
  - vm_compute. reflexivity.
  - reflexivity.
  - vm_compute. reflexivity.
Defined.

(** X20. With an inode requested and every requested bitmap check passing,
    the inode section decides how the run ends: the report is printed after
    the summary and the usage lines, and when [numbfs_fsck_show_inode]
    returns 0 so does [main], leaving the output as the report left it; when
    it returns an error, "failed to show inode information" and the error
    code follow on standard error and the process exits with status 1. *)
Theorem inode_section_decides_exit :
  forall (E : Collaborators) (fuel : nat) (cl : cmdline) (cfg : numbfs_fsck_cfg)
         (w : world) (sbi : numbfs_superblock_info) (d1 : list Z) (ci cb : Z)
         (err : Z) (w2 : world),
    fst (numbfs_fsck_parse_args cl init_cfg w) = Ret cfg ->
    w_open w (dev cfg) = 0 ->
    numbfs_get_superblock 3 (w_dev w) = ((0, sbi), d1) ->
    (show_inodes cfg = true ->
     scan_gives d1 (ibitmap_start sbi) (inode_start sbi) ci /\
     ci = wrap_int (total_inodes sbi - free_inodes sbi)) ->
    (show_blocks cfg = true ->
     scan_gives d1 (bbitmap_start sbi) (data_start sbi) cb /\
     cb = wrap_int (data_blocks sbi - free_blocks sbi)) ->
    0 <= nid cfg ->
    numbfs_fsck_show_inode fuel sbi (nid cfg)
      (add_outs (superblock_lines sbi
                 ++ (if show_inodes cfg then [inodes_usage_line sbi ci] else [])
                 ++ (if show_blocks cfg then [blocks_usage_line sbi cb] else []))
                (set_dev d1 w))
    = (Ret err, w2) ->
    main fuel cl w
    = if err =? 0 then (Ret 0, w2)
      else (Stop (Exited 1),
            add_err (Printf "Error occured in fsck, err: %d\n" [PInt err])
              (add_err (Printf "error: failed to show inode information\n" []) w2)).
Proof.
  intros E fuel cl cfg w sbi d1 ci cb err w2 Hp Hopen Hsb Hi Hb Hnid Hshow.
  rewrite (main_of_run fuel cl cfg w Hp).
  unfold bind at 1.
  rewrite (fsck_run_after_superblock fuel cfg w sbi d1 Hopen Hsb).
  set (w1 := add_outs (superblock_lines sbi) (set_dev d1 w)).
  assert (Hw1 : w_dev w1 = d1)
    by (unfold w1; rewrite (proj1 (frame_add_outs _ _)); reflexivity).
  rewrite (usage_sections_pass fuel sbi cfg w1 ci cb) by (rewrite Hw1; assumption).
  unfold w1. rewrite <- add_outs_app.
  unfold bind at 1, fsck_nid.
  apply Z.leb_le in Hnid. rewrite Hnid.
  unfold bind at 1. rewrite Hshow.
  destruct (err =? 0) eqn:Hz; cbn [negb]; [reflexivity|].
  unfold bind at 1, eprintf at 1, ret at 1. cbv beta iota.
  rewrite Hz. cbn [negb].
  unfold fsck_exit, sys_close, bind, ret, eprintf, halt. cbv beta iota.
  rewrite Hz. reflexivity.
Qed.

Lemma inode_section_decides_exit_witness :
  main (E := Demo.env) 5 DemoRun.cl_all (Demo.world_of DemoDir.img)
  = if 0 =? 0
    then (Ret 0,
          snd (numbfs_fsck_show_inode (E := Demo.env) 5 DemoDir.sbi 0
                 (add_outs (superblock_lines DemoDir.sbi
                            ++ [inodes_usage_line DemoDir.sbi 1]
                            ++ [blocks_usage_line DemoDir.sbi 2])
                           (set_dev DemoDir.img (Demo.world_of DemoDir.img)))))
    else (Stop (Exited 1),
          add_err (Printf "Error occured in fsck, err: %d\n" [PInt 0])
            (add_err (Printf "error: failed to show inode information\n" [])
               (snd (numbfs_fsck_show_inode (E := Demo.env) 5 DemoDir.sbi 0
                       (add_outs (superblock_lines DemoDir.sbi
                                  ++ [inodes_usage_line DemoDir.sbi 1]
                                  ++ [blocks_usage_line DemoDir.sbi 2])
                                 (set_dev DemoDir.img (Demo.world_of DemoDir.img))))))).
Proof.
  apply (inode_section_decides_exit Demo.env 5 DemoRun.cl_all DemoRun.cfg_all
           (Demo.world_of DemoDir.img) DemoDir.sbi DemoDir.img 1 2).
  - vm_compute. reflexivity.
  - reflexivity.
  - vm_compute. reflexivity.
  - intros _. split; [|vm_compute; reflexivity].
    apply scan_on_device. intros. vm_compute. reflexivity.
  - intros _. split; [|vm_compute; reflexivity].
    apply scan_on_device. intros. vm_compute. reflexivity.
  - evaluated.
  - vm_compute. reflexivity.
Defined.
